(** * AlertScheduler: a shallow embedding of
    CapabilityAgents/Alerts/src/AlertScheduler.cpp

    The scheduler keeps an ordered set of scheduled alerts, at most one
    active alert, a single-shot timer, a storage handle and a serial
    executor.  Every member function of the source becomes a function in a
    small state monad over the record [AlertScheduler]; the collaborators
    whose code lives in other files of the SDK (the Alert entity, the alert
    storage, the timer, the executor, the time utilities) are modelled from
    their contracts. *)

From Stdlib Require Import ZArith String List Bool Lia OrderedTypeEx Sorted.
From stdpp Require Import base gmap strings list fin_maps.

Local Open Scope Z_scope.

(** ** Enumerations *)

(** avsCommon::avs::FocusState *)
Inductive FocusState := FOREGROUND | BACKGROUND | NONE.

(** AlertObserverInterface::State, the state carried by a notification. *)
Module AlertObserverInterface.
Inductive State :=
| READY | STARTED | STOPPED | SNOOZED | COMPLETED | PAST_DUE
| FOCUS_ENTERED_FOREGROUND | FOCUS_ENTERED_BACKGROUND | ERROR | DELETED.
End AlertObserverInterface.

(** ** The Alert entity *)

Module Alert.

Inductive State :=
| UNSET | SET | ACTIVATING | ACTIVE | SNOOZING | SNOOZED
| STOPPING | STOPPED | COMPLETED.

Inductive StopReason := NO_REASON | AVS_STOP | LOCAL_STOP | SHUTDOWN | LOG_OUT.

(** Modelled from the spec: the Alert class (Alert.h / Alert.cpp) is not part
    of the scheduler's file.  The record carries the attributes the data model
    lists: the immutable token and type name, the scheduled time both as
    ISO-8601 string and as seconds since the epoch, the state, the focus
    state and the bound renderer / observer pair (here: whether each is
    bound). *)
Record t := mk {
  getToken : string;
  getTypeName : string;
  getScheduledTime_ISO_8601 : string;
  getScheduledTime_Unix : Z;
  getState : State;
  getStopReason : StopReason;
  getFocusState : FocusState;
  hasRenderer : bool;
  hasObserver : bool
}.

Definition withTime (iso : string) (unix : Z) (a : t) : t :=
  mk (getToken a) (getTypeName a) iso unix (getState a) (getStopReason a)
     (getFocusState a) (hasRenderer a) (hasObserver a).

Definition withState (s : State) (a : t) : t :=
  mk (getToken a) (getTypeName a) (getScheduledTime_ISO_8601 a)
     (getScheduledTime_Unix a) s (getStopReason a) (getFocusState a)
     (hasRenderer a) (hasObserver a).

Definition withStopReason (r : StopReason) (a : t) : t :=
  mk (getToken a) (getTypeName a) (getScheduledTime_ISO_8601 a)
     (getScheduledTime_Unix a) (getState a) r (getFocusState a)
     (hasRenderer a) (hasObserver a).

(** Modelled from the spec: [setFocusState(focus)] of the Alert contract. *)
Definition setFocusState (f : FocusState) (a : t) : t :=
  mk (getToken a) (getTypeName a) (getScheduledTime_ISO_8601 a)
     (getScheduledTime_Unix a) (getState a) (getStopReason a) f
     (hasRenderer a) (hasObserver a).

(** Modelled from the spec: [setRenderer(r)] binds the renderer. *)
Definition setRenderer (a : t) : t :=
  mk (getToken a) (getTypeName a) (getScheduledTime_ISO_8601 a)
     (getScheduledTime_Unix a) (getState a) (getStopReason a)
     (getFocusState a) true (hasObserver a).

(** Modelled from the spec: [setObserver(o)] binds the internal observer. *)
Definition setObserver (a : t) : t :=
  mk (getToken a) (getTypeName a) (getScheduledTime_ISO_8601 a)
     (getScheduledTime_Unix a) (getState a) (getStopReason a)
     (getFocusState a) (hasRenderer a) true.

(** Modelled from the spec: "An alert whose scheduled time precedes
    now - tolerance is past-due."  The comparison is the spec's sentence,
    taken over the integers. *)
Definition isPastDue (a : t) (currentUnixTime timeLimit : Z) : bool :=
  getScheduledTime_Unix a <? currentUnixTime - timeLimit.

(** Modelled from the spec: "after reset(), state = Set". *)
Definition reset (a : t) : t := withState SET a.

(** Modelled from the spec: the Started event "transition[s] it to Active". *)
Definition setStateActive (a : t) : t := withState ACTIVE a.

(** Modelled from the spec: [activate()] starts the state machine
    Ready -> Activating -> Active. *)
Definition activate (a : t) : t := withState ACTIVATING a.

(** Modelled from the spec: [deactivate(reason)] records the stop reason and
    sends the alert towards Stopped. *)
Definition deactivate (reason : StopReason) (a : t) : t :=
  withStopReason reason (withState STOPPING a).

(** Modelled from the spec: [updateScheduledTime(newIso) -> bool].  The new
    time is taken when the string denotes an instant; otherwise the alert is
    left as it was and the call reports failure. *)
Definition updateScheduledTime
    (convert8601 : string → option Z) (newScheduledTime : string) (a : t)
    : bool * t :=
  match convert8601 newScheduledTime with
  | Some unix => (true, withTime newScheduledTime unix a)
  | None => (false, a)
  end.

(** Modelled from the spec: [snooze(newIso)] "asks the alert to enter
    Snoozing toward Snoozed at newTime". *)
Definition snooze
    (convert8601 : string → option Z) (updatedTime : string) (a : t) : t :=
  match convert8601 updatedTime with
  | Some unix => withState SNOOZING (withTime updatedTime unix a)
  | None => a
  end.


(** Modelled from the spec: the comparator of the scheduled set (declared in
    AlertScheduler.h) orders by [(scheduledTime, token)] ascending, the token
    breaking ties. *)
Definition lessThan (lhs rhs : t) : bool :=
  (getScheduledTime_Unix lhs <? getScheduledTime_Unix rhs)
  || ((getScheduledTime_Unix lhs =? getScheduledTime_Unix rhs)
      && String.ltb (getToken lhs) (getToken rhs)).

End Alert.

#[global] Instance FocusState_eq_dec : EqDecision FocusState.
Proof. solve_decision. Defined.
#[global] Instance ObserverState_eq_dec : EqDecision AlertObserverInterface.State.
Proof. solve_decision. Defined.
#[global] Instance AlertState_eq_dec : EqDecision Alert.State.
Proof. solve_decision. Defined.
#[global] Instance StopReason_eq_dec : EqDecision Alert.StopReason.
Proof. solve_decision. Defined.
#[global] Instance Alert_eq_dec : EqDecision Alert.t.
Proof. solve_decision. Defined.

(** ** The ordered set of scheduled alerts

    [std::set<std::shared_ptr<Alert>, AlertPointerLessThan>]: a list kept in
    comparator order.  Two alerts neither of which is less than the other
    are equivalent keys. *)
Module AlertSet.

Definition equiv (a b : Alert.t) : bool :=
  negb (Alert.lessThan a b) && negb (Alert.lessThan b a).

(** [std::set::insert]: no effect when an equivalent key is present. *)
Fixpoint insert (a : Alert.t) (l : list Alert.t) : list Alert.t :=
  match l with
  | [] => [a]
  | b :: l' =>
      if Alert.lessThan a b then a :: b :: l'
      else if Alert.lessThan b a then b :: insert a l'
      else b :: l'
  end.

(** [std::set::erase(key)]: removes the element equivalent to the key. *)
Fixpoint erase (a : Alert.t) (l : list Alert.t) : list Alert.t :=
  match l with
  | [] => []
  | b :: l' => if equiv a b then erase a l' else b :: erase a l'
  end.

(** The invariant of the container: strictly increasing in the comparator's
    order. *)
Definition sorted (l : list Alert.t) : Prop :=
  StronglySorted (λ a b, Alert.lessThan a b = true) l.

(** The tokens of the members. *)
Definition tokens (l : list Alert.t) : list string := Alert.getToken <$> l.

End AlertSet.

(** ** Alert storage *)

Module AlertStorage.

(** The calls of the storage interface; an environment decides which of them
    fail. *)
Inductive Call :=
| Open | CreateDatabase | ClearDatabase | Load
| Store (token : string) | Modify (token : string) | Erase (token : string).

(** Modelled from the spec: the storage backend (AlertStorageInterface and
    its implementation) is not part of the scheduler's file.  It is "a
    row-oriented interface keyed by token", every operation returns success
    or failure and is atomic at the level of one row: a call that fails
    leaves its row as it was. *)
Definition open (fails : Call → bool) : bool := negb (fails Open).

Definition createDatabase (fails : Call → bool) (db : gmap string Alert.t)
    : bool * gmap string Alert.t :=
  if fails CreateDatabase then (false, db) else (true, ∅).

Definition clearDatabase (fails : Call → bool) (db : gmap string Alert.t)
    : bool * gmap string Alert.t :=
  if fails ClearDatabase then (false, db) else (true, ∅).

Definition load (fails : Call → bool) (db : gmap string Alert.t)
    : list Alert.t :=
  if fails Load then [] else (map_to_list db).*2.

(** Rows are keyed by token: a token that has a row is not stored again. *)
Definition store (fails : Call → bool) (a : Alert.t) (db : gmap string Alert.t)
    : bool * gmap string Alert.t :=
  if fails (Store (Alert.getToken a)) then (false, db)
  else match db !! Alert.getToken a with
       | Some _ => (false, db)
       | None => (true, <[Alert.getToken a := a]> db)
       end.

Definition modify (fails : Call → bool) (a : Alert.t) (db : gmap string Alert.t)
    : bool * gmap string Alert.t :=
  if fails (Modify (Alert.getToken a)) then (false, db)
  else (true, alter (λ _, a) (Alert.getToken a) db).

Definition erase (fails : Call → bool) (a : Alert.t) (db : gmap string Alert.t)
    : bool * gmap string Alert.t :=
  if fails (Erase (Alert.getToken a)) then (false, db)
  else (true, delete (Alert.getToken a) db).

(** Modelled from the spec: "bulkErase may be non-atomic across rows but must
    continue past individual failures, reporting overall success iff all
    rows were erased". *)
Fixpoint bulkErase (fails : Call → bool) (l : list Alert.t)
    (db : gmap string Alert.t) : bool * gmap string Alert.t :=
  match l with
  | [] => (true, db)
  | a :: l' =>
      let '(ok, db1) := erase fails a db in
      let '(ok', db2) := bulkErase fails l' db1 in
      (ok && ok', db2)
  end.

End AlertStorage.

(** ** Environment, timer, executor *)

(** What one operation sees of the outside world: the reading of the clock
    ([TimeUtils::getCurrentUnixTime], [None] when it fails) and the storage
    calls that fail. *)
Record Env := {
  getCurrentUnixTime : option Z;
  storageFails : AlertStorage.Call → bool
}.

(** The value a 64-bit signed integer holds for [z]: two's complement
    wrap-around. *)
Definition wrap64 (z : Z) : Z := (z + 2 ^ 63) mod 2 ^ 64 - 2 ^ 63.

#[global] Arguments wrap64 : simpl never.

(** A notification: the arguments of [onAlertStateChange]. *)
Record Notification := {
  alertToken : string;
  alertType : string;
  alertState : AlertObserverInterface.State;
  alertReason : string
}.

#[global] Instance Notification_eq_dec : EqDecision Notification.
Proof. solve_decision. Defined.

(** The work items submitted to [m_executor]. *)
Inductive Task :=
| ExecuteNotifyObserver (n : Notification)
| ExecuteOnAlertStateChange (n : Notification).

#[global] Instance Task_eq_dec : EqDecision Task.
Proof. solve_decision. Defined.

(** Modelled from the spec: the single-shot timer holds at most one pending
    callback; here the delay in seconds and the token and type bound into
    [onAlertReady]. *)
Record TimerJob := {
  secondsToWait : Z;
  readyToken : string;
  readyType : string
}.

(** A call on an alert that reaches its renderer. *)
Inductive AlertCall :=
| Activate (token : string)
| Deactivate (token : string) (reason : Alert.StopReason)
| Snooze (token : string) (updatedTime : string).

(** ** The scheduler *)

Record AlertScheduler := mkScheduler {
  m_observer : bool;                         (* an observer is set *)
  m_alertStorage : gmap string Alert.t;      (* the persisted rows *)
  m_focusState : FocusState;
  m_activeAlert : option Alert.t;
  m_scheduledAlerts : list Alert.t;
  m_scheduledAlertTimer : option TimerJob;   (* [Some] while armed *)
  m_executor : list Task;                    (* pending, oldest first *)
  observed : list Notification;              (* what the observer received *)
  alertCalls : list AlertCall;               (* calls made on alerts *)
  isShutdown : bool                          (* [shutdown] has released the handles *)
}.

Definition withObserver (o : bool) (s : AlertScheduler) : AlertScheduler :=
  mkScheduler o (m_alertStorage s) (m_focusState s) (m_activeAlert s)
    (m_scheduledAlerts s) (m_scheduledAlertTimer s) (m_executor s)
    (observed s) (alertCalls s) (isShutdown s).

Definition withStorage (db : gmap string Alert.t) (s : AlertScheduler)
    : AlertScheduler :=
  mkScheduler (m_observer s) db (m_focusState s) (m_activeAlert s)
    (m_scheduledAlerts s) (m_scheduledAlertTimer s) (m_executor s)
    (observed s) (alertCalls s) (isShutdown s).

Definition withFocus (f : FocusState) (s : AlertScheduler) : AlertScheduler :=
  mkScheduler (m_observer s) (m_alertStorage s) f (m_activeAlert s)
    (m_scheduledAlerts s) (m_scheduledAlertTimer s) (m_executor s)
    (observed s) (alertCalls s) (isShutdown s).

Definition withActive (a : option Alert.t) (s : AlertScheduler)
    : AlertScheduler :=
  mkScheduler (m_observer s) (m_alertStorage s) (m_focusState s) a
    (m_scheduledAlerts s) (m_scheduledAlertTimer s) (m_executor s)
    (observed s) (alertCalls s) (isShutdown s).

Definition withScheduled (l : list Alert.t) (s : AlertScheduler)
    : AlertScheduler :=
  mkScheduler (m_observer s) (m_alertStorage s) (m_focusState s)
    (m_activeAlert s) l (m_scheduledAlertTimer s) (m_executor s)
    (observed s) (alertCalls s) (isShutdown s).

Definition withTimer (t : option TimerJob) (s : AlertScheduler)
    : AlertScheduler :=
  mkScheduler (m_observer s) (m_alertStorage s) (m_focusState s)
    (m_activeAlert s) (m_scheduledAlerts s) t (m_executor s)
    (observed s) (alertCalls s) (isShutdown s).

Definition withExecutor (q : list Task) (s : AlertScheduler) : AlertScheduler :=
  mkScheduler (m_observer s) (m_alertStorage s) (m_focusState s)
    (m_activeAlert s) (m_scheduledAlerts s) (m_scheduledAlertTimer s) q
    (observed s) (alertCalls s) (isShutdown s).

Definition withObserved (o : list Notification) (s : AlertScheduler)
    : AlertScheduler :=
  mkScheduler (m_observer s) (m_alertStorage s) (m_focusState s)
    (m_activeAlert s) (m_scheduledAlerts s) (m_scheduledAlertTimer s)
    (m_executor s) o (alertCalls s) (isShutdown s).

Definition withAlertCalls (c : list AlertCall) (s : AlertScheduler)
    : AlertScheduler :=
  mkScheduler (m_observer s) (m_alertStorage s) (m_focusState s)
    (m_activeAlert s) (m_scheduledAlerts s) (m_scheduledAlertTimer s)
    (m_executor s) (observed s) c (isShutdown s).

Definition withShutdown (b : bool) (s : AlertScheduler) : AlertScheduler :=
  mkScheduler (m_observer s) (m_alertStorage s) (m_focusState s)
    (m_activeAlert s) (m_scheduledAlerts s) (m_scheduledAlertTimer s)
    (m_executor s) (observed s) (alertCalls s) b.

(** The scheduler as the constructor leaves it. *)
Definition newScheduler (db : gmap string Alert.t) : AlertScheduler :=
  mkScheduler false db NONE None [] None [] [] [] false.

(** *** The monad of member functions: state passing over the scheduler. *)

Definition M (A : Type) : Type := AlertScheduler → A * AlertScheduler.

Definition ret {A} (x : A) : M A := λ s, (x, s).

Definition bind {A B} (c : M A) (k : A → M B) : M B :=
  λ s, let '(x, s') := c s in k x s'.

Declare Scope sched_scope.
Delimit Scope sched_scope with sched.
Notation "x ← y ; z" := (bind y (λ x, z))
  (at level 20, y at level 100, z at level 200, only parsing) : sched_scope.
Notation "x ;; z" := (bind x (λ _, z))
  (at level 100, z at level 200, only parsing, right associativity) : sched_scope.
Open Scope sched_scope.

Definition get {A} (f : AlertScheduler → A) : M A := λ s, (f s, s).

Definition modify (f : AlertScheduler → AlertScheduler) : M unit :=
  λ s, (tt, f s).

Fixpoint forEach {A} (l : list A) (body : A → M unit) : M unit :=
  match l with
  | [] => ret tt
  | x :: l' => body x;; forEach l' body
  end.

Definition exec {A} (c : M A) (s : AlertScheduler) : AlertScheduler := (c s).2.
Definition result {A} (c : M A) (s : AlertScheduler) : A := (c s).1.

(** ** The member functions of AlertScheduler

    The constructor's [alertPastDueTimeLimit] and the conversion of ISO-8601
    strings ([TimeUtils::convert8601TimeStringToUnix], used by the alerts'
    time points) are fixed for the life of a scheduler.  The model covers a
    scheduler from its construction to its [shutdown]; the mutex, which every
    function below holds for its whole body, makes each of them one step. *)

Section Scheduler.

Variable convert8601TimeStringToUnix : string → option Z.
Variable m_alertPastDueTimeLimit : Z.

(** [m_executor.submit] *)
Definition submit (t : Task) : M unit :=
  modify (λ s, withExecutor (m_executor s ++ [t]) s).

(** [m_alertStorage-><call>] *)
Definition callStorage
    (call : gmap string Alert.t → bool * gmap string Alert.t) : M bool :=
  λ s, let '(ok, db) := call (m_alertStorage s) in (ok, withStorage db s).

(** A call on an alert that its renderer sees. *)
Definition alertCall (c : AlertCall) : M unit :=
  modify (λ s, withAlertCalls (alertCalls s ++ [c]) s).

(** Mutation of the object [m_activeAlert] points to. *)
Definition onActiveAlert (f : Alert.t → Alert.t) : M unit :=
  modify (λ s, withActive (f <$> m_activeAlert s) s).

Definition insertScheduled (a : Alert.t) : M unit :=
  modify (λ s, withScheduled (AlertSet.insert a (m_scheduledAlerts s)) s).

Definition eraseScheduled (a : Alert.t) : M unit :=
  modify (λ s, withScheduled (AlertSet.erase a (m_scheduledAlerts s)) s).

(** [AlertScheduler::onAlertStateChange]: the callback of the alerts; it only
    enqueues. *)
Definition onAlertStateChange (n : Notification) : M unit :=
  submit (ExecuteOnAlertStateChange n).

(** [AlertScheduler::notifyObserver] *)
Definition notifyObserver (token type : string)
    (state : AlertObserverInterface.State) (reason : string) : M unit :=
  submit (ExecuteNotifyObserver
            {| alertToken := token; alertType := type;
               alertState := state; alertReason := reason |}).

(** [AlertScheduler::executeNotifyObserver]: dereferences [m_observer], which
    is null until [initialize] has set it; [None] is that undefined
    behaviour. *)
Definition executeNotifyObserver (n : Notification) (s : AlertScheduler)
    : option AlertScheduler :=
  if m_observer s then Some (withObserved (observed s ++ [n]) s) else None.

(** [AlertScheduler::deactivateActiveAlertHelperLocked] *)
Definition deactivateActiveAlertHelperLocked (reason : Alert.StopReason)
    : M unit :=
  active ← get m_activeAlert;
  match active with
  | Some a =>
      onActiveAlert (Alert.deactivate reason);;
      alertCall (Deactivate (Alert.getToken a) reason)
  | None => ret tt
  end.

(** [AlertScheduler::getAlertLocked] *)
Definition getAlertLocked (token : string) : M (option Alert.t) :=
  scheduled ← get m_scheduledAlerts;
  ret (find (λ alert, String.eqb token (Alert.getToken alert)) scheduled).

(** [AlertScheduler::eraseAlert]; the argument is a pointer that may be
    null. *)
Definition eraseAlert (env : Env) (alert : option Alert.t) : M unit :=
  match alert with
  | None => ret tt
  | Some a =>
      erased ← callStorage (AlertStorage.erase (storageFails env) a);
      if erased
      then notifyObserver (Alert.getToken a) (Alert.getTypeName a)
             AlertObserverInterface.DELETED ""
      else ret tt
  end.

(** [AlertScheduler::setTimerForNextAlertLocked].  The timer has been
    stopped when [start] is called, and [start] on a stopped timer gives a
    valid handle.  The scheduled time and the clock's reading are [int64_t]
    and so is their difference: it is taken in 64 bits. *)
Definition setTimerForNextAlertLocked (env : Env) : M unit :=
  timer ← get m_scheduledAlertTimer;
  (if timer is Some _ then modify (withTimer None) else ret tt);;
  active ← get m_activeAlert;
  if active is Some _ then ret tt else
  scheduled ← get m_scheduledAlerts;
  match scheduled with
  | [] => ret tt
  | alert :: _ =>
      match getCurrentUnixTime env with
      | None => ret tt
      | Some timeNow =>
          let secondsToWait :=
            wrap64 (Alert.getScheduledTime_Unix alert - timeNow) in
          let secondsToWait :=
            if secondsToWait <? 0 then 0 else secondsToWait in
          if secondsToWait =? 0
          then notifyObserver (Alert.getToken alert) (Alert.getTypeName alert)
                 AlertObserverInterface.READY ""
          else modify (withTimer
                 (Some {| secondsToWait := secondsToWait;
                          readyToken := Alert.getToken alert;
                          readyType := Alert.getTypeName alert |}))
      end
  end.

(** [AlertScheduler::setTimerForNextAlert] *)
Definition setTimerForNextAlert (env : Env) : M unit :=
  setTimerForNextAlertLocked env.

(** [AlertScheduler::onAlertReady], the timer's callback. *)
Definition onAlertReady (token type : string) : M unit :=
  notifyObserver token type AlertObserverInterface.READY "".

(** [AlertScheduler::activateNextAlertLocked] *)
Definition activateNextAlertLocked : M unit :=
  active ← get m_activeAlert;
  if active is Some _ then ret tt else
  scheduled ← get m_scheduledAlerts;
  match scheduled with
  | [] => ret tt
  | first :: rest =>
      modify (withActive (Some first));;
      modify (withScheduled rest);;
      focus ← get m_focusState;
      onActiveAlert (Alert.setFocusState focus);;
      onActiveAlert Alert.activate;;
      alertCall (Activate (Alert.getToken first))
  end.

(** The body of the loop of [AlertScheduler::initialize], for one loaded
    alert. *)
Definition initializeLoaded (env : Env) (unixEpochNow : Z) (alert : Alert.t)
    : M unit :=
  if Alert.isPastDue alert unixEpochNow m_alertPastDueTimeLimit
  then
    notifyObserver (Alert.getToken alert) (Alert.getTypeName alert)
      AlertObserverInterface.PAST_DUE "";;
    eraseAlert env (Some alert)
  else
    alert ← (if decide (Alert.getState alert = Alert.ACTIVE)
             then
               callStorage (AlertStorage.modify (storageFails env)
                              (Alert.reset alert));;
               ret (Alert.reset alert)
             else ret alert);
    insertScheduled (Alert.setObserver (Alert.setRenderer alert)).

(** [AlertScheduler::initialize]; [observer] tells whether the pointer passed
    is non-null. *)
Definition initialize (env : Env) (observer : bool) : M bool :=
  if negb observer then ret false else
  modify (withObserver true);;
  ready ← (if AlertStorage.open (storageFails env) then ret true
           else callStorage (AlertStorage.createDatabase (storageFails env)));
  if negb ready then ret false else
  match getCurrentUnixTime env with
  | None => ret false
  | Some unixEpochNow =>
      alerts ← get (λ s, AlertStorage.load (storageFails env) (m_alertStorage s));
      forEach alerts (initializeLoaded env unixEpochNow);;
      setTimerForNextAlert env;;
      ret true
  end.

(** The guard of [AlertScheduler::updateAlert]: runs on every exit. *)
Definition updateAlertGuard (env : Env) (alert : Alert.t) : M unit :=
  insertScheduled alert;;
  active ← get m_activeAlert;
  if active is Some _ then ret tt else setTimerForNextAlertLocked env.

(** [AlertScheduler::updateAlert] *)
Definition updateAlert (env : Env) (alert : Alert.t) (newScheduledTime : string)
    : M bool :=
  eraseScheduled alert;;
  let oldScheduledTime := Alert.getScheduledTime_ISO_8601 alert in
  let '(updated, alert1) :=
    Alert.updateScheduledTime convert8601TimeStringToUnix newScheduledTime alert in
  if negb updated then updateAlertGuard env alert1;; ret false else
  modified ← callStorage (AlertStorage.modify (storageFails env) alert1);
  if negb modified then
    let alert2 :=
      (Alert.updateScheduledTime convert8601TimeStringToUnix oldScheduledTime
         alert1).2 in
    updateAlertGuard env alert2;; ret false
  else updateAlertGuard env alert1;; ret true.

(** [AlertScheduler::scheduleAlert] *)
Definition scheduleAlert (env : Env) (alert : Alert.t) : M bool :=
  match getCurrentUnixTime env with
  | None => ret false
  | Some unixEpochNow =>
      if Alert.isPastDue alert unixEpochNow m_alertPastDueTimeLimit
      then ret false else
      oldAlert ← getAlertLocked (Alert.getToken alert);
      match oldAlert with
      | Some oldAlert =>
          updateAlert env oldAlert (Alert.getScheduledTime_ISO_8601 alert)
      | None =>
          stored ← callStorage (AlertStorage.store (storageFails env) alert);
          if negb stored then ret false else
          insertScheduled (Alert.setObserver (Alert.setRenderer alert));;
          active ← get m_activeAlert;
          (if active is Some _ then ret tt
           else setTimerForNextAlertLocked env);;
          ret true
      end
  end.

(** [AlertScheduler::snoozeAlert] *)
Definition snoozeAlert (alertToken updatedTime_ISO_8601 : string) : M bool :=
  active ← get m_activeAlert;
  match active with
  | None => ret false
  | Some a =>
      if negb (String.eqb (Alert.getToken a) alertToken) then ret false else
      onActiveAlert (Alert.snooze convert8601TimeStringToUnix updatedTime_ISO_8601);;
      alertCall (Snooze alertToken updatedTime_ISO_8601);;
      ret true
  end.

(** Whether [m_activeAlert && m_activeAlert->getToken() == alertToken]. *)
Definition activeHasToken (active : option Alert.t) (alertToken : string) : bool :=
  match active with
  | Some a => String.eqb (Alert.getToken a) alertToken
  | None => false
  end.

(** [AlertScheduler::deleteAlert] *)
Definition deleteAlert (env : Env) (alertToken : string) : M bool :=
  active ← get m_activeAlert;
  if activeHasToken active alertToken
  then deactivateActiveAlertHelperLocked Alert.AVS_STOP;; ret true
  else
    alert ← getAlertLocked alertToken;
    match alert with
    | None => ret true
    | Some a =>
        eraseAlert env (Some a);;
        eraseScheduled a;;
        setTimerForNextAlertLocked env;;
        ret true
    end.

(** The first loop of [AlertScheduler::deleteAlerts]: it reads the active
    slot and the scheduled set, which it does not change, and yields
    [deleteActiveAlert] and [alertsToBeRemoved] (in the order of the
    tokens). *)
Fixpoint collectAlertsToBeRemoved (active : option Alert.t)
    (scheduled : list Alert.t) (tokenList : list string)
    : bool * list Alert.t :=
  match tokenList with
  | [] => (false, [])
  | alertToken :: rest =>
      let '(deleteActiveAlert, alertsToBeRemoved) :=
        collectAlertsToBeRemoved active scheduled rest in
      if activeHasToken active alertToken
      then (true, option_list active ++ alertsToBeRemoved)
      else
        match find (λ alert, String.eqb alertToken (Alert.getToken alert))
                scheduled with
        | None => (deleteActiveAlert, alertsToBeRemoved)
        | Some alert => (deleteActiveAlert, alert :: alertsToBeRemoved)
        end
  end.

(** [AlertScheduler::deleteAlerts] *)
Definition deleteAlerts (env : Env) (tokenList : list string) : M bool :=
  active ← get m_activeAlert;
  scheduled ← get m_scheduledAlerts;
  let '(deleteActiveAlert, alertsToBeRemoved) :=
    collectAlertsToBeRemoved active scheduled tokenList in
  erased ← callStorage
             (AlertStorage.bulkErase (storageFails env) alertsToBeRemoved);
  if negb erased then ret false else
  (if deleteActiveAlert
   then deactivateActiveAlertHelperLocked Alert.AVS_STOP;;
        modify (withActive None)
   else ret tt);;
  forEach alertsToBeRemoved (λ alert,
    eraseScheduled alert;;
    notifyObserver (Alert.getToken alert) (Alert.getTypeName alert)
      AlertObserverInterface.DELETED "");;
  setTimerForNextAlertLocked env;;
  ret true.

(** [AlertScheduler::isAlertActiveLocked] / [isAlertActive] *)
Definition isAlertActive (alert : Alert.t) : M bool :=
  active ← get m_activeAlert;
  match active with
  | None => ret false
  | Some a =>
      if negb (String.eqb (Alert.getToken a) (Alert.getToken alert))
      then ret false
      else ret (bool_decide (Alert.getState a = Alert.ACTIVATING)
                || bool_decide (Alert.getState a = Alert.ACTIVE))
  end.

(** [AlertScheduler::updateFocus] *)
Definition updateFocus (focusState : FocusState) : M unit :=
  current ← get m_focusState;
  if decide (current = focusState) then ret tt else
  modify (withFocus focusState);;
  match focusState with
  | FOREGROUND =>
      active ← get m_activeAlert;
      match active with
      | Some a =>
          onActiveAlert (Alert.setFocusState focusState);;
          notifyObserver (Alert.getToken a) (Alert.getTypeName a)
            AlertObserverInterface.FOCUS_ENTERED_FOREGROUND ""
      | None => activateNextAlertLocked
      end
  | BACKGROUND =>
      active ← get m_activeAlert;
      match active with
      | Some a =>
          onActiveAlert (Alert.setFocusState focusState);;
          notifyObserver (Alert.getToken a) (Alert.getTypeName a)
            AlertObserverInterface.FOCUS_ENTERED_BACKGROUND ""
      | None => activateNextAlertLocked
      end
  | NONE => deactivateActiveAlertHelperLocked Alert.LOCAL_STOP
  end.

(** [AlertScheduler::getFocusState] *)
Definition getFocusState : M FocusState := get m_focusState.

(** [AlertScheduler::getAllAlerts] *)
Definition getAllAlerts : M (list Alert.t) :=
  scheduled ← get m_scheduledAlerts;
  active ← get m_activeAlert;
  ret (scheduled ++ option_list active).

(** [AlertScheduler::onLocalStop] *)
Definition onLocalStop : M unit :=
  deactivateActiveAlertHelperLocked Alert.LOCAL_STOP.

(** [AlertScheduler::clearData] *)
Definition clearData (env : Env) (reason : Alert.StopReason) : M unit :=
  deactivateActiveAlertHelperLocked reason;;
  timer ← get m_scheduledAlertTimer;
  (if timer is Some _ then modify (withTimer None) else ret tt);;
  scheduled ← get m_scheduledAlerts;
  forEach scheduled (λ alert,
    notifyObserver (Alert.getToken alert) (Alert.getTypeName alert)
      AlertObserverInterface.DELETED "");;
  modify (withScheduled []);;
  callStorage (AlertStorage.clearDatabase (storageFails env));;
  ret tt.

(** Modelled from the spec: [Executor::shutdown] "drains pending tasks and
    terminates the worker; no new tasks are accepted afterwards".  It leaves
    the queue empty; a task that the worker still runs before it terminates
    is a run of the executor before the shutdown. *)
Definition executorShutdown : M unit := modify (withExecutor []).

(** [AlertScheduler::shutdown].  Resetting [m_alertStorage] and
    [m_alertRenderer] releases the handles; the rows of the database stay
    as they are. *)
Definition shutdown : M unit :=
  executorShutdown;;
  modify (withTimer None);;
  modify (withObserver false);;
  modify (withShutdown true);;
  modify (withActive None);;
  modify (withScheduled []).

(** [AlertScheduler::executeOnAlertStateChange].  The SNOOZED branch hands
    [m_activeAlert] to the storage and to the set without a null test; with
    an empty active slot that dereferences a null pointer, and the result is
    [None]. *)
Definition executeOnAlertStateChange (env : Env) (n : Notification)
    (s : AlertScheduler) : option AlertScheduler :=
  let forward :=
    notifyObserver (alertToken n) (alertType n) (alertState n) (alertReason n) in
  match alertState n with
  | AlertObserverInterface.READY => Some (exec forward s)
  | AlertObserverInterface.STARTED =>
      match m_activeAlert s with
      | Some a =>
          if decide (Alert.getState a = Alert.ACTIVATING)
          then Some (exec (
                 onActiveAlert Alert.setStateActive;;
                 callStorage (AlertStorage.modify (storageFails env)
                                (Alert.setStateActive a));;
                 forward) s)
          else Some s
      | None => Some s
      end
  | AlertObserverInterface.STOPPED =>
      Some (exec (
        forward;;
        active ← get m_activeAlert;
        eraseAlert env active;;
        modify (withActive None);;
        setTimerForNextAlertLocked env) s)
  | AlertObserverInterface.COMPLETED =>
      Some (exec (
        forward;;
        active ← get m_activeAlert;
        eraseAlert env active;;
        modify (withActive None);;
        setTimerForNextAlertLocked env) s)
  | AlertObserverInterface.SNOOZED =>
      match m_activeAlert s with
      | None => None
      | Some a =>
          Some (exec (
            callStorage (AlertStorage.modify (storageFails env) a);;
            insertScheduled a;;
            modify (withActive None);;
            forward;;
            setTimerForNextAlertLocked env) s)
      end
  | AlertObserverInterface.PAST_DUE => Some s
  | AlertObserverInterface.FOCUS_ENTERED_FOREGROUND => Some s
  | AlertObserverInterface.FOCUS_ENTERED_BACKGROUND => Some s
  | AlertObserverInterface.DELETED => Some s
  | AlertObserverInterface.ERROR =>
      Some (exec (
        active ← get m_activeAlert;
        (if activeHasToken active (alertToken n)
         then
           eraseAlert env active;;
           modify (withActive None);;
           setTimerForNextAlertLocked env
         else
           alert ← getAlertLocked (alertToken n);
           match alert with
           | Some a =>
               eraseAlert env (Some a);;
               eraseScheduled a;;
               setTimerForNextAlertLocked env
           | None => ret tt
           end);;
        forward) s)
  end.

(** ** Events

    What can happen to a scheduler: a call of a public member function, the
    alerts' callback, the executor running its oldest task, the timer
    firing, the shutdown. *)
Inductive Event :=
| Initialize (observer : bool)
| ScheduleAlert (alert : Alert.t)
| SnoozeAlert (alertToken updatedTime : string)
| DeleteAlert (alertToken : string)
| DeleteAlerts (tokenList : list string)
| UpdateFocus (focusState : FocusState)
| OnLocalStop
| ClearData (reason : Alert.StopReason)
| OnAlertStateChange (n : Notification)
| ExecutorRun
| TimerFire
| Shutdown.

(** Modelled from the spec: the serial executor runs its tasks in submission
    order, one at a time. *)
Definition executorRun (env : Env) (s : AlertScheduler) : option AlertScheduler :=
  match m_executor s with
  | [] => None
  | task :: rest =>
      let s' := withExecutor rest s in
      match task with
      | ExecuteNotifyObserver n => executeNotifyObserver n s'
      | ExecuteOnAlertStateChange n => executeOnAlertStateChange env n s'
      end
  end.

(** Modelled from the spec: the single-shot timer runs its callback once and
    is inactive afterwards. *)
Definition timerFire (s : AlertScheduler) : option AlertScheduler :=
  match m_scheduledAlertTimer s with
  | None => None
  | Some job =>
      Some (exec (onAlertReady (readyToken job) (readyType job))
              (withTimer None s))
  end.

(** One event; [None] when the event cannot happen in the state (nothing to
    run, timer not armed) or the source's behaviour is undefined.  The life
    of a scheduler that the model covers ends with its [shutdown]: the
    handles are released then, and no event is modelled after it. *)
Definition step (env : Env) (e : Event) (s : AlertScheduler)
    : option AlertScheduler :=
  if isShutdown s then None else
  match e with
  | Initialize observer => Some (exec (initialize env observer) s)
  | ScheduleAlert alert => Some (exec (scheduleAlert env alert) s)
  | SnoozeAlert token time => Some (exec (snoozeAlert token time) s)
  | DeleteAlert token => Some (exec (deleteAlert env token) s)
  | DeleteAlerts tokens => Some (exec (deleteAlerts env tokens) s)
  | UpdateFocus focus => Some (exec (updateFocus focus) s)
  | OnLocalStop => Some (exec onLocalStop s)
  | ClearData reason => Some (exec (clearData env reason) s)
  | OnAlertStateChange n => Some (exec (onAlertStateChange n) s)
  | ExecutorRun => executorRun env s
  | TimerFire => timerFire s
  | Shutdown => Some (exec shutdown s)
  end.

(** The states a scheduler constructed over the rows [db] can reach. *)
Inductive reachable (db : gmap string Alert.t) : AlertScheduler → Prop :=
| reachable_new : reachable db (newScheduler db)
| reachable_step env e s s' :
    reachable db s → step env e s = Some s' → reachable db s'.

End Scheduler.

#[global] Arguments setTimerForNextAlertLocked : simpl never.
#[global] Arguments eraseAlert : simpl never.
#[global] Arguments deactivateActiveAlertHelperLocked : simpl never.
#[global] Arguments activateNextAlertLocked : simpl never.
#[global] Arguments updateAlertGuard : simpl never.
#[global] Arguments updateAlert : simpl never.
#[global] Arguments initializeLoaded : simpl never.

(** ** Definitions that follow the specification's words *)


(** Rows are keyed by the token of the alert they hold. *)
Definition keyedByToken (db : gmap string Alert.t) : Prop :=
  ∀ k a, db !! k = Some a → Alert.getToken a = k.

(** The rows [initialize] loads from: the database as it is when it opens,
    a fresh one when it had to be created. *)
Definition openedRows (env : Env) (db : gmap string Alert.t)
    : gmap string Alert.t :=
  if AlertStorage.open (storageFails env) then db else ∅.

(** What [initialize] puts into the scheduled set for a loaded alert that is
    not past due. *)
Definition recovered (a : Alert.t) : Alert.t :=
  Alert.setObserver
    (Alert.setRenderer
       (if decide (Alert.getState a = Alert.ACTIVE) then Alert.reset a else a)).

(** The alert a token of a [deleteMany] batch matches: the active alert when
    it has the token, else the scheduled alert with the token, if any. *)
Definition matchedAlert (s : AlertScheduler) (token : string) : option Alert.t :=
  if activeHasToken (m_activeAlert s) token then m_activeAlert s
  else find (λ alert, String.eqb token (Alert.getToken alert))
         (m_scheduledAlerts s).



(** ** Vocabulary of the statements *)

(** What the STOPPED and the COMPLETED branch of [executeOnAlertStateChange]
    both turn out to do (C10). *)
Definition finishActiveAlert (env : Env) (n : Notification) : M unit :=
  notifyObserver (alertToken n) (alertType n) (alertState n) (alertReason n);;
  active ← get m_activeAlert;
  eraseAlert env active;;
  modify (withActive None);;
  setTimerForNextAlertLocked env.

#[global] Arguments finishActiveAlert : simpl never.

(** Unfolding of the monad's plumbing. *)
Ltac unfold_monad :=
  unfold exec, result, notifyObserver, onAlertStateChange, insertScheduled,
    eraseScheduled, onActiveAlert, alertCall, callStorage, submit, bind, ret,
    get, modify in *.

(** The Ready, Deleted and PastDue notification of an alert, as tasks. *)
Definition readyFor (a : Alert.t) : Task :=
  ExecuteNotifyObserver
    {| alertToken := Alert.getToken a; alertType := Alert.getTypeName a;
       alertState := AlertObserverInterface.READY; alertReason := "" |}.

Definition deletedFor (a : Alert.t) : Task :=
  ExecuteNotifyObserver
    {| alertToken := Alert.getToken a; alertType := Alert.getTypeName a;
       alertState := AlertObserverInterface.DELETED; alertReason := "" |}.

Definition pastDueFor (a : Alert.t) : Task :=
  ExecuteNotifyObserver
    {| alertToken := Alert.getToken a; alertType := Alert.getTypeName a;
       alertState := AlertObserverInterface.PAST_DUE; alertReason := "" |}.

(** The set after the erasures of the second loop of [deleteAlerts]. *)
Definition eraseAll (l : list Alert.t) (scheduled : list Alert.t) : list Alert.t :=
  foldl (λ acc a, AlertSet.erase a acc) scheduled l.

(** The state [deleteAlerts] reaches before it re-arms the timer, once the
    bulk erase has succeeded and left the rows [db']. *)
Definition afterBulkErase (toks : list string) (db' : gmap string Alert.t)
    (s : AlertScheduler) : AlertScheduler :=
  let matched := omap (matchedAlert s) toks in
  let deleteActive := existsb (activeHasToken (m_activeAlert s)) toks in
  mkScheduler (m_observer s) db' (m_focusState s)
    (if deleteActive then None else m_activeAlert s)
    (eraseAll matched (m_scheduledAlerts s))
    (m_scheduledAlertTimer s)
    (m_executor s ++ (deletedFor <$> matched))
    (observed s)
    (alertCalls s ++
       if deleteActive
       then (λ a, Deactivate (Alert.getToken a) Alert.AVS_STOP)
              <$> option_list (m_activeAlert s)
       else [])
    (isShutdown s).

(** The effect of one iteration of the loop of [initialize] on the rows, on
    the scheduled set and on the executor's queue. *)
Definition loadedRows (limit : Z) (env : Env) (now : Z)
    (db : gmap string Alert.t) (a : Alert.t) : gmap string Alert.t :=
  if Alert.isPastDue a now limit
  then (AlertStorage.erase (storageFails env) a db).2
  else if decide (Alert.getState a = Alert.ACTIVE)
       then (AlertStorage.modify (storageFails env) (Alert.reset a) db).2
       else db.

Definition loadedSet (limit : Z) (now : Z) (scheduled : list Alert.t)
    (a : Alert.t) : list Alert.t :=
  if Alert.isPastDue a now limit then scheduled
  else AlertSet.insert (recovered a) scheduled.

Definition loadedTasks (limit : Z) (env : Env) (now : Z) (a : Alert.t)
    : list Task :=
  if Alert.isPastDue a now limit
  then pastDueFor a ::
       (if storageFails env (AlertStorage.Erase (Alert.getToken a)) then []
        else [deletedFor a])
  else [].

(** ** Invariants *)

(** "Timer disarmed while active alert exists". *)
Definition timerDisarmedWhileActive (s : AlertScheduler) : Prop :=
  is_Some (m_activeAlert s) → m_scheduledAlertTimer s = None.

(** The scheduled set is in the comparator's order. *)
Definition scheduledSorted (s : AlertScheduler) : Prop :=
  AlertSet.sorted (m_scheduledAlerts s).

(** Changes that leave the scheduled set alone. *)
Definition sameScheduled (f : AlertScheduler → AlertScheduler) : Prop :=
  ∀ s, m_scheduledAlerts (f s) = m_scheduledAlerts s.

(** The rows of the scheduler's storage are keyed by token. *)
Definition rowsKeyed (s : AlertScheduler) : Prop :=
  keyedByToken (m_alertStorage s).

(** Changes that leave the storage alone. *)
Definition sameStorage (f : AlertScheduler → AlertScheduler) : Prop :=
  ∀ s, m_alertStorage (f s) = m_alertStorage s.

(** A storage call that keeps rows keyed by token. *)
Definition keepsKeys
    (call : gmap string Alert.t → bool * gmap string Alert.t) : Prop :=
  ∀ db, keyedByToken db → keyedByToken (call db).2.

(** The event makes [updateFocus] promote the first scheduled alert while
    the timer is armed. *)
Definition promotesWhileArmed (e : Event) (s : AlertScheduler) : Prop :=
  match e with
  | UpdateFocus focus =>
      focus ≠ NONE ∧ focus ≠ m_focusState s ∧ m_activeAlert s = None
      ∧ m_scheduledAlerts s ≠ [] ∧ is_Some (m_scheduledAlertTimer s)
  | _ => False
  end.

(** The states reached by events none of which promotes an alert while the
    timer is armed. *)
Inductive reachableUnarmed (convert : string → option Z) (limit : Z)
    (db : gmap string Alert.t) : AlertScheduler → Prop :=
| reachableUnarmed_new : reachableUnarmed convert limit db (newScheduler db)
| reachableUnarmed_step env e s s' :
    reachableUnarmed convert limit db s →
    ¬ promotesWhileArmed e s →
    step convert limit env e s = Some s' →
    reachableUnarmed convert limit db s'.

(** A computation keeps an invariant. *)
Definition preserves (I : AlertScheduler → Prop) {A} (c : M A) : Prop :=
  ∀ s, I s → I (c s).2.

(** Changes that touch neither the timer nor whether the active slot is
    filled. *)
Definition sameSlots (f : AlertScheduler → AlertScheduler) : Prop :=
  ∀ s, (is_Some (m_activeAlert (f s)) → is_Some (m_activeAlert s))
       ∧ m_scheduledAlertTimer (f s) = m_scheduledAlertTimer s.

(** "Memory-storage consistency": no two alerts in memory (scheduled set and
    active slot) share a token, and the tokens in memory are the keys of the
    persisted rows. *)
Definition consistentOf (scheduled : list Alert.t) (active : option Alert.t)
    (db : gmap string Alert.t) : Prop :=
  NoDup (AlertSet.tokens scheduled ++ AlertSet.tokens (option_list active))
  ∧ ∀ k, k ∈ AlertSet.tokens scheduled ++ AlertSet.tokens (option_list active)
         ↔ is_Some (db !! k).

Definition consistent (s : AlertScheduler) : Prop :=
  consistentOf (m_scheduledAlerts s) (m_activeAlert s) (m_alertStorage s).



(** ** Sample data for the examples *)

(** A stand-in for the ISO-8601 conversion: a non-empty string of decimal
    digits denotes that many seconds since the epoch. *)
Fixpoint digitsToZ (s : string) (acc : Z) : option Z :=
  match s with
  | EmptyString => Some acc
  | String c rest =>
      let d := Z.of_nat (Ascii.nat_of_ascii c) - 48 in
      if (0 <=? d) && (d <=? 9) then digitsToZ rest (10 * acc + d) else None
  end.

Definition secondsOfDigits (s : string) : option Z :=
  match s with
  | EmptyString => None
  | _ => digitsToZ s 0
  end.

(** An alarm as it is handed to [scheduleAlert]. *)
Definition alarm (token iso : string) (unix : Z) : Alert.t :=
  Alert.mk token "ALARM" iso unix Alert.SET Alert.NO_REASON NONE false false.

(** The clock reads [now] and the storage works. *)
Definition calm (now : Z) : Env :=
  {| getCurrentUnixTime := Some now; storageFails := λ _, false |}.

(** The clock reads [now] and the storage fails every erase. *)
Definition eraseFailing (now : Z) : Env :=
  {| getCurrentUnixTime := Some now;
     storageFails := λ call,
       match call with AlertStorage.Erase _ => true | _ => false end |}.


(** A scheduler holding one scheduled alarm "A" due at 100, persisted. *)
Definition oneScheduled : AlertScheduler :=
  exec (scheduleAlert secondsOfDigits 30 (calm 0) (alarm "A" "100" 100))
    (exec (initialize 30 (calm 0) true) (newScheduler ∅)).

(** The same scheduler after the focus went to the foreground: "A" is
    promoted into the active slot. *)
Definition oneActive : AlertScheduler :=
  exec (updateFocus FOREGROUND) oneScheduled.

(** The alarm "A" as the scheduler holds it: renderer and observer bound. *)
Definition boundA : Alert.t :=
  Alert.setObserver (Alert.setRenderer (alarm "A" "100" 100)).

(** A scheduler holding one alarm "B" that is due at once (no timer is
    armed for it), and the same after the focus went to the foreground. *)
Definition dueNow : AlertScheduler :=
  exec (scheduleAlert secondsOfDigits 30 (calm 0) (alarm "B" "0" 0))
    (exec (initialize 30 (calm 0) true) (newScheduler ∅)).

Definition dueActive : AlertScheduler :=
  exec (updateFocus FOREGROUND) dueNow.

(** Rows found at start-up, at time 1000 with a limit of 30 seconds: "old"
    is long past due, "act" was active when the device went down. *)
Definition oldAlarm : Alert.t := alarm "old" "10" 10.

Definition crashedAlarm : Alert.t :=
  Alert.mk "act" "ALARM" "2000" 2000 Alert.ACTIVE Alert.NO_REASON FOREGROUND
    false false.

Definition rowsAtBoot : gmap string Alert.t :=
  <["old" := oldAlarm]> (<["act" := crashedAlarm]> ∅).

(** A Stopped event for a token "Z". *)
Definition stoppedZ : Notification :=
  {| alertToken := "Z"; alertType := "ALARM";
     alertState := AlertObserverInterface.STOPPED; alertReason := "" |}.


(** A run of events in one environment, from left to right. *)
Fixpoint runEvents (convert : string → option Z) (limit : Z) (env : Env)
    (events : list Event) (s : AlertScheduler) : option AlertScheduler :=
  match events with
  | [] => Some s
  | e :: rest =>
      match step convert limit env e s with
      | Some s' => runEvents convert limit env rest s'
      | None => None
      end
  end.

(** A run that leaves two alarms with the token "B" in the scheduled set:
    "B" becomes active; [clearData] empties the set and the database and
    leaves "B" in the active slot; "B" is scheduled again, for 100; the
    active "B" is snoozed to 200 and its Snoozed event puts it back into the
    set. *)
Definition snoozedB : Notification :=
  {| alertToken := "B"; alertType := "ALARM";
     alertState := AlertObserverInterface.SNOOZED; alertReason := "" |}.

Definition runToTwiceB : list Event :=
  [ Initialize true;
    ScheduleAlert (alarm "B" "0" 0);
    UpdateFocus FOREGROUND;
    ClearData Alert.LOG_OUT;
    ScheduleAlert (alarm "B" "100" 100);
    SnoozeAlert "B" "200";
    OnAlertStateChange snoozedB;
    ExecutorRun;
    ExecutorRun ].

Definition twiceB : AlertScheduler :=
  default (newScheduler ∅)
    (runEvents secondsOfDigits 30 (calm 0) runToTwiceB (newScheduler ∅)).


(** ** The context snapshot

    [AlertScheduler::getContextInfo] collects what [Alert::getContextInfo]
    returns for each alert; the alerts' own function is a parameter. *)

Section ContextInfo.

Variable ContextInfo : Type.
Variable alertContextInfo : Alert.t → ContextInfo.

(** [AlertScheduler::AlertsContextInfo] *)
Record AlertsContextInfo := {
  scheduledAlerts : list ContextInfo;
  activeAlerts : list ContextInfo
}.

(** [AlertScheduler::getContextInfo] *)
Definition getContextInfo : M AlertsContextInfo :=
  scheduled ← get m_scheduledAlerts;
  let alertContexts :=
    {| scheduledAlerts := alertContextInfo <$> scheduled;
       activeAlerts := [] |} in
  active ← get m_activeAlert;
  match active with
  | Some a =>
      ret {| scheduledAlerts :=
               scheduledAlerts alertContexts ++ [alertContextInfo a];
             activeAlerts :=
               activeAlerts alertContexts ++ [alertContextInfo a] |}
  | None => ret alertContexts
  end.

End ContextInfo.

Arguments scheduledAlerts {ContextInfo} _.
Arguments activeAlerts {ContextInfo} _.

(** ** More vocabulary and invariants *)

(** The FocusEntered notification of [updateFocus] for the active alert. *)
Definition focusEnteredFor (focus : FocusState) (a : Alert.t) : list Task :=
  match focus with
  | FOREGROUND =>
      [ExecuteNotifyObserver
         {| alertToken := Alert.getToken a; alertType := Alert.getTypeName a;
            alertState := AlertObserverInterface.FOCUS_ENTERED_FOREGROUND;
            alertReason := "" |}]
  | BACKGROUND =>
      [ExecuteNotifyObserver
         {| alertToken := Alert.getToken a; alertType := Alert.getTypeName a;
            alertState := AlertObserverInterface.FOCUS_ENTERED_BACKGROUND;
            alertReason := "" |}]
  | NONE => []
  end.

(** An alert with its renderer and its observer bound. *)
Definition bound (a : Alert.t) : Prop :=
  Alert.hasRenderer a = true ∧ Alert.hasObserver a = true.

(** Every alert in memory is bound. *)
Definition allBound (s : AlertScheduler) : Prop :=
  (∀ a, a ∈ m_scheduledAlerts s → bound a)
  ∧ (∀ a, m_activeAlert s = Some a → bound a).

(** An armed timer waits a positive number of seconds and, while no alert is
    active, is bound to the token and type of the first scheduled alert. *)
Definition timerTargetsFirst (s : AlertScheduler) : Prop :=
  ∀ job, m_scheduledAlertTimer s = Some job →
    0 < secondsToWait job
    ∧ (m_activeAlert s = None →
       ∃ first rest,
         m_scheduledAlerts s = first :: rest
         ∧ readyToken job = Alert.getToken first
         ∧ readyType job = Alert.getTypeName first).

(** The tasks [q] are still pending, at the head of the queue and in this
    order, and the observer has received [o] and nothing else. *)
Definition queueKept (q : list Task) (o : list Notification)
    (s : AlertScheduler) : Prop :=
  q `prefix_of` m_executor s ∧ observed s = o.

(** An observer is set. *)
Definition observerSet (s : AlertScheduler) : Prop := m_observer s = true.

(** What a task delivers to the observer when the executor runs it. *)
Definition delivered (task : Task) : list Notification :=
  match task with
  | ExecuteNotifyObserver n => [n]
  | ExecuteOnAlertStateChange _ => []
  end.

(** The clock cannot be read; the storage works. *)
Definition noClock : Env :=
  {| getCurrentUnixTime := None; storageFails := λ _, false |}.

(** [shutdown] has not been called. *)
Definition notShutdown (s : AlertScheduler) : Prop := isShutdown s = false.

(** * Properties *)

(** ** The order of the scheduled set *)

Lemma string_ltb_lt (a b : string) : String.ltb a b = true ↔ String_as_OT.lt a b.
Proof.
  unfold String.ltb. rewrite <- String_as_OT.cmp_lt. unfold String_as_OT.cmp.
  destruct (String.compare a b); split; intros; congruence.
Qed.

Lemma string_ltb_irrefl (a : string) : String.ltb a a = false.
Proof.
  destruct (String.ltb a a) eqn:E; [|done].
  apply string_ltb_lt in E. by apply String_as_OT.lt_not_eq in E.
Qed.

Lemma string_ltb_trans (a b c : string) :
  String.ltb a b = true → String.ltb b c = true → String.ltb a c = true.
Proof.
  rewrite !string_ltb_lt. apply String_as_OT.lt_trans.
Qed.

Lemma string_ltb_asym (a b : string) :
  String.ltb a b = true → String.ltb b a = false.
Proof.
  intros H. destruct (String.ltb b a) eqn:E; [|done].
  pose proof (string_ltb_trans _ _ _ H E) as Hc.
  by rewrite string_ltb_irrefl in Hc.
Qed.

Lemma string_ltb_total (a b : string) :
  String.ltb a b = false → String.ltb b a = false → a = b.
Proof.
  unfold String.ltb. rewrite (String.compare_antisym a b).
  destruct (String.compare b a) eqn:E; simpl; intros H1 H2; try congruence.
  symmetry. by apply String.compare_eq_iff.
Qed.

Lemma lessThan_spec (a b : Alert.t) :
  Alert.lessThan a b = true ↔
  Alert.getScheduledTime_Unix a < Alert.getScheduledTime_Unix b
  ∨ (Alert.getScheduledTime_Unix a = Alert.getScheduledTime_Unix b
     ∧ String.ltb (Alert.getToken a) (Alert.getToken b) = true).
Proof.
  unfold Alert.lessThan.
  rewrite orb_true_iff, andb_true_iff, Z.ltb_lt, Z.eqb_eq. tauto.
Qed.

Lemma lessThan_irrefl (a : Alert.t) : Alert.lessThan a a = false.
Proof.
  destruct (Alert.lessThan a a) eqn:E; [|done].
  apply lessThan_spec in E as [E|[_ E]]; [lia|].
  by rewrite string_ltb_irrefl in E.
Qed.

Lemma lessThan_trans (a b c : Alert.t) :
  Alert.lessThan a b = true → Alert.lessThan b c = true →
  Alert.lessThan a c = true.
Proof.
  rewrite !lessThan_spec. intros [H1|[H1 T1]] [H2|[H2 T2]]; try (left; lia).
  right. split; [lia|]. eapply string_ltb_trans; eauto.
Qed.


(** Equivalent keys: same scheduled time and same token. *)
Lemma equiv_spec (a b : Alert.t) :
  AlertSet.equiv a b = true ↔
  Alert.getScheduledTime_Unix a = Alert.getScheduledTime_Unix b
  ∧ Alert.getToken a = Alert.getToken b.
Proof.
  unfold AlertSet.equiv. rewrite andb_true_iff, !negb_true_iff. split.
  - intros [H1 H2]. unfold Alert.lessThan in *.
    apply orb_false_iff in H1 as [H1 H1'], H2 as [H2 H2'].
    apply Z.ltb_ge in H1, H2.
    assert (Alert.getScheduledTime_Unix a = Alert.getScheduledTime_Unix b) as E
      by lia.
    split; [done|].
    rewrite E, Z.eqb_refl in H1'. rewrite E, Z.eqb_refl in H2'. simpl in *.
    by apply string_ltb_total.
  - intros [E T]. unfold Alert.lessThan. rewrite E, T, !Z.ltb_irrefl.
    by rewrite string_ltb_irrefl, !andb_false_r.
Qed.

(** ** Running the monad *)


Lemma withTimer_same (s : AlertScheduler) :
  withTimer (m_scheduledAlertTimer s) s = s.
Proof. by destruct s. Qed.

(** ** Timer arming *)





(** ** Shapes of the helper functions *)



(** [setTimerForNextAlertLocked] changes the timer and may enqueue one Ready,
    for the head of the scheduled set; nothing else. *)
Lemma setTimer_shape (env : Env) (s : AlertScheduler) :
  ∃ t q,
    exec (setTimerForNextAlertLocked env) s
    = withExecutor (m_executor s ++ q) (withTimer t s)
    ∧ (is_Some (m_activeAlert s) → t = None)
    ∧ (q = [] ∨ ∃ a rest, m_scheduledAlerts s = a :: rest ∧ q = [readyFor a]).
Proof.
  unfold setTimerForNextAlertLocked. unfold_monad.
  destruct s as [o db f act sch tm q obs calls down]; simpl.
  assert (∀ tm', mkScheduler o db f act sch tm' (q ++ []) obs calls down
                 = mkScheduler o db f act sch tm' q obs calls down) as Hnil
    by (intros; by rewrite app_nil_r).
  assert (∀ P : Prop, is_Some (@None Alert.t) → P) as Hno
    by (by intros P [? ?]).
  destruct tm as [job|]; simpl;
    (destruct act as [a|]; [|destruct sch as [|alert rest];
      [|destruct (getCurrentUnixTime env) as [now|];
        [simpl; match goal with
         | |- context [if ?c =? 0 then _ else _] => destruct (c =? 0)
         end|]]]);
    simpl;
    first
      [ by (exists None, []; unfold withExecutor, withTimer; simpl;
            rewrite Hnil; simpl; split_and!; eauto)
      | by (exists None, [readyFor alert]; unfold withExecutor, withTimer;
            simpl; split_and!; eauto)
      | by (eexists (Some _), []; unfold withExecutor, withTimer; simpl;
            rewrite Hnil; simpl; split_and!; eauto) ].
Qed.

Lemma find_token_Some (tok : string) (l : list Alert.t) (a : Alert.t) :
  find (λ alert, String.eqb tok (Alert.getToken alert)) l = Some a →
  a ∈ l ∧ Alert.getToken a = tok.
Proof.
  induction l as [|b l IH]; simpl; [done|].
  destruct (String.eqb_spec tok (Alert.getToken b)) as [->|Hne].
  - intros [= ->]. split; [left | done].
  - intros H. destruct (IH H). split; [by right | done].
Qed.

Lemma find_token_None (tok : string) (l : list Alert.t) :
  find (λ alert, String.eqb tok (Alert.getToken alert)) l = None ↔
  tok ∉ AlertSet.tokens l.
Proof.
  unfold AlertSet.tokens. induction l as [|b l IH]; simpl.
  - split; [intros _; apply not_elem_of_nil | done].
  - rewrite not_elem_of_cons.
    destruct (String.eqb_spec tok (Alert.getToken b)) as [->|Hne];
      [split; [done | tauto] | rewrite IH; tauto].
Qed.

Lemma equiv_refl (a : Alert.t) : AlertSet.equiv a a = true.
Proof. by apply equiv_spec. Qed.

Lemma erase_elem (a b : Alert.t) (l : list Alert.t) :
  b ∈ AlertSet.erase a l ↔ b ∈ l ∧ AlertSet.equiv a b = false.
Proof.
  induction l as [|c l IH]; simpl.
  - split; [by intros ?%elem_of_nil | by intros [?%elem_of_nil _]].
  - destruct (AlertSet.equiv a c) eqn:E.
    + rewrite IH, elem_of_cons. split; [tauto|].
      intros [[->|?] ?]; [congruence | done].
    + rewrite !elem_of_cons, IH. split; [|tauto].
      intros [->|[? ?]]; tauto.
Qed.

Lemma erase_not_elem (a : Alert.t) (l : list Alert.t) : a ∉ AlertSet.erase a l.
Proof. rewrite erase_elem, equiv_refl. by intros [_ ?]. Qed.

Lemma erase_subseteq (a : Alert.t) (l : list Alert.t) : AlertSet.erase a l ⊆ l.
Proof. intros b Hb. by apply erase_elem in Hb as [? _]. Qed.

Lemma insert_keeps (a c : Alert.t) (l : list Alert.t) :
  c ∈ l → c ∈ AlertSet.insert a l.
Proof.
  induction l as [|b l IH]; simpl; [by intros ?%elem_of_nil|].
  intros Hc. destruct (Alert.lessThan a b); [by right|].
  destruct (Alert.lessThan b a); [|done].
  apply elem_of_cons in Hc as [->|Hc]; [left | right; auto].
Qed.

Lemma insert_elem_inv (a c : Alert.t) (l : list Alert.t) :
  c ∈ AlertSet.insert a l → c = a ∨ c ∈ l.
Proof.
  induction l as [|b l IH]; simpl.
  - intros ?%list_elem_of_singleton. by left.
  - destruct (Alert.lessThan a b).
    { intros [->|?]%elem_of_cons; [by left | by right]. }
    destruct (Alert.lessThan b a); [|by right].
    intros [->|H]%elem_of_cons; [right; left|].
    destruct (IH H); [by left | right; by right].
Qed.

Lemma insert_new (a : Alert.t) (l : list Alert.t) :
  (∀ c, c ∈ l → AlertSet.equiv a c = false) → a ∈ AlertSet.insert a l.
Proof.
  induction l as [|b l IH]; simpl; intros Hne; [left|].
  destruct (Alert.lessThan a b) eqn:E1; [left|].
  destruct (Alert.lessThan b a) eqn:E2.
  - right. apply IH. intros c Hc. apply Hne. by right.
  - specialize (Hne b ltac:(left)). unfold AlertSet.equiv in Hne.
    by rewrite E1, E2 in Hne.
Qed.

Lemma tokens_elem (tok : string) (l : list Alert.t) :
  tok ∈ AlertSet.tokens l ↔ ∃ a, a ∈ l ∧ Alert.getToken a = tok.
Proof.
  unfold AlertSet.tokens. rewrite list_elem_of_fmap.
  split; intros (a & H1 & H2); exists a; by split.
Qed.

Lemma NoDup_tokens_inj (l : list Alert.t) (a b : Alert.t) :
  NoDup (AlertSet.tokens l) → a ∈ l → b ∈ l →
  Alert.getToken a = Alert.getToken b → a = b.
Proof.
  unfold AlertSet.tokens. induction l as [|c l IH]; simpl.
  - by intros _ ?%elem_of_nil.
  - intros [Hc Hnd]%NoDup_cons [->|Ha]%elem_of_cons [->|Hb]%elem_of_cons E;
      [done| | |by apply IH].
    + exfalso. apply Hc. rewrite E. by apply list_elem_of_fmap_2.
    + exfalso. apply Hc. rewrite <- E. by apply list_elem_of_fmap_2.
Qed.

(** After erasing a member of a set without duplicate tokens, its token is
    gone from the set. *)
Lemma erase_token_gone (a : Alert.t) (l : list Alert.t) :
  NoDup (AlertSet.tokens l) → a ∈ l →
  Alert.getToken a ∉ AlertSet.tokens (AlertSet.erase a l).
Proof.
  intros Hnd Ha [b [Hb E]]%tokens_elem. apply erase_elem in Hb as [Hb Hne].
  assert (b = a) as -> by (eapply NoDup_tokens_inj; eauto).
  by rewrite equiv_refl in Hne.
Qed.

Lemma erase_tokens_sublist (a : Alert.t) (l : list Alert.t) :
  AlertSet.tokens (AlertSet.erase a l) `sublist_of` AlertSet.tokens l.
Proof.
  unfold AlertSet.tokens. induction l as [|b l IH]; simpl; [done|].
  destruct (AlertSet.equiv a b); simpl;
    [by apply sublist_cons | by apply sublist_skip].
Qed.

Lemma erase_NoDup (a : Alert.t) (l : list Alert.t) :
  NoDup (AlertSet.tokens l) → NoDup (AlertSet.tokens (AlertSet.erase a l)).
Proof. intros H. eapply sublist_NoDup; [exact H | apply erase_tokens_sublist]. Qed.

Lemma equiv_token (a b : Alert.t) :
  AlertSet.equiv a b = true → Alert.getToken a = Alert.getToken b.
Proof. by intros [_ ?]%equiv_spec. Qed.

Lemma insert_fresh_token (a : Alert.t) (l : list Alert.t) :
  Alert.getToken a ∉ AlertSet.tokens l → a ∈ AlertSet.insert a l.
Proof.
  intros Hfresh. apply insert_new. intros c Hc.
  destruct (AlertSet.equiv a c) eqn:E; [|done].
  exfalso. apply Hfresh, tokens_elem. exists c. split; [done|].
  symmetry. by apply equiv_token.
Qed.

(** ** The shapes of [eraseAlert] and [deleteAlert] *)

Lemma withStorage_same (s : AlertScheduler) : withStorage (m_alertStorage s) s = s.
Proof. by destruct s. Qed.

Lemma bind_exec {A B} (c : M A) (k : A → M B) (s : AlertScheduler) :
  bind c k s = k (c s).1 (c s).2.
Proof. unfold bind. by destruct (c s). Qed.

Lemma unit_M_eta (c : M unit) (s : AlertScheduler) : c s = (tt, exec c s).
Proof. unfold exec. by destruct (c s) as [[] ?]. Qed.

Lemma eraseAlert_Some (env : Env) (a : Alert.t) (s : AlertScheduler) :
  exec (eraseAlert env (Some a)) s
  = if storageFails env (AlertStorage.Erase (Alert.getToken a)) then s
    else withExecutor (m_executor s ++ [deletedFor a])
           (withStorage (delete (Alert.getToken a) (m_alertStorage s)) s).
Proof.
  unfold eraseAlert, AlertStorage.erase. unfold_monad.
  destruct (storageFails env _); simpl; [apply withStorage_same | done].
Qed.

Lemma deleteAlert_active (env : Env) (tok : string) (s : AlertScheduler) :
  activeHasToken (m_activeAlert s) tok = true →
  deleteAlert env tok s
  = (true, exec (deactivateActiveAlertHelperLocked Alert.AVS_STOP) s).
Proof.
  intros H. unfold deleteAlert. rewrite bind_exec. unfold get at 1; simpl.
  rewrite H, bind_exec. unfold ret. f_equal.
Qed.

Lemma deleteAlert_missing (env : Env) (tok : string) (s : AlertScheduler) :
  activeHasToken (m_activeAlert s) tok = false →
  find (λ alert, String.eqb tok (Alert.getToken alert)) (m_scheduledAlerts s)
  = None →
  deleteAlert env tok s = (true, s).
Proof.
  intros H1 H2. unfold deleteAlert, getAlertLocked. rewrite !bind_exec.
  unfold get at 1; simpl. rewrite H1. rewrite !bind_exec. unfold get, ret; simpl.
  by rewrite H2.
Qed.

Lemma deleteAlert_scheduled (env : Env) (tok : string) (s : AlertScheduler)
    (a : Alert.t) :
  activeHasToken (m_activeAlert s) tok = false →
  find (λ alert, String.eqb tok (Alert.getToken alert)) (m_scheduledAlerts s)
  = Some a →
  deleteAlert env tok s
  = (true,
     exec (setTimerForNextAlertLocked env)
       (exec (eraseScheduled a) (exec (eraseAlert env (Some a)) s))).
Proof.
  intros H1 H2. unfold deleteAlert, getAlertLocked. rewrite !bind_exec.
  unfold get at 1; simpl. rewrite H1. rewrite !bind_exec. unfold get at 1, ret at 1; simpl.
  rewrite H2. rewrite !bind_exec. unfold ret. f_equal.
Qed.

Lemma deleteAlert_result (env : Env) (tok : string) (s : AlertScheduler) :
  result (deleteAlert env tok) s = true.
Proof.
  unfold result.
  destruct (activeHasToken (m_activeAlert s) tok) eqn:H1.
  { by rewrite deleteAlert_active. }
  destruct (find (λ alert, String.eqb tok (Alert.getToken alert))
              (m_scheduledAlerts s)) as [a|] eqn:H2.
  - by rewrite (deleteAlert_scheduled _ _ _ a).
  - by rewrite deleteAlert_missing.
Qed.

(** C9: [deleteAlert] returns success for every token and every state.  When
    the token matches a scheduled alert (and not the active one) and the
    storage fails to erase the row, the alert still leaves the scheduled
    set, the row stays, and no Deleted notification is enqueued. *)
Theorem C9_deleteAlert_always_succeeds
    (env : Env) (tok : string) (s : AlertScheduler) :
  result (deleteAlert env tok) s = true
  ∧ ∀ a,
      activeHasToken (m_activeAlert s) tok = false →
      find (λ alert, String.eqb tok (Alert.getToken alert))
        (m_scheduledAlerts s) = Some a →
      storageFails env (AlertStorage.Erase (Alert.getToken a)) = true →
      m_scheduledAlerts (exec (deleteAlert env tok) s)
      = AlertSet.erase a (m_scheduledAlerts s)
      ∧ (a ∉ m_scheduledAlerts (exec (deleteAlert env tok) s))
      ∧ m_alertStorage (exec (deleteAlert env tok) s) = m_alertStorage s
      ∧ ∀ n, ExecuteNotifyObserver n ∈ m_executor (exec (deleteAlert env tok) s) →
             alertState n = AlertObserverInterface.DELETED →
             ExecuteNotifyObserver n ∈ m_executor s.
Proof.
  split; [apply deleteAlert_result|].
  intros a H1 H2 Hfail. unfold exec at 1 2 3 4.
  rewrite (deleteAlert_scheduled _ _ _ a H1 H2).
  unfold snd. rewrite eraseAlert_Some, Hfail.
  destruct (setTimer_shape env (exec (eraseScheduled a) s))
    as (t & q & -> & _ & Hq).
  unfold exec, eraseScheduled, modify; simpl.
  split_and!; [done | apply erase_not_elem | done |].
  intros n [Hn|Hn]%elem_of_app Hd; [done|].
  destruct Hq as [->|(b & rest & _ & ->)]; [by apply elem_of_nil in Hn|].
  apply list_elem_of_singleton in Hn. unfold readyFor in Hn.
  injection Hn as ->. done.
Qed.

Lemma deactivate_twice (r : Alert.StopReason) (a : Alert.t) :
  Alert.deactivate r (Alert.deactivate r a) = Alert.deactivate r a.
Proof. done. Qed.

(** C7: on a scheduled set without duplicate tokens, a second [deleteAlert]
    of the same token returns what the first returned and leaves the active
    slot, the scheduled set, the focus, the timer, the storage rows and the
    pending notifications as the first left them (the record of calls made
    on alerts aside: deleting the active alert's token twice asks it to
    deactivate twice).  A token that matches neither the active nor a
    scheduled alert returns success and changes nothing. *)
Theorem C7_deleteAlert_idempotent
    (env1 env2 : Env) (tok : string) (s : AlertScheduler) :
  NoDup (AlertSet.tokens (m_scheduledAlerts s)) →
  result (deleteAlert env2 tok) (exec (deleteAlert env1 tok) s)
  = result (deleteAlert env1 tok) s
  ∧ withAlertCalls [] (exec (deleteAlert env2 tok) (exec (deleteAlert env1 tok) s))
    = withAlertCalls [] (exec (deleteAlert env1 tok) s)
  ∧ (activeHasToken (m_activeAlert s) tok = false →
     tok ∉ AlertSet.tokens (m_scheduledAlerts s) →
     deleteAlert env1 tok s = (true, s)).
Proof.
  intros Hnd. split; [by rewrite !deleteAlert_result|]. split.
  2:{ intros H1 H2. apply deleteAlert_missing; [done|].
      by apply find_token_None. }
  destruct (activeHasToken (m_activeAlert s) tok) eqn:H1.
  - unfold exec at 2 3. rewrite (deleteAlert_active _ _ _ H1). unfold snd.
    destruct s as [o db f [a|] sch tm q obs calls down]; [|done].
    unfold exec. rewrite deleteAlert_active; [done|].
    by unfold deactivateActiveAlertHelperLocked; unfold_monad.
  - destruct (find (λ alert, String.eqb tok (Alert.getToken alert))
                (m_scheduledAlerts s)) as [a|] eqn:H2.
    2:{ unfold exec. by rewrite !(deleteAlert_missing _ _ _ H1 H2). }
    f_equal. unfold exec at 2 3.
    rewrite (deleteAlert_scheduled _ _ _ a H1 H2). unfold snd.
    destruct (setTimer_shape env1
                (exec (eraseScheduled a) (exec (eraseAlert env1 (Some a)) s)))
      as (t & q & -> & _ & _).
    apply find_token_Some in H2 as [Ha <-].
    unfold exec at 1. rewrite deleteAlert_missing; [done| |].
    + rewrite eraseAlert_Some.
      by destruct (storageFails env1 _); unfold_monad.
    + apply find_token_None. rewrite eraseAlert_Some.
      destruct (storageFails env1 _); unfold_monad; simpl;
        by apply erase_token_gone.
Qed.

(** ** The Stopped and Completed events *)

Lemma executeOnAlertStateChange_finish (env : Env) (n : Notification)
    (s : AlertScheduler) :
  alertState n = AlertObserverInterface.STOPPED
  ∨ alertState n = AlertObserverInterface.COMPLETED →
  executeOnAlertStateChange env n s = Some (exec (finishActiveAlert env n) s).
Proof.
  intros Hst. unfold executeOnAlertStateChange, finishActiveAlert.
  destruct Hst as [E | E]; rewrite E; reflexivity.
Qed.


(** ** Shapes of the event handlers *)

Lemma notification_eta (n : Notification) :
  {| alertToken := alertToken n; alertType := alertType n;
     alertState := alertState n; alertReason := alertReason n |} = n.
Proof. by destruct n. Qed.

Lemma notifyObserver_shape (n : Notification) (s : AlertScheduler) :
  exec (notifyObserver (alertToken n) (alertType n) (alertState n)
          (alertReason n)) s
  = withExecutor (m_executor s ++ [ExecuteNotifyObserver n]) s.
Proof. unfold notifyObserver. unfold_monad. simpl. by rewrite notification_eta. Qed.

Lemma eraseAlert_storage (env : Env) (a : Alert.t) (s : AlertScheduler) :
  m_alertStorage (exec (eraseAlert env (Some a)) s)
  = (AlertStorage.erase (storageFails env) a (m_alertStorage s)).2.
Proof.
  rewrite eraseAlert_Some. unfold AlertStorage.erase.
  by destruct (storageFails env _).
Qed.


(** The Error branch of [executeOnAlertStateChange]. *)
Lemma error_shape (env : Env) (n : Notification) (s : AlertScheduler) :
  alertState n = AlertObserverInterface.ERROR →
  executeOnAlertStateChange env n s
  = Some
      (let s1 :=
         if activeHasToken (m_activeAlert s) (alertToken n)
         then exec (setTimerForNextAlertLocked env)
                (withActive None (exec (eraseAlert env (m_activeAlert s)) s))
         else match find (λ alert, String.eqb (alertToken n)
                                     (Alert.getToken alert))
                      (m_scheduledAlerts s) with
              | Some a =>
                  exec (setTimerForNextAlertLocked env)
                    (exec (eraseScheduled a)
                       (exec (eraseAlert env (Some a)) s))
              | None => s
              end in
       withExecutor (m_executor s1 ++ [ExecuteNotifyObserver n]) s1).
Proof.
  intros Hst. unfold executeOnAlertStateChange. rewrite Hst. f_equal.
  pose proof (notifyObserver_shape n) as Hn. rewrite Hst in Hn.
  unfold exec in *. rewrite !bind_exec. cbn [get fst snd]. rewrite Hn.
  destruct (activeHasToken _ _).
  - by rewrite !bind_exec.
  - unfold getAlertLocked. rewrite !bind_exec. cbn [get ret fst snd].
    destruct (find _ _) as [a|]; [|done]. by rewrite !bind_exec.
Qed.

Lemma finish_shape (env : Env) (n : Notification) (s : AlertScheduler) :
  exec (finishActiveAlert env n) s
  = exec (setTimerForNextAlertLocked env)
      (withActive None
         (exec (eraseAlert env (m_activeAlert s))
            (withExecutor (m_executor s ++ [ExecuteNotifyObserver n]) s))).
Proof.
  unfold finishActiveAlert, exec. rewrite !bind_exec.
  pose proof (notifyObserver_shape n s) as Hn. unfold exec in Hn. rewrite Hn.
  by cbn [get modify fst snd withExecutor m_activeAlert].
Qed.


(** ** [updateAlert] and [scheduleAlert] *)

Lemma guard_shape (env : Env) (a : Alert.t) (s : AlertScheduler) :
  exec (updateAlertGuard env a) s
  = if m_activeAlert s is Some _
    then withScheduled (AlertSet.insert a (m_scheduledAlerts s)) s
    else exec (setTimerForNextAlertLocked env)
           (withScheduled (AlertSet.insert a (m_scheduledAlerts s)) s).
Proof.
  unfold updateAlertGuard, exec. rewrite !bind_exec.
  unfold insertScheduled, modify, get. simpl.
  by destruct (m_activeAlert s).
Qed.

Lemma guard_scheduled (env : Env) (a : Alert.t) (s : AlertScheduler) :
  m_scheduledAlerts (exec (updateAlertGuard env a) s)
  = AlertSet.insert a (m_scheduledAlerts s).
Proof.
  rewrite guard_shape. destruct (m_activeAlert s); [done|].
  by destruct (setTimer_shape env
                 (withScheduled (AlertSet.insert a (m_scheduledAlerts s)) s))
    as (t & q & -> & _).
Qed.

Lemma guard_storage (env : Env) (a : Alert.t) (s : AlertScheduler) :
  m_alertStorage (exec (updateAlertGuard env a) s) = m_alertStorage s.
Proof.
  rewrite guard_shape. destruct (m_activeAlert s); [done|].
  by destruct (setTimer_shape env
                 (withScheduled (AlertSet.insert a (m_scheduledAlerts s)) s))
    as (t & q & -> & _).
Qed.


(** The three exits of [updateAlert]. *)
Lemma updateAlert_shape (convert : string → option Z) (env : Env)
    (alert : Alert.t) (newTime : string) (s : AlertScheduler) :
  updateAlert convert env alert newTime s
  = match convert newTime with
    | None =>
        (false, exec (updateAlertGuard env alert) (exec (eraseScheduled alert) s))
    | Some unix =>
        let alert1 := Alert.withTime newTime unix alert in
        if storageFails env (AlertStorage.Modify (Alert.getToken alert))
        then
          (false,
           exec (updateAlertGuard env
                   (Alert.updateScheduledTime convert
                      (Alert.getScheduledTime_ISO_8601 alert) alert1).2)
             (exec (eraseScheduled alert) s))
        else
          (true,
           exec (updateAlertGuard env alert1)
             (withStorage
                (alter (λ _, alert1) (Alert.getToken alert) (m_alertStorage s))
                (exec (eraseScheduled alert) s)))
    end.
Proof.
  unfold updateAlert, Alert.updateScheduledTime at 1.
  rewrite bind_exec. unfold eraseScheduled at 1 2, modify at 1 2. simpl.
  destruct (convert newTime) as [unix|]; simpl.
  - rewrite bind_exec. unfold callStorage at 1 2, AlertStorage.modify. simpl.
    destruct (storageFails env _); simpl.
    + rewrite bind_exec. unfold ret. f_equal.
    + rewrite bind_exec. unfold ret. f_equal.
  - rewrite bind_exec. unfold ret. f_equal.
Qed.




Lemma updateAlert_dom (convert : string → option Z) (env : Env)
    (alert : Alert.t) (newTime : string) (s : AlertScheduler) :
  dom (m_alertStorage (exec (updateAlert convert env alert newTime) s))
  = dom (m_alertStorage s).
Proof.
  unfold exec at 1. rewrite updateAlert_shape.
  destruct (convert newTime) as [unix|]; cbv zeta;
    [destruct (storageFails env _)|]; cbn [snd];
    rewrite guard_storage; [done | | done].
  cbn [m_alertStorage withStorage]. apply dom_alter_L.
Qed.

(** C5: with the clock readable, [scheduleAlert] rejects an alert whose
    scheduled time precedes now minus the past-due limit: it returns failure
    and leaves the scheduler and the storage as they were.  For an alert
    that is not past due and whose token is the token of a scheduled alert,
    it stores no new row: the call is the call of [updateAlert] on that
    scheduled alert with the new alert's scheduled time. *)
Theorem C5_scheduleAlert_rejects_and_routes
    (convert : string → option Z) (limit : Z) (env : Env) (now : Z)
    (alert : Alert.t) (s : AlertScheduler) :
  getCurrentUnixTime env = Some now →
  (Alert.getScheduledTime_Unix alert < now - limit →
   scheduleAlert convert limit env alert s = (false, s))
  ∧ (now - limit ≤ Alert.getScheduledTime_Unix alert →
     Alert.getToken alert ∈ AlertSet.tokens (m_scheduledAlerts s) →
     ∃ oldAlert,
       oldAlert ∈ m_scheduledAlerts s
       ∧ Alert.getToken oldAlert = Alert.getToken alert
       ∧ scheduleAlert convert limit env alert s
         = updateAlert convert env oldAlert
             (Alert.getScheduledTime_ISO_8601 alert) s
       ∧ dom (m_alertStorage (exec (scheduleAlert convert limit env alert) s))
         = dom (m_alertStorage s)).
Proof.
  intros Hnow. unfold scheduleAlert at 1 2, exec. rewrite Hnow.
  unfold Alert.isPastDue. split.
  - intros Hpast. by rewrite (proj2 (Z.ltb_lt _ _) Hpast).
  - intros Hdue Htok. rewrite (proj2 (Z.ltb_ge _ _) Hdue).
    unfold getAlertLocked. rewrite !bind_exec. unfold get at 1 2 3, ret at 1 2 3.
    cbn [fst snd].
    destruct (find _ (m_scheduledAlerts s)) as [old|] eqn:Hfind.
    + apply find_token_Some in Hfind as [Hin Heq].
      exists old. split_and!; [done | done | done |].
      unfold scheduleAlert. rewrite Hnow. unfold Alert.isPastDue.
      rewrite (proj2 (Z.ltb_ge _ _) Hdue).
      unfold getAlertLocked. rewrite !bind_exec. unfold get at 1, ret at 1.
      cbn [fst snd].
      destruct (find _ (m_scheduledAlerts s)) as [old'|] eqn:Hfind'.
      * apply updateAlert_dom.
      * apply find_token_None in Hfind'. done.
    + apply find_token_None in Hfind. done.
Qed.

(** ** [deleteAlerts] *)

Lemma collect_spec (s : AlertScheduler) (toks : list string) :
  collectAlertsToBeRemoved (m_activeAlert s) (m_scheduledAlerts s) toks
  = (existsb (activeHasToken (m_activeAlert s)) toks,
     omap (matchedAlert s) toks).
Proof.
  induction toks as [|tok toks IH]; simpl; [done|].
  rewrite IH. fold (omap (matchedAlert s) toks).
  assert (matchedAlert s tok
          = if activeHasToken (m_activeAlert s) tok then m_activeAlert s
            else find (λ alert, String.eqb tok (Alert.getToken alert))
                   (m_scheduledAlerts s)) as -> by done.
  destruct (activeHasToken (m_activeAlert s) tok) eqn:E; simpl.
  - destruct (m_activeAlert s); [done | discriminate].
  - by destruct (find _ _).
Qed.


Lemma forEach_erase_notify (l : list Alert.t) (s : AlertScheduler) :
  exec (forEach l (λ alert,
          eraseScheduled alert;;
          notifyObserver (Alert.getToken alert) (Alert.getTypeName alert)
            AlertObserverInterface.DELETED "")) s
  = withExecutor (m_executor s ++ (deletedFor <$> l))
      (withScheduled (eraseAll l (m_scheduledAlerts s)) s).
Proof.
  revert s. induction l as [|a l IH]; intros s.
  - simpl. unfold exec, ret, withExecutor, withScheduled. simpl.
    rewrite app_nil_r. by destruct s.
  - cbn [forEach]. unfold exec in *. rewrite bind_exec, IH.
    unfold_monad. simpl. unfold withExecutor, withScheduled. simpl.
    by rewrite <- app_assoc.
Qed.



Lemma matchedAlert_None (s : AlertScheduler) (tok : string) :
  matchedAlert s tok = None →
  activeHasToken (m_activeAlert s) tok = false
  ∧ tok ∉ AlertSet.tokens (m_scheduledAlerts s).
Proof.
  unfold matchedAlert.
  destruct (activeHasToken (m_activeAlert s) tok) eqn:E.
  - intros H. by rewrite H in E.
  - intros ?%find_token_None. done.
Qed.


Lemma deleteAlerts_shape (env : Env) (toks : list string) (s : AlertScheduler) :
  deleteAlerts env toks s
  = let '(ok, db') :=
      AlertStorage.bulkErase (storageFails env) (omap (matchedAlert s) toks)
        (m_alertStorage s) in
    if ok
    then (true, exec (setTimerForNextAlertLocked env) (afterBulkErase toks db' s))
    else (false, withStorage db' s).
Proof.
  unfold deleteAlerts. rewrite !bind_exec. unfold get at 1 2 3 4. cbn [fst snd].
  rewrite collect_spec.
  rewrite bind_exec. unfold callStorage at 1 2.
  destruct (AlertStorage.bulkErase _ _ _) as [ok db']. cbn [fst snd].
  destruct ok; cbn [negb]; [|done].
  rewrite !bind_exec. unfold ret. f_equal. unfold exec. f_equal.
  pose proof forEach_erase_notify as Hfe. unfold exec in Hfe. rewrite Hfe.
  unfold afterBulkErase.
  destruct (existsb _ toks).
  - unfold deactivateActiveAlertHelperLocked. unfold_monad.
    destruct s as [o db f [a|] sch tm q obs calls down]; simpl;
      unfold withExecutor, withScheduled; simpl; by rewrite ?app_nil_r.
  - unfold ret. destruct s; simpl. unfold withExecutor, withScheduled; simpl.
    by rewrite app_nil_r.
Qed.


(** ** [initialize] *)

Section Initialize.

Variable limit : Z.
Variable env : Env.
Variable now : Z.

Lemma initializeLoaded_shape (a : Alert.t) (s : AlertScheduler) :
  exec (initializeLoaded limit env now a) s
  = withExecutor (m_executor s ++ loadedTasks limit env now a)
      (withScheduled (loadedSet limit now (m_scheduledAlerts s) a)
         (withStorage (loadedRows limit env now (m_alertStorage s) a) s)).
Proof.
  unfold initializeLoaded, loadedTasks, loadedSet, loadedRows, recovered.
  destruct (Alert.isPastDue a now limit).
  - unfold exec. rewrite bind_exec.
    pose proof (eraseAlert_Some env a) as He. unfold exec in He. rewrite He.
    unfold AlertStorage.erase. unfold_monad.
    destruct s; destruct (storageFails env _); simpl;
      unfold withExecutor, withScheduled, withStorage; simpl;
      by rewrite <- ?app_assoc.
  - unfold AlertStorage.modify.
    destruct (decide _); unfold_monad; destruct s; simpl;
      [destruct (storageFails env _)|]; simpl;
      unfold withExecutor, withScheduled, withStorage; simpl;
      by rewrite app_nil_r.
Qed.

Lemma forEach_initializeLoaded (l : list Alert.t) (s : AlertScheduler) :
  exec (forEach l (initializeLoaded limit env now)) s
  = withExecutor (m_executor s ++ flat_map (loadedTasks limit env now) l)
      (withScheduled (foldl (loadedSet limit now) (m_scheduledAlerts s) l)
         (withStorage (foldl (loadedRows limit env now) (m_alertStorage s) l) s)).
Proof.
  revert s. induction l as [|a l IH]; intros s.
  - simpl. unfold exec, ret. destruct s; simpl.
    unfold withExecutor, withScheduled, withStorage; simpl.
    by rewrite app_nil_r.
  - cbn [forEach]. unfold exec in *. rewrite bind_exec, IH.
    pose proof (initializeLoaded_shape a s) as Ha. unfold exec in Ha.
    rewrite Ha. simpl. unfold withExecutor, withScheduled, withStorage; simpl.
    by rewrite <- app_assoc.
Qed.

Lemma initialize_shape (s : AlertScheduler) :
  getCurrentUnixTime env = Some now →
  AlertStorage.open (storageFails env) = true
  ∨ storageFails env AlertStorage.CreateDatabase = false →
  initialize limit env true s
  = (true,
     exec (setTimerForNextAlertLocked env)
       (exec (forEach
                (AlertStorage.load (storageFails env)
                   (openedRows env (m_alertStorage s)))
                (initializeLoaded limit env now))
          (withStorage (openedRows env (m_alertStorage s))
             (withObserver true s)))).
Proof.
  intros Hnow Hready. unfold initialize, openedRows. cbn [negb].
  rewrite Hnow.
  destruct (AlertStorage.open (storageFails env)) eqn:Hopen.
  - rewrite !bind_exec. unfold modify, get, ret. cbn [fst snd negb].
    rewrite !bind_exec. cbn [fst snd].
    unfold setTimerForNextAlert, exec. do 3 f_equal.
  - destruct Hready as [?|Hcreate]; [done|].
    rewrite !bind_exec.
    unfold callStorage, AlertStorage.createDatabase. rewrite Hcreate.
    unfold modify, get, ret. cbn [fst snd negb].
    rewrite !bind_exec. cbn [fst snd].
    unfold setTimerForNextAlert, exec. by do 3 f_equal.
Qed.

(** *** The three folds of the loop *)

Lemma loadedTasks_other (a b : Alert.t) :
  Alert.getToken a ≠ Alert.getToken b →
  count_occ Task_eq_dec (loadedTasks limit env now b) (pastDueFor a) = 0%nat.
Proof.
  intros Hne. unfold loadedTasks.
  destruct (Alert.isPastDue b now limit); [|done].
  rewrite count_occ_cons_neq by (unfold pastDueFor; congruence).
  destruct (storageFails env _); [done|].
  by rewrite count_occ_cons_neq by (unfold deletedFor, pastDueFor; congruence).
Qed.

Lemma loadedTasks_self (a : Alert.t) :
  Alert.isPastDue a now limit = true →
  count_occ Task_eq_dec (loadedTasks limit env now a) (pastDueFor a) = 1%nat.
Proof.
  intros Hpd. unfold loadedTasks. rewrite Hpd.
  rewrite count_occ_cons_eq by done.
  destruct (storageFails env _); [done|].
  by rewrite count_occ_cons_neq by (unfold deletedFor, pastDueFor; congruence).
Qed.

Lemma flat_map_tasks_absent (a : Alert.t) (l : list Alert.t) :
  Alert.getToken a ∉ AlertSet.tokens l →
  count_occ Task_eq_dec (flat_map (loadedTasks limit env now) l) (pastDueFor a)
  = 0%nat.
Proof.
  unfold AlertSet.tokens. induction l as [|b l IH]; simpl; [done|].
  intros [Hne Hl]%not_elem_of_cons.
  by rewrite count_occ_app, loadedTasks_other, IH.
Qed.

Lemma flat_map_tasks_once (a : Alert.t) (l : list Alert.t) :
  NoDup (AlertSet.tokens l) → a ∈ l → Alert.isPastDue a now limit = true →
  count_occ Task_eq_dec (flat_map (loadedTasks limit env now) l) (pastDueFor a)
  = 1%nat.
Proof.
  unfold AlertSet.tokens. induction l as [|b l IH]; simpl.
  - by intros _ ?%elem_of_nil.
  - intros [Hb Hnd]%NoDup_cons [->|Ha]%elem_of_cons Hpd.
    + by rewrite count_occ_app, loadedTasks_self, flat_map_tasks_absent.
    + rewrite count_occ_app, loadedTasks_other, IH; [done..|].
      intros E. apply Hb. rewrite <- E. by apply list_elem_of_fmap_2.
Qed.

Lemma loadedRows_other (db : gmap string Alert.t) (b : Alert.t) (k : string) :
  k ≠ Alert.getToken b → loadedRows limit env now db b !! k = db !! k.
Proof.
  intros Hne. unfold loadedRows, AlertStorage.erase, AlertStorage.modify.
  destruct (Alert.isPastDue b now limit).
  - destruct (storageFails env _); [done|]. simpl. by rewrite lookup_delete_ne.
  - destruct (decide _); [|done].
    destruct (storageFails env _); [done|]. simpl. by rewrite lookup_alter_ne.
Qed.

Lemma loadedRows_self (db1 db2 : gmap string Alert.t) (a : Alert.t) :
  db1 !! Alert.getToken a = db2 !! Alert.getToken a →
  loadedRows limit env now db1 a !! Alert.getToken a
  = loadedRows limit env now db2 a !! Alert.getToken a.
Proof.
  intros E. unfold loadedRows, AlertStorage.erase, AlertStorage.modify.
  destruct (Alert.isPastDue a now limit).
  - destruct (storageFails env _); [done|]. simpl. by rewrite !lookup_delete_eq.
  - destruct (decide _); [|done]. simpl.
    destruct (storageFails env _); [done|]. simpl.
    by rewrite !lookup_alter_eq, E.
Qed.

Lemma foldl_rows_absent (db : gmap string Alert.t) (l : list Alert.t) (k : string) :
  k ∉ AlertSet.tokens l → foldl (loadedRows limit env now) db l !! k = db !! k.
Proof.
  unfold AlertSet.tokens. revert db. induction l as [|b l IH]; intros db; simpl;
    [done|].
  intros [Hne Hl]%not_elem_of_cons. by rewrite IH, loadedRows_other.
Qed.

Lemma foldl_rows_member (db : gmap string Alert.t) (l : list Alert.t) (a : Alert.t) :
  NoDup (AlertSet.tokens l) → a ∈ l →
  foldl (loadedRows limit env now) db l !! Alert.getToken a
  = loadedRows limit env now db a !! Alert.getToken a.
Proof.
  unfold AlertSet.tokens. revert db. induction l as [|b l IH]; intros db; simpl.
  - by intros _ ?%elem_of_nil.
  - intros [Hb Hnd]%NoDup_cons [->|Ha]%elem_of_cons.
    + by apply foldl_rows_absent.
    + rewrite IH by done. apply loadedRows_self, loadedRows_other.
      intros E. apply Hb. rewrite <- E. by apply list_elem_of_fmap_2.
Qed.

Lemma loadedSet_keeps (sch : list Alert.t) (b c : Alert.t) :
  c ∈ sch → c ∈ loadedSet limit now sch b.
Proof.
  unfold loadedSet. destruct (Alert.isPastDue b now limit); [done|].
  apply insert_keeps.
Qed.

Lemma foldl_set_keeps (sch l : list Alert.t) (c : Alert.t) :
  c ∈ sch → c ∈ foldl (loadedSet limit now) sch l.
Proof.
  revert sch. induction l as [|b l IH]; intros sch; simpl; [done|].
  intros Hc. by apply IH, loadedSet_keeps.
Qed.

Lemma recovered_token (a : Alert.t) :
  Alert.getToken (recovered a) = Alert.getToken a.
Proof. unfold recovered. by destruct (decide _). Qed.

Lemma loadedSet_tokens (sch : list Alert.t) (b : Alert.t) (k : string) :
  k ∈ AlertSet.tokens (loadedSet limit now sch b) →
  k ∈ AlertSet.tokens sch
  ∨ (k = Alert.getToken b ∧ Alert.isPastDue b now limit = false).
Proof.
  unfold loadedSet. destruct (Alert.isPastDue b now limit); [by left|].
  intros (c & [->|Hc]%insert_elem_inv & <-)%tokens_elem.
  - right. by rewrite recovered_token.
  - left. apply tokens_elem. by exists c.
Qed.

Lemma foldl_set_tokens (sch l : list Alert.t) (k : string) :
  k ∈ AlertSet.tokens (foldl (loadedSet limit now) sch l) →
  k ∈ AlertSet.tokens sch
  ∨ ∃ b, b ∈ l ∧ k = Alert.getToken b ∧ Alert.isPastDue b now limit = false.
Proof.
  revert sch. induction l as [|b l IH]; intros sch; simpl; [by left|].
  intros [[?|[-> ?]]%loadedSet_tokens|(c & ? & ? & ?)]%IH.
  - by left.
  - right. exists b. split_and!; [left | done | done].
  - right. exists c. split_and!; [by right | done | done].
Qed.

Lemma foldl_set_member (sch l : list Alert.t) (a : Alert.t) :
  NoDup (AlertSet.tokens l) →
  (∀ k, k ∈ AlertSet.tokens l → k ∉ AlertSet.tokens sch) →
  a ∈ l → Alert.isPastDue a now limit = false →
  recovered a ∈ foldl (loadedSet limit now) sch l.
Proof.
  revert sch. induction l as [|b l IH]; intros sch; simpl.
  - by intros _ _ ?%elem_of_nil.
  - unfold AlertSet.tokens at 1 2. simpl.
    intros [Hb Hnd]%NoDup_cons Hdisj [->|Ha]%elem_of_cons Hpd.
    + apply foldl_set_keeps. unfold loadedSet. rewrite Hpd.
      apply insert_fresh_token. rewrite recovered_token. apply Hdisj. left.
    + apply IH; [done| |done|done].
      intros k Hk [?|[-> _]]%loadedSet_tokens; [|done].
      eapply Hdisj; [|done]. by right.
Qed.

End Initialize.

Lemma load_member (fails : AlertStorage.Call → bool) (db : gmap string Alert.t)
    (a : Alert.t) :
  keyedByToken db → a ∈ AlertStorage.load fails db →
  db !! Alert.getToken a = Some a.
Proof.
  unfold AlertStorage.load. intros Hkey.
  destruct (fails AlertStorage.Load); [by intros ?%elem_of_nil|].
  intros ([k a'] & -> & Hin)%list_elem_of_fmap. simpl.
  apply elem_of_map_to_list in Hin. by rewrite (Hkey _ _ Hin).
Qed.

Lemma load_NoDup (fails : AlertStorage.Call → bool) (db : gmap string Alert.t) :
  keyedByToken db → NoDup (AlertSet.tokens (AlertStorage.load fails db)).
Proof.
  unfold AlertStorage.load, AlertSet.tokens. intros Hkey.
  destruct (fails AlertStorage.Load); [constructor|].
  assert (Alert.getToken <$> (map_to_list db).*2 = (map_to_list db).*1) as ->.
  { rewrite <- list_fmap_compose. apply list_fmap_ext.
    intros i [k a] Hin%list_elem_of_lookup_2%elem_of_map_to_list.
    simpl. by apply Hkey. }
  apply NoDup_fst_map_to_list.
Qed.

Lemma openedRows_keyed (env : Env) (db : gmap string Alert.t) :
  keyedByToken db → keyedByToken (openedRows env db).
Proof.
  unfold openedRows. destruct (AlertStorage.open _); [done|].
  intros _ k a. by rewrite lookup_empty.
Qed.

(** The exits of [initialize] before its loop. *)
Lemma initialize_no_database (limit : Z) (env : Env) (s : AlertScheduler) :
  AlertStorage.open (storageFails env) = false →
  storageFails env AlertStorage.CreateDatabase = true →
  initialize limit env true s = (false, withObserver true s).
Proof.
  intros Hopen Hcreate. unfold initialize. cbn [negb]. rewrite Hopen.
  rewrite !bind_exec. unfold callStorage, AlertStorage.createDatabase.
  rewrite Hcreate. cbn [modify fst snd negb ret].
  by rewrite withStorage_same.
Qed.

Lemma initialize_no_clock (limit : Z) (env : Env) (s : AlertScheduler) :
  getCurrentUnixTime env = None →
  ∃ db, initialize limit env true s = (false, withStorage db (withObserver true s)).
Proof.
  intros Hnow. unfold initialize. cbn [negb]. rewrite Hnow.
  rewrite !bind_exec. unfold callStorage, AlertStorage.createDatabase.
  destruct (AlertStorage.open (storageFails env)).
  - exists (m_alertStorage s). cbn [modify fst snd negb ret]. by destruct s.
  - destruct (storageFails env AlertStorage.CreateDatabase);
      cbn [modify fst snd negb ret]; eauto.
Qed.

(** C6: [initialize] with an observer, a readable clock and a storage that
    opens (or is created), on a scheduler with an empty scheduled set and
    rows keyed by token.  For every loaded alert: when it is past due, one
    PastDue notification for it is enqueued (exactly one), its row is erased
    (it is gone when the storage carries out the erase) and its token does
    not enter the scheduled set; otherwise the alert is in the scheduled set
    with renderer and observer bound, and when its persisted state was
    Active that alert has state Set and was written back (the row holds the
    reset alert when the storage carries out the modify). *)
Theorem C6_initialize_loaded (limit : Z) (env : Env) (now : Z)
    (s : AlertScheduler) (a : Alert.t) :
  getCurrentUnixTime env = Some now →
  AlertStorage.open (storageFails env) = true
  ∨ storageFails env AlertStorage.CreateDatabase = false →
  keyedByToken (m_alertStorage s) →
  m_scheduledAlerts s = [] →
  a ∈ AlertStorage.load (storageFails env) (openedRows env (m_alertStorage s)) →
  result (initialize limit env true) s = true
  ∧ (Alert.isPastDue a now limit = true →
     count_occ Task_eq_dec (m_executor (exec (initialize limit env true) s))
       (pastDueFor a)
     = S (count_occ Task_eq_dec (m_executor s) (pastDueFor a))
     ∧ (storageFails env (AlertStorage.Erase (Alert.getToken a)) = false →
        m_alertStorage (exec (initialize limit env true) s)
          !! Alert.getToken a = None)
     ∧ Alert.getToken a
       ∉ AlertSet.tokens (m_scheduledAlerts (exec (initialize limit env true) s)))
  ∧ (Alert.isPastDue a now limit = false →
     recovered a ∈ m_scheduledAlerts (exec (initialize limit env true) s)
     ∧ Alert.hasRenderer (recovered a) = true
     ∧ Alert.hasObserver (recovered a) = true
     ∧ (Alert.getState a = Alert.ACTIVE →
        Alert.getState (recovered a) = Alert.SET
        ∧ (storageFails env (AlertStorage.Modify (Alert.getToken a)) = false →
           m_alertStorage (exec (initialize limit env true) s)
             !! Alert.getToken a = Some (Alert.reset a)))).
Proof.
  intros Hnow Hready Hkey Hempty Hin.
  apply (openedRows_keyed env) in Hkey.
  pose proof (load_NoDup (storageFails env) _ Hkey) as Hnd.
  pose proof (load_member _ _ _ Hkey Hin) as Hrow.
  unfold result, exec at 1 2 3 4 5.
  rewrite (initialize_shape limit env now s Hnow Hready). cbn [fst snd].
  rewrite forEach_initializeLoaded.
  set (loaded := AlertStorage.load (storageFails env)
                   (openedRows env (m_alertStorage s))) in *.
  set (db0 := openedRows env (m_alertStorage s)) in *.
  match goal with
  | |- context [exec (setTimerForNextAlertLocked env) ?mid] =>
      destruct (setTimer_shape env mid) as (t & q & -> & _ & Hq)
  end.
  cbn [m_executor m_alertStorage m_scheduledAlerts withExecutor withTimer
       withScheduled withStorage withObserver].
  rewrite Hempty.
  split; [done|]. split.
  - intros Hpd. split_and!.
    + rewrite !count_occ_app, (flat_map_tasks_once limit env now a loaded)
        by done.
      assert (count_occ Task_eq_dec q (pastDueFor a) = 0%nat) as ->; [|lia].
      destruct Hq as [->|(b & rest & _ & ->)]; [done|].
      by rewrite count_occ_cons_neq by (unfold readyFor, pastDueFor; congruence).
    + intros Hok. rewrite foldl_rows_member by done.
      unfold loadedRows, AlertStorage.erase. rewrite Hpd, Hok. simpl.
      apply lookup_delete_eq.
    + intros [Hk|(b & Hb & Etok & Hpdb)]%foldl_set_tokens.
      * by apply elem_of_nil in Hk.
      * assert (a = b) as <- by (eapply NoDup_tokens_inj; eauto).
        congruence.
  - intros Hpd. split_and!.
    + apply foldl_set_member; [done| |done|done].
      intros k _ Hk. by apply elem_of_nil in Hk.
    + unfold recovered. by destruct (decide _).
    + unfold recovered. by destruct (decide _).
    + intros Hact. split.
      * unfold recovered. by destruct (decide _).
      * intros Hok. rewrite foldl_rows_member by done.
        unfold loadedRows, AlertStorage.modify. rewrite Hpd.
        destruct (decide _); [|done]. simpl. rewrite Hok. simpl.
        by rewrite lookup_alter_eq, Hrow.
Qed.

(** ** The timer and the active slot *)

Section Preserves.

Variable I : AlertScheduler → Prop.

Lemma preserves_ret {A} (x : A) : preserves I (ret x).
Proof. by intros s. Qed.

Lemma preserves_get {A} (f : AlertScheduler → A) : preserves I (get f).
Proof. by intros s. Qed.

Lemma preserves_bind {A B} (c : M A) (k : A → M B) :
  preserves I c → (∀ x, preserves I (k x)) → preserves I (bind c k).
Proof.
  intros Hc Hk s Hs. rewrite bind_exec. apply Hk, Hc, Hs.
Qed.

Lemma preserves_forEach {A} (l : list A) (body : A → M unit) :
  (∀ x, preserves I (body x)) → preserves I (forEach l body).
Proof.
  intros Hb. induction l as [|x l IH]; simpl.
  - apply preserves_ret.
  - apply preserves_bind; [apply Hb | by intros _].
Qed.

Lemma preserves_modify (f : AlertScheduler → AlertScheduler) :
  (∀ s, I s → I (f s)) → preserves I (modify f).
Proof. intros Hf s Hs. by apply Hf. Qed.

Lemma preserves_exec {A} (c : M A) (s : AlertScheduler) :
  preserves I c → I s → I (exec c s).
Proof. intros Hc Hs. by apply Hc. Qed.

End Preserves.

Lemma disarmed_modify (f : AlertScheduler → AlertScheduler) :
  sameSlots f → preserves timerDisarmedWhileActive (modify f).
Proof.
  intros Hf. apply preserves_modify. intros s Hs Hact.
  destruct (Hf s) as [Ha ->]. auto.
Qed.

Lemma disarmed_submit (t : Task) : preserves timerDisarmedWhileActive (submit t).
Proof. apply disarmed_modify. by intros s. Qed.

Lemma disarmed_notify (tok ty : string) (st : AlertObserverInterface.State)
    (reason : string) :
  preserves timerDisarmedWhileActive (notifyObserver tok ty st reason).
Proof. apply disarmed_submit. Qed.

Lemma disarmed_alertCall (c : AlertCall) :
  preserves timerDisarmedWhileActive (alertCall c).
Proof. apply disarmed_modify. by intros s. Qed.

Lemma disarmed_onActive (f : Alert.t → Alert.t) :
  preserves timerDisarmedWhileActive (onActiveAlert f).
Proof.
  apply disarmed_modify. intros s. split; [|done].
  simpl. by intros ?%fmap_is_Some.
Qed.

Lemma disarmed_insert (a : Alert.t) :
  preserves timerDisarmedWhileActive (insertScheduled a).
Proof. apply disarmed_modify. by intros s. Qed.

Lemma disarmed_erase (a : Alert.t) :
  preserves timerDisarmedWhileActive (eraseScheduled a).
Proof. apply disarmed_modify. by intros s. Qed.

Lemma disarmed_storage
    (call : gmap string Alert.t → bool * gmap string Alert.t) :
  preserves timerDisarmedWhileActive (callStorage call).
Proof.
  intros s Hs. unfold callStorage. by destruct (call _).
Qed.

Lemma disarmed_clear_active :
  preserves timerDisarmedWhileActive (modify (withActive None)).
Proof. apply preserves_modify. by intros s _ [? ?]. Qed.

Lemma disarmed_stop_timer :
  preserves timerDisarmedWhileActive (modify (withTimer None)).
Proof. apply preserves_modify. by intros s _ _. Qed.

(** [setTimerForNextAlertLocked] establishes the invariant, whatever the
    state it starts from. *)
Lemma setTimer_disarmed (env : Env) (s : AlertScheduler) :
  timerDisarmedWhileActive (exec (setTimerForNextAlertLocked env) s).
Proof.
  destruct (setTimer_shape env s) as (t & q & -> & Ht & _). exact Ht.
Qed.

Lemma disarmed_setTimer (env : Env) :
  preserves timerDisarmedWhileActive (setTimerForNextAlertLocked env).
Proof. intros s _. apply setTimer_disarmed. Qed.

Create HintDb disarmed.

#[local] Hint Resolve preserves_ret preserves_get disarmed_submit
  disarmed_notify disarmed_alertCall disarmed_onActive disarmed_insert
  disarmed_erase disarmed_storage disarmed_clear_active disarmed_stop_timer
  disarmed_setTimer : disarmed.

Ltac disarmed :=
  repeat first
    [ progress eauto with disarmed
    | apply preserves_bind; [|intros ?]
    | apply preserves_forEach; intros ?
    | match goal with
      | |- preserves _ (match ?x with _ => _ end) => destruct x
      | |- preserves _ (let '(_, _) := ?x in _) => destruct x
      end ].

Lemma disarmed_eraseAlert (env : Env) (alert : option Alert.t) :
  preserves timerDisarmedWhileActive (eraseAlert env alert).
Proof. unfold eraseAlert. disarmed. Qed.

Lemma disarmed_deactivate (reason : Alert.StopReason) :
  preserves timerDisarmedWhileActive (deactivateActiveAlertHelperLocked reason).
Proof. unfold deactivateActiveAlertHelperLocked. disarmed. Qed.

#[local] Hint Resolve disarmed_eraseAlert disarmed_deactivate : disarmed.

Lemma disarmed_guard (env : Env) (a : Alert.t) :
  preserves timerDisarmedWhileActive (updateAlertGuard env a).
Proof. unfold updateAlertGuard. disarmed. Qed.

#[local] Hint Resolve disarmed_guard : disarmed.

Lemma disarmed_updateAlert (convert : string → option Z) (env : Env)
    (a : Alert.t) (newTime : string) :
  preserves timerDisarmedWhileActive (updateAlert convert env a newTime).
Proof. unfold updateAlert. disarmed. Qed.

#[local] Hint Resolve disarmed_updateAlert : disarmed.

Lemma disarmed_scheduleAlert (convert : string → option Z) (limit : Z)
    (env : Env) (a : Alert.t) :
  preserves timerDisarmedWhileActive (scheduleAlert convert limit env a).
Proof. unfold scheduleAlert, getAlertLocked. disarmed. Qed.

Lemma disarmed_initialize (limit : Z) (env : Env) (observer : bool) :
  preserves timerDisarmedWhileActive (initialize limit env observer).
Proof.
  unfold initialize, initializeLoaded, setTimerForNextAlert. disarmed.
  apply disarmed_modify. by intros s.
Qed.

Lemma disarmed_snoozeAlert (convert : string → option Z) (tok time : string) :
  preserves timerDisarmedWhileActive (snoozeAlert convert tok time).
Proof. unfold snoozeAlert. disarmed. Qed.

Lemma disarmed_deleteAlert (env : Env) (tok : string) :
  preserves timerDisarmedWhileActive (deleteAlert env tok).
Proof. unfold deleteAlert, getAlertLocked. disarmed. Qed.

Lemma disarmed_deleteAlerts (env : Env) (toks : list string) :
  preserves timerDisarmedWhileActive (deleteAlerts env toks).
Proof. unfold deleteAlerts. disarmed. Qed.

Lemma disarmed_clearData (env : Env) (reason : Alert.StopReason) :
  preserves timerDisarmedWhileActive (clearData env reason).
Proof.
  unfold clearData. disarmed. apply disarmed_modify. by intros s.
Qed.

Lemma disarmed_finishActive (env : Env) (n : Notification) :
  preserves timerDisarmedWhileActive (finishActiveAlert env n).
Proof. unfold finishActiveAlert. disarmed. Qed.

(** [activateNextAlertLocked] fills the active slot and leaves the timer as
    it is. *)
Lemma activateNext_timer (s : AlertScheduler) :
  m_scheduledAlertTimer (exec activateNextAlertLocked s)
  = m_scheduledAlertTimer s.
Proof.
  unfold activateNextAlertLocked. unfold_monad.
  destruct s as [o db f [a|] [|first rest] tm q obs calls down]; done.
Qed.

Lemma activateNext_active (s : AlertScheduler) :
  is_Some (m_activeAlert (exec activateNextAlertLocked s)) →
  is_Some (m_activeAlert s) ∨ m_scheduledAlerts s ≠ [].
Proof.
  unfold activateNextAlertLocked. unfold_monad.
  destruct s as [o db f [a|] [|first rest] tm q obs calls down]; simpl;
    intros H; auto.
Qed.

Lemma updateFocus_disarmed (focus : FocusState) (s : AlertScheduler) :
  ¬ promotesWhileArmed (UpdateFocus focus) s →
  timerDisarmedWhileActive s →
  timerDisarmedWhileActive (exec (updateFocus focus) s).
Proof.
  intros Hquiet Hs. unfold updateFocus, exec. rewrite bind_exec.
  cbn [get fst snd].
  destruct (decide (m_focusState s = focus)) as [E|E]; [done|].
  rewrite bind_exec. cbn [modify fst snd].
  assert (timerDisarmedWhileActive (withFocus focus s)) as Hs' by done.
  assert (∀ a st,
    preserves timerDisarmedWhileActive
      (onActiveAlert (Alert.setFocusState focus);;
       notifyObserver (Alert.getToken a) (Alert.getTypeName a) st ""))
    as Hfwd by (intros; disarmed).
  assert (focus ≠ NONE → m_activeAlert s = None →
          timerDisarmedWhileActive (activateNextAlertLocked (withFocus focus s)).2)
    as Hnext.
  { intros Hf Hnone Hact.
    pose proof (activateNext_timer (withFocus focus s)) as Ht.
    pose proof (activateNext_active (withFocus focus s) Hact) as Ha.
    unfold exec in Ht. rewrite Ht. change (m_scheduledAlertTimer s = None).
    change (is_Some (m_activeAlert s) ∨ m_scheduledAlerts s ≠ []) in Ha.
    destruct Ha as [Ha|Ha]; [rewrite Hnone in Ha; by destruct Ha|].
    destruct (m_scheduledAlertTimer s) as [job|] eqn:Etm; [|done].
    exfalso. apply Hquiet. simpl. rewrite Etm. split_and!; eauto. }
  destruct focus.
  - rewrite bind_exec. cbn [get fst snd withFocus m_activeAlert].
    destruct (m_activeAlert s) as [a|] eqn:Ea; [by apply Hfwd | by apply Hnext].
  - rewrite bind_exec. cbn [get fst snd withFocus m_activeAlert].
    destruct (m_activeAlert s) as [a|] eqn:Ea; [by apply Hfwd | by apply Hnext].
  - by apply disarmed_deactivate.
Qed.

Lemma executeOnAlertStateChange_disarmed (env : Env) (n : Notification)
    (s s' : AlertScheduler) :
  timerDisarmedWhileActive s →
  executeOnAlertStateChange env n s = Some s' →
  timerDisarmedWhileActive s'.
Proof.
  intros Hs.
  pose proof (executeOnAlertStateChange_finish env n s) as Hfin.
  unfold executeOnAlertStateChange in *.
  destruct (alertState n); try (by intros [= <-]).
  - destruct (m_activeAlert s); [|by intros [= <-]].
    destruct (decide _); intros [= <-]; [|done].
    apply preserves_exec; [|done]. disarmed.
  - rewrite Hfin by auto. intros [= <-]. by apply disarmed_finishActive.
  - destruct (m_activeAlert s); [|done]. intros [= <-].
    apply preserves_exec; [|done]. disarmed.
  - rewrite Hfin by auto. intros [= <-]. by apply disarmed_finishActive.
  - intros [= <-]. apply preserves_exec; [|done].
    unfold getAlertLocked. disarmed.
Qed.

(** Every event other than a promotion while the timer is armed keeps the
    timer disarmed while an alert is active. *)
Lemma step_disarmed (convert : string → option Z) (limit : Z) (env : Env)
    (e : Event) (s s' : AlertScheduler) :
  ¬ promotesWhileArmed e s →
  timerDisarmedWhileActive s →
  step convert limit env e s = Some s' →
  timerDisarmedWhileActive s'.
Proof.
  intros Hquiet Hs.
  unfold step. destruct (isShutdown s); [done|].
  destruct e; simpl; try (intros [= <-]).
  - by apply disarmed_initialize.
  - by apply disarmed_scheduleAlert.
  - by apply disarmed_snoozeAlert.
  - by apply disarmed_deleteAlert.
  - by apply disarmed_deleteAlerts.
  - by apply updateFocus_disarmed.
  - by apply disarmed_deactivate.
  - by apply disarmed_clearData.
  - by apply disarmed_submit.
  - unfold executorRun. destruct (m_executor s) as [|[n|n] rest]; [done| |].
    + unfold executeNotifyObserver. simpl.
      destruct (m_observer s); [|done]. by intros [= <-].
    + by apply executeOnAlertStateChange_disarmed.
  - unfold timerFire. destruct (m_scheduledAlertTimer s); [|done].
    intros [= <-]. by intros _.
  - by intros _.
Qed.

(** C1 (amended): in every state reached by public operations,
    executor-dispatched events and timer firings none of which promotes an
    alert while the timer is armed, an alert in the active slot implies a
    disarmed timer.  [activateNextAlertLocked] itself never touches the
    timer: after a promotion the timer is as it was before. *)
Theorem C1_timer_disarmed_while_active
    (convert : string → option Z) (limit : Z) (db : gmap string Alert.t)
    (s : AlertScheduler) :
  reachableUnarmed convert limit db s →
  timerDisarmedWhileActive s
  ∧ m_scheduledAlertTimer (exec activateNextAlertLocked s)
    = m_scheduledAlertTimer s.
Proof.
  intros Hreach. split; [|apply activateNext_timer].
  induction Hreach as [|env e s s' _ IH Hquiet Hstep].
  - by intros [? ?].
  - by eapply step_disarmed.
Qed.

(** ** The scheduled set stays in comparator order *)

Lemma insert_sorted (a : Alert.t) (l : list Alert.t) :
  AlertSet.sorted l → AlertSet.sorted (AlertSet.insert a l).
Proof.
  unfold AlertSet.sorted. induction l as [|b l IH]; simpl; intros Hs.
  - repeat constructor.
  - apply StronglySorted_inv in Hs as [Hl Hb].
    destruct (Alert.lessThan a b) eqn:E1.
    + constructor; [by constructor|]. constructor; [done|].
      eapply Forall_impl; [exact Hb|]. intros c Hc.
      by eapply lessThan_trans.
    + destruct (Alert.lessThan b a) eqn:E2; [|by constructor].
      constructor; [by apply IH|].
      apply Forall_forall. intros c [->|Hc]%insert_elem_inv; [done|].
      rewrite Forall_forall in Hb. by apply Hb.
Qed.

Lemma erase_sorted (a : Alert.t) (l : list Alert.t) :
  AlertSet.sorted l → AlertSet.sorted (AlertSet.erase a l).
Proof.
  unfold AlertSet.sorted. induction l as [|b l IH]; simpl; intros Hs; [done|].
  apply StronglySorted_inv in Hs as [Hl Hb].
  destruct (AlertSet.equiv a b); [by apply IH|].
  constructor; [by apply IH|].
  apply Forall_forall. intros c Hc%erase_subseteq.
  rewrite Forall_forall in Hb. by apply Hb.
Qed.

(** In a set in comparator order no two members are equivalent keys: the
    list models a [std::set]. *)
Lemma sorted_no_equiv (l : list Alert.t) (i j : nat) (a b : Alert.t) :
  AlertSet.sorted l → l !! i = Some a → l !! j = Some b → (i < j)%nat →
  AlertSet.equiv a b = false.
Proof.
  unfold AlertSet.sorted. intros Hs. revert i j.
  induction Hs as [|c l Hs IH Hc]; intros i j Hi Hj Hlt; [done|].
  destruct i as [|i], j as [|j]; try lia; simpl in *.
  - injection Hi as ->. rewrite Forall_forall in Hc.
    apply list_elem_of_lookup_2, Hc in Hj.
    unfold AlertSet.equiv. by rewrite Hj.
  - apply (IH i j); [done | done | lia].
Qed.

Lemma sorted_modify (f : AlertScheduler → AlertScheduler) :
  sameScheduled f → preserves scheduledSorted (modify f).
Proof.
  intros Hf. apply preserves_modify. intros s Hs.
  unfold scheduledSorted. by rewrite Hf.
Qed.

Lemma sorted_submit (t : Task) : preserves scheduledSorted (submit t).
Proof. by apply sorted_modify. Qed.

Lemma sorted_notify (tok ty : string) (st : AlertObserverInterface.State)
    (reason : string) :
  preserves scheduledSorted (notifyObserver tok ty st reason).
Proof. apply sorted_submit. Qed.

Lemma sorted_alertCall (c : AlertCall) : preserves scheduledSorted (alertCall c).
Proof. by apply sorted_modify. Qed.

Lemma sorted_onActive (f : Alert.t → Alert.t) :
  preserves scheduledSorted (onActiveAlert f).
Proof. by apply sorted_modify. Qed.

Lemma sorted_withActive (a : option Alert.t) :
  preserves scheduledSorted (modify (withActive a)).
Proof. by apply sorted_modify. Qed.

Lemma sorted_withTimer (t : option TimerJob) :
  preserves scheduledSorted (modify (withTimer t)).
Proof. by apply sorted_modify. Qed.

Lemma sorted_withFocus (f : FocusState) :
  preserves scheduledSorted (modify (withFocus f)).
Proof. by apply sorted_modify. Qed.

Lemma sorted_withObserver (o : bool) :
  preserves scheduledSorted (modify (withObserver o)).
Proof. by apply sorted_modify. Qed.

Lemma sorted_clear : preserves scheduledSorted (modify (withScheduled [])).
Proof. apply preserves_modify. intros s _. constructor. Qed.

Lemma sorted_storage
    (call : gmap string Alert.t → bool * gmap string Alert.t) :
  preserves scheduledSorted (callStorage call).
Proof. intros s Hs. unfold callStorage. by destruct (call _). Qed.

Lemma sorted_insert (a : Alert.t) :
  preserves scheduledSorted (insertScheduled a).
Proof. intros s Hs. by apply insert_sorted. Qed.

Lemma sorted_erase (a : Alert.t) :
  preserves scheduledSorted (eraseScheduled a).
Proof. intros s Hs. by apply erase_sorted. Qed.

Lemma sorted_setTimer (env : Env) :
  preserves scheduledSorted (setTimerForNextAlertLocked env).
Proof.
  intros s Hs. destruct (setTimer_shape env s) as (t & q & E & _).
  unfold exec in E. by rewrite E.
Qed.

Lemma sorted_activateNext : preserves scheduledSorted activateNextAlertLocked.
Proof.
  intros s Hs. unfold activateNextAlertLocked. unfold_monad.
  unfold scheduledSorted in *.
  destruct s as [o db f [a|] [|first rest] tm q obs calls down]; simpl in *;
    [done..|].
  by apply StronglySorted_inv in Hs as [? _].
Qed.

Create HintDb sorted.

#[local] Hint Resolve preserves_ret preserves_get sorted_submit sorted_notify
  sorted_alertCall sorted_onActive sorted_withActive sorted_withTimer
  sorted_withFocus sorted_withObserver sorted_clear sorted_storage
  sorted_insert sorted_erase sorted_setTimer sorted_activateNext : sorted.

Ltac sorted :=
  repeat first
    [ progress eauto with sorted
    | apply preserves_bind; [|intros ?]
    | apply preserves_forEach; intros ?
    | match goal with
      | |- preserves _ (match ?x with _ => _ end) => destruct x
      | |- preserves _ (let '(_, _) := ?x in _) => destruct x
      end ].

Lemma sorted_step (convert : string → option Z) (limit : Z) (env : Env)
    (e : Event) (s s' : AlertScheduler) :
  scheduledSorted s → step convert limit env e s = Some s' →
  scheduledSorted s'.
Proof.
  intros Hs.
  unfold step. destruct (isShutdown s); [done|].
  destruct e; simpl;
    try (intros [= <-]; apply preserves_exec; [|done]).
  - unfold initialize, initializeLoaded, eraseAlert, setTimerForNextAlert.
    sorted.
  - unfold scheduleAlert, updateAlert, updateAlertGuard, getAlertLocked.
    sorted.
  - unfold snoozeAlert. sorted.
  - unfold deleteAlert, deactivateActiveAlertHelperLocked, eraseAlert,
      getAlertLocked. sorted.
  - unfold deleteAlerts, deactivateActiveAlertHelperLocked. sorted.
  - unfold updateFocus, deactivateActiveAlertHelperLocked. sorted.
  - unfold onLocalStop, deactivateActiveAlertHelperLocked. sorted.
  - unfold clearData, deactivateActiveAlertHelperLocked. sorted.
  - unfold onAlertStateChange. sorted.
  - unfold executorRun. destruct (m_executor s) as [|[n|n] rest]; [done| |].
    + unfold executeNotifyObserver. simpl.
      destruct (m_observer s); [|done]. by intros [= <-].
    + unfold executeOnAlertStateChange.
      assert (scheduledSorted (withExecutor rest s)) as Hs' by done.
      destruct (alertState n); try (by intros [= <-]);
        try (intros [= <-]; apply preserves_exec; [|done];
             unfold eraseAlert, getAlertLocked; by sorted).
      * destruct (m_activeAlert (withExecutor rest s)); [|by intros [= <-]].
        destruct (decide _); intros [= <-]; [|done].
        apply preserves_exec; [|done]. sorted.
      * destruct (m_activeAlert (withExecutor rest s)); [|done].
        intros [= <-]. apply preserves_exec; [|done]. sorted.
  - unfold timerFire. destruct (m_scheduledAlertTimer s); [|done].
    by intros [= <-].
  - intros s0 _. constructor.
Qed.

(** In every reachable state the scheduled set is in comparator order, so
    that its first element is its least one. *)
Lemma reachable_sorted (convert : string → option Z) (limit : Z)
    (db : gmap string Alert.t) (s : AlertScheduler) :
  reachable convert limit db s → scheduledSorted s.
Proof.
  induction 1 as [|env e s s' _ IH Hstep]; [constructor|].
  by eapply sorted_step.
Qed.

(** ** The rows stay keyed by token *)

Lemma keyed_empty : keyedByToken ∅.
Proof. intros k a. by rewrite lookup_empty. Qed.

Lemma keyed_store (fails : AlertStorage.Call → bool) (a : Alert.t) :
  keepsKeys (AlertStorage.store fails a).
Proof.
  intros db Hk. unfold AlertStorage.store.
  destruct (fails _); [done|].
  destruct (db !! Alert.getToken a) eqn:E; [done|]. simpl.
  intros k b [[<- <-]|[_ ?]]%lookup_insert_Some; [done | by apply Hk].
Qed.

Lemma keyed_modify (fails : AlertStorage.Call → bool) (a : Alert.t) :
  keepsKeys (AlertStorage.modify fails a).
Proof.
  intros db Hk. unfold AlertStorage.modify.
  destruct (fails _); [done|]. simpl. intros k b.
  destruct (decide (Alert.getToken a = k)) as [<-|Hne].
  - rewrite lookup_alter_eq. destruct (db !! Alert.getToken a); [|done].
    by intros [= <-].
  - rewrite lookup_alter_ne by done. apply Hk.
Qed.

Lemma keyed_erase (fails : AlertStorage.Call → bool) (a : Alert.t) :
  keepsKeys (AlertStorage.erase fails a).
Proof.
  intros db Hk. unfold AlertStorage.erase.
  destruct (fails _); [done|]. simpl.
  intros k b [_ ?]%lookup_delete_Some. by apply Hk.
Qed.

Lemma keyed_bulkErase (fails : AlertStorage.Call → bool) (l : list Alert.t) :
  keepsKeys (AlertStorage.bulkErase fails l).
Proof.
  induction l as [|a l IH]; intros db Hk; simpl; [done|].
  pose proof (keyed_erase fails a db Hk) as Ha.
  destruct (AlertStorage.erase fails a db) as [ok db1].
  pose proof (IH db1 Ha) as Hl.
  by destruct (AlertStorage.bulkErase fails l db1).
Qed.

Lemma keyed_createDatabase (fails : AlertStorage.Call → bool) :
  keepsKeys (AlertStorage.createDatabase fails).
Proof.
  intros db Hk. unfold AlertStorage.createDatabase.
  destruct (fails _); [done | apply keyed_empty].
Qed.

Lemma keyed_clearDatabase (fails : AlertStorage.Call → bool) :
  keepsKeys (AlertStorage.clearDatabase fails).
Proof.
  intros db Hk. unfold AlertStorage.clearDatabase.
  destruct (fails _); [done | apply keyed_empty].
Qed.

Lemma keyed_callStorage
    (call : gmap string Alert.t → bool * gmap string Alert.t) :
  keepsKeys call → preserves rowsKeyed (callStorage call).
Proof.
  intros Hcall s Hs. unfold callStorage. specialize (Hcall _ Hs).
  by destruct (call _).
Qed.

Lemma keyed_modify_state (f : AlertScheduler → AlertScheduler) :
  sameStorage f → preserves rowsKeyed (modify f).
Proof.
  intros Hf. apply preserves_modify. intros s Hs.
  unfold rowsKeyed. by rewrite Hf.
Qed.

Lemma keyed_notify (tok ty : string) (st : AlertObserverInterface.State)
    (reason : string) :
  preserves rowsKeyed (notifyObserver tok ty st reason).
Proof. by apply keyed_modify_state. Qed.

Lemma keyed_submit (t : Task) : preserves rowsKeyed (submit t).
Proof. by apply keyed_modify_state. Qed.

Lemma keyed_alertCall (c : AlertCall) : preserves rowsKeyed (alertCall c).
Proof. by apply keyed_modify_state. Qed.

Lemma keyed_onActive (f : Alert.t → Alert.t) :
  preserves rowsKeyed (onActiveAlert f).
Proof. by apply keyed_modify_state. Qed.

Lemma keyed_insert (a : Alert.t) : preserves rowsKeyed (insertScheduled a).
Proof. by apply keyed_modify_state. Qed.

Lemma keyed_eraseScheduled (a : Alert.t) :
  preserves rowsKeyed (eraseScheduled a).
Proof. by apply keyed_modify_state. Qed.

Lemma keyed_setTimer (env : Env) :
  preserves rowsKeyed (setTimerForNextAlertLocked env).
Proof.
  intros s Hs. destruct (setTimer_shape env s) as (t & q & E & _).
  unfold exec in E. by rewrite E.
Qed.

Create HintDb keyed.

#[local] Hint Resolve preserves_ret preserves_get keyed_store keyed_modify
  keyed_erase keyed_bulkErase keyed_createDatabase keyed_clearDatabase
  keyed_callStorage keyed_notify keyed_submit keyed_alertCall keyed_onActive
  keyed_insert keyed_eraseScheduled keyed_setTimer : keyed.

Ltac keyed :=
  repeat first
    [ progress eauto with keyed
    | apply keyed_modify_state; by intros ?
    | apply preserves_bind; [|intros ?]
    | apply preserves_forEach; intros ?
    | match goal with
      | |- preserves _ (match ?x with _ => _ end) => destruct x
      | |- preserves _ (let '(_, _) := ?x in _) => destruct x
      end ].

Lemma keyed_step (convert : string → option Z) (limit : Z) (env : Env)
    (e : Event) (s s' : AlertScheduler) :
  rowsKeyed s → step convert limit env e s = Some s' → rowsKeyed s'.
Proof.
  intros Hs. unfold step. destruct (isShutdown s); [done|].
  destruct e; simpl;
    try (intros [= <-]; apply preserves_exec; [|done]).
  - unfold initialize, initializeLoaded, eraseAlert, setTimerForNextAlert.
    keyed.
  - unfold scheduleAlert, updateAlert, updateAlertGuard, getAlertLocked.
    keyed.
  - unfold snoozeAlert. keyed.
  - unfold deleteAlert, deactivateActiveAlertHelperLocked, eraseAlert,
      getAlertLocked. keyed.
  - unfold deleteAlerts, deactivateActiveAlertHelperLocked. keyed.
  - unfold updateFocus, deactivateActiveAlertHelperLocked,
      activateNextAlertLocked. keyed.
  - unfold onLocalStop, deactivateActiveAlertHelperLocked. keyed.
  - unfold clearData, deactivateActiveAlertHelperLocked. keyed.
  - unfold onAlertStateChange. keyed.
  - unfold executorRun. destruct (m_executor s) as [|[n|n] rest]; [done| |].
    + unfold executeNotifyObserver. simpl.
      destruct (m_observer s); [|done]. by intros [= <-].
    + unfold executeOnAlertStateChange.
      assert (rowsKeyed (withExecutor rest s)) as Hs' by done.
      destruct (alertState n); try (by intros [= <-]);
        try (intros [= <-]; apply preserves_exec; [|done];
             unfold eraseAlert, getAlertLocked; by keyed).
      * destruct (m_activeAlert (withExecutor rest s)); [|by intros [= <-]].
        destruct (decide _); intros [= <-]; [|done].
        apply preserves_exec; [|done]. keyed.
      * destruct (m_activeAlert (withExecutor rest s)); [|done].
        intros [= <-]. apply preserves_exec; [|done]. keyed.
  - unfold timerFire. destruct (m_scheduledAlertTimer s); [|done].
    by intros [= <-].
  - by intros s0 Hs0.
Qed.

(** The rows a scheduler leaves behind are keyed by token when the rows it
    started from were. *)
Lemma reachable_keyed (convert : string → option Z) (limit : Z)
    (db : gmap string Alert.t) (s : AlertScheduler) :
  keyedByToken db → reachable convert limit db s → rowsKeyed s.
Proof.
  intros Hdb. induction 1 as [|env e s s' _ IH Hstep]; [done|].
  by eapply keyed_step.
Qed.

(** ** Memory and storage *)

Lemma tokens_insert_elem (a : Alert.t) (l : list Alert.t) (k : string) :
  k ∈ AlertSet.tokens (AlertSet.insert a l)
  ↔ k = Alert.getToken a ∨ k ∈ AlertSet.tokens l.
Proof.
  split.
  - intros (c & [->|Hc]%insert_elem_inv & <-)%tokens_elem; [by left|].
    right. apply tokens_elem. by exists c.
  - intros [->|(c & Hc & <-)%tokens_elem]; apply tokens_elem.
    + destruct (decide (Alert.getToken a ∈ AlertSet.tokens l)) as [Hin|Hnin].
      * apply tokens_elem in Hin as (c & Hc & E). exists c.
        split; [by apply insert_keeps | done].
      * exists a. split; [by apply insert_fresh_token | done].
    + exists c. split; [by apply insert_keeps | done].
Qed.

Lemma tokens_insert_perm (a : Alert.t) (l : list Alert.t) :
  Alert.getToken a ∉ AlertSet.tokens l →
  AlertSet.tokens (AlertSet.insert a l) ≡ₚ Alert.getToken a :: AlertSet.tokens l.
Proof.
  unfold AlertSet.tokens. induction l as [|b l IH]; simpl; [done|].
  intros [Hne Hl]%not_elem_of_cons.
  destruct (Alert.lessThan a b) eqn:E1; [done|].
  destruct (Alert.lessThan b a) eqn:E2.
  - simpl. rewrite IH by done. apply Permutation_swap.
  - exfalso. apply Hne, equiv_token. unfold AlertSet.equiv. by rewrite E1, E2.
Qed.


Section Consistency.

Implicit Types (sch : list Alert.t) (act : option Alert.t)
  (db : gmap string Alert.t).

Lemma consistentOf_scheduled_NoDup sch act db :
  consistentOf sch act db → NoDup (AlertSet.tokens sch).
Proof. by intros [[? _]%NoDup_app _]. Qed.











Lemma consistentOf_empty : consistentOf [] None ∅.
Proof.
  split; [constructor|]. intros k. simpl. rewrite lookup_empty.
  split; [by intros ?%elem_of_nil | by intros [? ?]].
Qed.

End Consistency.

(** *** The bulk erase *)





(** *** Each event keeps memory and storage consistent *)


















(** *** [initialize] establishes consistency on a new scheduler *)




(** * Concrete runs *)

Lemma runEvents_reachable (convert : string → option Z) (limit : Z)
    (env : Env) (db : gmap string Alert.t) (events : list Event) :
  ∀ s s', reachable convert limit db s →
          runEvents convert limit env events s = Some s' →
          reachable convert limit db s'.
Proof.
  induction events as [|e rest IH]; intros s s' Hreach Hrun; simpl in Hrun.
  - by injection Hrun as <-.
  - destruct (step convert limit env e s) as [s1|] eqn:Hstep; [|done].
    apply (IH s1); [|done]. by eapply reachable_step.
Qed.


Lemma consistent_new : consistent (newScheduler ∅).
Proof. apply consistentOf_empty. Qed.



Lemma keyed_rowsAtBoot : keyedByToken rowsAtBoot.
Proof.
  intros k a. unfold rowsAtBoot.
  intros [[<- <-]|[_ [[<- <-]|[_ H]]%lookup_insert_Some]]%lookup_insert_Some;
    [done | done |].
  by rewrite lookup_empty in H.
Qed.

(** C1, as stated, fails: after [initialize], [scheduleAlert] of an alarm due
    in 100 seconds (the timer is armed) and [updateFocus(FOREGROUND)] (the
    alarm is promoted), the active slot is filled and the timer is still
    armed. *)
Lemma C1_counterexample :
  reachable secondsOfDigits 30 ∅ oneActive
  ∧ ¬ timerDisarmedWhileActive oneActive.
Proof.
  split.
  - apply (reachable_step _ _ _ (calm 0) (UpdateFocus FOREGROUND)
             oneScheduled); [|reflexivity].
    apply (reachable_step _ _ _ (calm 0) (ScheduleAlert (alarm "A" "100" 100))
             (exec (initialize 30 (calm 0) true) (newScheduler ∅)));
      [|reflexivity].
    apply (reachable_step _ _ _ (calm 0) (Initialize true) (newScheduler ∅));
      [|reflexivity].
    apply reachable_new.
  - intros H. assert (is_Some (m_activeAlert oneActive)) as Hact
      by (vm_compute; eauto).
    specialize (H Hact). vm_compute in H. discriminate.
Qed.

Lemma C1_witness :
  reachableUnarmed secondsOfDigits 30 ∅ dueActive
  ∧ is_Some (m_activeAlert dueActive)
  ∧ timerDisarmedWhileActive dueActive.
Proof.
  assert (reachableUnarmed secondsOfDigits 30 ∅ dueActive) as Hreach.
  { apply (reachableUnarmed_step _ _ _ (calm 0) (UpdateFocus FOREGROUND)
             dueNow); [| |reflexivity].
    - apply (reachableUnarmed_step _ _ _ (calm 0)
               (ScheduleAlert (alarm "B" "0" 0))
               (exec (initialize 30 (calm 0) true) (newScheduler ∅)));
        [| |reflexivity].
      + apply (reachableUnarmed_step _ _ _ (calm 0) (Initialize true)
                 (newScheduler ∅)); [| |reflexivity].
        * apply reachableUnarmed_new.
        * intros [].
      + intros [].
    - intros (_ & _ & _ & _ & [job Hjob]). vm_compute in Hjob. discriminate. }
  split_and!; [exact Hreach | vm_compute; eauto |].
  exact (proj1 (C1_timer_disarmed_while_active secondsOfDigits 30 ∅ dueActive
                  Hreach)).
Defined.







Lemma C5_witness :
  getCurrentUnixTime (calm 100) = Some 100
  ∧ scheduleAlert secondsOfDigits 30 (calm 100) (alarm "P" "10" 10) oneScheduled
    = (false, oneScheduled)
  ∧ ∃ oldAlert,
      oldAlert ∈ m_scheduledAlerts oneScheduled
      ∧ scheduleAlert secondsOfDigits 30 (calm 100) (alarm "A" "500" 500)
          oneScheduled
        = updateAlert secondsOfDigits (calm 100) oldAlert "500" oneScheduled.
Proof.
  split; [reflexivity|]. split.
  - apply (proj1 (C5_scheduleAlert_rejects_and_routes secondsOfDigits 30
                    (calm 100) 100 (alarm "P" "10" 10) oneScheduled eq_refl)).
    simpl. lia.
  - destruct (proj2 (C5_scheduleAlert_rejects_and_routes secondsOfDigits 30
                       (calm 100) 100 (alarm "A" "500" 500) oneScheduled
                       eq_refl))
      as (old & Hin & _ & Heq & _).
    + simpl. lia.
    + vm_compute. left.
    + exists old. split; [exact Hin | exact Heq].
Defined.

Lemma C6_witness :
  getCurrentUnixTime (calm 1000) = Some 1000
  ∧ keyedByToken rowsAtBoot
  ∧ crashedAlarm ∈ AlertStorage.load (storageFails (calm 1000))
                     (openedRows (calm 1000) rowsAtBoot)
  ∧ oldAlarm ∈ AlertStorage.load (storageFails (calm 1000))
                 (openedRows (calm 1000) rowsAtBoot)
  ∧ Alert.isPastDue crashedAlarm 1000 30 = false
  ∧ recovered crashedAlarm
    ∈ m_scheduledAlerts
        (exec (initialize 30 (calm 1000) true) (newScheduler rowsAtBoot))
  ∧ Alert.getState (recovered crashedAlarm) = Alert.SET
  ∧ m_alertStorage
      (exec (initialize 30 (calm 1000) true) (newScheduler rowsAtBoot))
      !! "act" = Some (Alert.reset crashedAlarm)
  ∧ Alert.isPastDue oldAlarm 1000 30 = true
  ∧ count_occ Task_eq_dec
      (m_executor
         (exec (initialize 30 (calm 1000) true) (newScheduler rowsAtBoot)))
      (pastDueFor oldAlarm) = 1%nat
  ∧ m_alertStorage
      (exec (initialize 30 (calm 1000) true) (newScheduler rowsAtBoot))
      !! "old" = None.
Proof.
  assert (crashedAlarm ∈ AlertStorage.load (storageFails (calm 1000))
                           (openedRows (calm 1000) rowsAtBoot)) as Hin.
  { apply list_elem_of_In. vm_compute. auto. }
  assert (oldAlarm ∈ AlertStorage.load (storageFails (calm 1000))
                       (openedRows (calm 1000) rowsAtBoot)) as Hin'.
  { apply list_elem_of_In. vm_compute. auto. }
  destruct (C6_initialize_loaded 30 (calm 1000) 1000 (newScheduler rowsAtBoot)
              crashedAlarm eq_refl (or_introl eq_refl) keyed_rowsAtBoot
              eq_refl Hin)
    as (_ & _ & Hdue).
  destruct (Hdue eq_refl) as (Hset & _ & _ & Hactive).
  destruct (Hactive eq_refl) as (Hstate & Hrow).
  destruct (C6_initialize_loaded 30 (calm 1000) 1000 (newScheduler rowsAtBoot)
              oldAlarm eq_refl (or_introl eq_refl) keyed_rowsAtBoot
              eq_refl Hin')
    as (_ & Hpast & _).
  destruct (Hpast eq_refl) as (Honce & Hgone & _).
  split_and!;
    [reflexivity | exact keyed_rowsAtBoot | exact Hin | exact Hin'
    | reflexivity | exact Hset | exact Hstate | exact (Hrow eq_refl)
    | reflexivity | exact Honce | exact (Hgone eq_refl)].
Defined.

Lemma C7_witness :
  NoDup (AlertSet.tokens (m_scheduledAlerts oneScheduled))
  ∧ result (deleteAlert (calm 0) "A") (exec (deleteAlert (calm 0) "A") oneScheduled)
    = result (deleteAlert (calm 0) "A") oneScheduled
  ∧ withAlertCalls []
      (exec (deleteAlert (calm 0) "A") (exec (deleteAlert (calm 0) "A") oneScheduled))
    = withAlertCalls [] (exec (deleteAlert (calm 0) "A") oneScheduled).
Proof.
  assert (NoDup (AlertSet.tokens (m_scheduledAlerts oneScheduled))) as Hnd
    by (vm_compute; apply NoDup_singleton).
  destruct (C7_deleteAlert_idempotent (calm 0) (calm 0) "A" oneScheduled Hnd)
    as (Hres & Hstate & _).
  split_and!; [exact Hnd | exact Hres | exact Hstate].
Defined.

(** C7, as stated, fails: [getAlertLocked] returns the first alert with the
    token and [deleteAlert] erases that one.  The run [runToTwiceB] reaches a
    scheduled set that holds the token "B" twice; there the first
    [deleteAlert] removes the alarm for 100 and the second the alarm for
    200. *)
Lemma C7_counterexample :
  reachable secondsOfDigits 30 ∅ twiceB
  ∧ AlertSet.tokens (m_scheduledAlerts twiceB) = ["B"; "B"]
  ∧ length (m_scheduledAlerts (exec (deleteAlert (calm 0) "B") twiceB)) = 1%nat
  ∧ m_scheduledAlerts
      (exec (deleteAlert (calm 0) "B") (exec (deleteAlert (calm 0) "B") twiceB))
    = []
  ∧ exec (deleteAlert (calm 0) "B") (exec (deleteAlert (calm 0) "B") twiceB)
    ≠ exec (deleteAlert (calm 0) "B") twiceB.
Proof.
  split_and!; [|reflexivity..|].
  - apply (runEvents_reachable _ _ (calm 0) _ runToTwiceB (newScheduler ∅));
      [apply reachable_new|].
    by vm_compute.
  - intros Heq. apply (f_equal (λ s, length (m_scheduledAlerts s))) in Heq.
    vm_compute in Heq. discriminate.
Qed.




Lemma C9_witness :
  activeHasToken (m_activeAlert oneScheduled) "A" = false
  ∧ find (λ alert, String.eqb "A" (Alert.getToken alert))
      (m_scheduledAlerts oneScheduled) = Some boundA
  ∧ storageFails (eraseFailing 0) (AlertStorage.Erase (Alert.getToken boundA))
    = true
  ∧ result (deleteAlert (eraseFailing 0) "A") oneScheduled = true
  ∧ (boundA
     ∉ m_scheduledAlerts (exec (deleteAlert (eraseFailing 0) "A") oneScheduled))
  ∧ m_alertStorage (exec (deleteAlert (eraseFailing 0) "A") oneScheduled)
    = m_alertStorage oneScheduled.
Proof.
  destruct (C9_deleteAlert_always_succeeds (eraseFailing 0) "A" oneScheduled)
    as [Hres Hfail].
  destruct (Hfail boundA eq_refl eq_refl eq_refl) as (_ & Hgone & Hrows & _).
  split_and!;
    [reflexivity | reflexivity | reflexivity | exact Hres | exact Hgone
    | exact Hrows].
Defined.


(** ** Focus changes, promotion and the read-only snapshots *)

Lemma updateFocus_same (focus : FocusState) (s : AlertScheduler) :
  m_focusState s = focus → updateFocus focus s = (tt, s).
Proof.
  intros E. unfold updateFocus. rewrite bind_exec. cbn [get fst snd].
  by destruct (decide (m_focusState s = focus)).
Qed.

(** What [updateFocus] does when the focus changes. *)
Lemma updateFocus_changed (focus : FocusState) (s : AlertScheduler) :
  m_focusState s ≠ focus →
  exec (updateFocus focus) s
  = match focus, m_activeAlert s with
    | NONE, _ =>
        exec (deactivateActiveAlertHelperLocked Alert.LOCAL_STOP)
          (withFocus focus s)
    | _, Some a =>
        withExecutor (m_executor s ++ focusEnteredFor focus a)
          (withActive (Some (Alert.setFocusState focus a)) (withFocus focus s))
    | _, None => exec activateNextAlertLocked (withFocus focus s)
    end.
Proof.
  intros E. unfold updateFocus, exec. rewrite bind_exec. cbn [get fst snd].
  destruct (decide (m_focusState s = focus)); [done|].
  rewrite bind_exec. cbn [modify fst snd].
  destruct focus; [| |done];
    rewrite bind_exec; cbn [get fst snd withFocus m_activeAlert];
    destruct s as [o db f [a|] sch tm q obs calls down]; [|done| |done];
    by unfold_monad.
Qed.

Lemma activateNext_shape (s : AlertScheduler) :
  exec activateNextAlertLocked s
  = match m_activeAlert s, m_scheduledAlerts s with
    | None, first :: rest =>
        withAlertCalls (alertCalls s ++ [Activate (Alert.getToken first)])
          (withScheduled rest
             (withActive
                (Some (Alert.activate
                         (Alert.setFocusState (m_focusState s) first))) s))
    | _, _ => s
    end.
Proof.
  unfold activateNextAlertLocked. unfold_monad.
  by destruct s as [o db f [a|] [|first rest] tm q obs calls down].
Qed.

Lemma deactivate_shape (reason : Alert.StopReason) (s : AlertScheduler) :
  exec (deactivateActiveAlertHelperLocked reason) s
  = match m_activeAlert s with
    | Some a =>
        withAlertCalls (alertCalls s ++ [Deactivate (Alert.getToken a) reason])
          (withActive (Some (Alert.deactivate reason a)) s)
    | None => s
    end.
Proof.
  unfold deactivateActiveAlertHelperLocked. unfold_monad.
  by destruct s as [o db f [a|] sch tm q obs calls down].
Qed.


Lemma updateFocus_focus (focus : FocusState) (s : AlertScheduler) :
  m_focusState (exec (updateFocus focus) s) = focus.
Proof.
  destruct (decide (m_focusState s = focus)) as [E|E].
  { unfold exec. by rewrite updateFocus_same by done. }
  rewrite updateFocus_changed by done.
  destruct focus; destruct (m_activeAlert s) as [a|] eqn:Ea;
    rewrite ?activateNext_shape, ?deactivate_shape;
    cbn [withFocus m_activeAlert m_scheduledAlerts]; rewrite ?Ea; try done;
    by destruct (m_scheduledAlerts s).
Qed.

(** X1: [updateFocus] is idempotent: a second call with the same focus
    changes nothing, and a call with the focus the scheduler already has
    changes nothing at all.  After a call [getFocusState] returns the focus
    that was passed, whatever the call did to the alerts. *)
Theorem X1_updateFocus_idempotent (focus : FocusState) (s : AlertScheduler) :
  exec (updateFocus focus) (exec (updateFocus focus) s)
  = exec (updateFocus focus) s
  ∧ getFocusState (exec (updateFocus focus) s)
    = (focus, exec (updateFocus focus) s)
  ∧ updateFocus (m_focusState s) s = (tt, s).
Proof.
  split_and!.
  - unfold exec at 1. by rewrite updateFocus_same by apply updateFocus_focus.
  - unfold getFocusState, get. by rewrite updateFocus_focus.
  - by apply updateFocus_same.
Qed.

Lemma getAllAlerts_shape (s : AlertScheduler) :
  getAllAlerts s = (m_scheduledAlerts s ++ option_list (m_activeAlert s), s).
Proof. done. Qed.

(** X2: a focus change never loses or adds an alert (the tokens that
    [getAllAlerts] lists are the same, up to order), never touches the
    storage or the timer and never empties the active slot.  It enqueues one
    notification, FocusEntered for the active alert, exactly when the focus
    changes to the foreground or the background while an alert is active;
    promoting a scheduled alert and losing the focus enqueue none. *)
Theorem X2_updateFocus_conserves (focus : FocusState) (s : AlertScheduler) :
  let s' := exec (updateFocus focus) s in
  m_alertStorage s' = m_alertStorage s
  ∧ m_scheduledAlertTimer s' = m_scheduledAlertTimer s
  ∧ AlertSet.tokens (result getAllAlerts s')
    ≡ₚ AlertSet.tokens (result getAllAlerts s)
  ∧ (is_Some (m_activeAlert s) →
     is_Some (m_activeAlert s') ∧ m_scheduledAlerts s' = m_scheduledAlerts s)
  ∧ m_executor s'
    = m_executor s ++
      (if decide (m_focusState s = focus) then []
       else match m_activeAlert s with
            | Some a => focusEnteredFor focus a
            | None => []
            end).
Proof.
  intros s'. subst s'. unfold result. rewrite !getAllAlerts_shape. cbn [fst].
  destruct (decide (m_focusState s = focus)) as [E|E].
  { unfold exec. rewrite updateFocus_same by done. cbn [snd].
    by rewrite app_nil_r. }
  rewrite updateFocus_changed by done.
  destruct s as [o db f [a|] sch tm q obs calls down]; cbn [m_activeAlert].
  - assert (is_Some (Some a) → True) as _ by done.
    destruct focus; rewrite ?deactivate_shape; simpl; rewrite ?app_nil_r;
      split_and!; eauto.
    all: unfold AlertSet.tokens; by rewrite !fmap_app.
  - assert (∀ P : Prop, is_Some (@None Alert.t) → P) as Hno
      by (by intros P [? ?]).
    destruct focus; rewrite ?deactivate_shape, ?activateNext_shape;
      destruct sch as [|first rest]; simpl; rewrite ?app_nil_r;
      split_and!; eauto.
    all: unfold AlertSet.tokens; rewrite ?fmap_app; simpl; try done.
    all: by rewrite Permutation_app_comm.
Qed.

(** X3: when the focus changes to the foreground or the background while no
    alert is active, the first alert of the scheduled set is promoted: it
    leaves the set and fills the active slot, with the new focus, and is asked
    to activate.  In a set in comparator order it is the earliest alert.
    From then on [isAlertActive] answers yes for its token and no for every
    other. *)
Theorem X3_updateFocus_promotes_earliest (focus : FocusState)
    (s : AlertScheduler) (first : Alert.t) (rest : list Alert.t) :
  AlertSet.sorted (m_scheduledAlerts s) →
  m_activeAlert s = None →
  m_scheduledAlerts s = first :: rest →
  focus ≠ NONE →
  m_focusState s ≠ focus →
  let s' := exec (updateFocus focus) s in
  m_activeAlert s' = Some (Alert.activate (Alert.setFocusState focus first))
  ∧ m_scheduledAlerts s' = rest
  ∧ alertCalls s' = alertCalls s ++ [Activate (Alert.getToken first)]
  ∧ (∀ b, b ∈ rest → Alert.lessThan first b = true)
  ∧ (∀ a, isAlertActive a s'
          = (String.eqb (Alert.getToken first) (Alert.getToken a), s')).
Proof.
  intros Hsorted Hact Hsch Hfocus Hchange s'. subst s'.
  rewrite updateFocus_changed by done. rewrite Hact.
  assert (match focus with
          | NONE =>
              exec (deactivateActiveAlertHelperLocked Alert.LOCAL_STOP)
                (withFocus focus s)
          | _ => exec activateNextAlertLocked (withFocus focus s)
          end = exec activateNextAlertLocked (withFocus focus s)) as ->
    by (by destruct focus).
  rewrite activateNext_shape. cbn [withFocus m_activeAlert m_scheduledAlerts
    m_focusState]. rewrite Hact, Hsch.
  split_and!; [done..| |].
  - unfold AlertSet.sorted in Hsorted. rewrite Hsch in Hsorted.
    apply StronglySorted_inv in Hsorted as [_ Hall].
    intros b Hb. by eapply Forall_forall in Hall.
  - intros a. unfold isAlertActive. unfold_monad. simpl.
    by destruct (String.eqb _ _).
Qed.

Lemma X3_witness :
  AlertSet.sorted (m_scheduledAlerts oneScheduled)
  ∧ m_activeAlert (exec (updateFocus FOREGROUND) oneScheduled)
    = Some (Alert.activate (Alert.setFocusState FOREGROUND boundA))
  ∧ m_scheduledAlerts (exec (updateFocus FOREGROUND) oneScheduled) = [].
Proof.
  assert (AlertSet.sorted (m_scheduledAlerts oneScheduled)) as Hsorted
    by (vm_compute; repeat constructor).
  destruct (X3_updateFocus_promotes_earliest FOREGROUND oneScheduled boundA []
              Hsorted eq_refl eq_refl ltac:(discriminate) ltac:(discriminate))
    as (H1 & H2 & _).
  split_and!; [exact Hsorted | exact H1 | exact H2].
Defined.

(** X4: [getContextInfo] and [getAllAlerts] are read-only and agree: the
    scheduled list of the context holds the context of every alert that
    [getAllAlerts] returns, in the same order: the scheduled alerts in
    comparator order, then the active alert.  The active alert is therefore
    listed twice, last in the scheduled list and alone in the active list. *)
Theorem X4_getContextInfo_lists (ContextInfo : Type)
    (info : Alert.t → ContextInfo) (s : AlertScheduler) :
  let ctx := result (getContextInfo ContextInfo info) s in
  exec (getContextInfo ContextInfo info) s = s
  ∧ exec getAllAlerts s = s
  ∧ scheduledAlerts ctx = info <$> result getAllAlerts s
  ∧ activeAlerts ctx = info <$> option_list (m_activeAlert s)
  ∧ scheduledAlerts ctx
    = (info <$> m_scheduledAlerts s) ++ activeAlerts ctx.
Proof.
  unfold getContextInfo, getAllAlerts. unfold_monad.
  destruct s as [o db f [a|] sch tm q obs calls down]; simpl;
    rewrite ?fmap_app, ?app_nil_r; by split_and!.
Qed.

(** ** Snoozing, and the events of the alerts *)

(** A lookup by token finds an alert that was inserted with a token the set
    did not hold. *)
Lemma find_insert_fresh (a : Alert.t) (l : list Alert.t) :
  Alert.getToken a ∉ AlertSet.tokens l →
  find (λ alert, String.eqb (Alert.getToken a) (Alert.getToken alert))
    (AlertSet.insert a l) = Some a.
Proof.
  unfold AlertSet.tokens. induction l as [|b l IH]; simpl.
  - intros _. by rewrite String.eqb_refl.
  - intros [Hne Hl]%not_elem_of_cons.
    destruct (Alert.lessThan a b) eqn:E1; simpl.
    { by rewrite String.eqb_refl. }
    destruct (Alert.lessThan b a) eqn:E2; simpl.
    + destruct (String.eqb_spec (Alert.getToken a) (Alert.getToken b));
        [done | by apply IH].
    + exfalso. apply Hne, equiv_token. unfold AlertSet.equiv.
      by rewrite E1, E2.
Qed.

Lemma snoozeAlert_shape (convert : string → option Z) (tok time : string)
    (s : AlertScheduler) :
  snoozeAlert convert tok time s
  = match m_activeAlert s with
    | Some a =>
        if String.eqb (Alert.getToken a) tok
        then (true,
              withAlertCalls (alertCalls s ++ [Snooze tok time])
                (withActive (Some (Alert.snooze convert time a)) s))
        else (false, s)
    | None => (false, s)
    end.
Proof.
  unfold snoozeAlert. unfold_monad.
  destruct s as [o db f [a|] sch tm q obs calls down]; simpl; [|done].
  by destruct (String.eqb _ _).
Qed.

(** The Snoozed branch of [executeOnAlertStateChange]. *)
Lemma snoozed_shape (env : Env) (n : Notification) (s : AlertScheduler)
    (a : Alert.t) :
  alertState n = AlertObserverInterface.SNOOZED →
  m_activeAlert s = Some a →
  executeOnAlertStateChange env n s
  = Some (exec (setTimerForNextAlertLocked env)
            (withExecutor (m_executor s ++ [ExecuteNotifyObserver n])
               (withActive None
                  (withScheduled (AlertSet.insert a (m_scheduledAlerts s))
                     (withStorage
                        (AlertStorage.modify (storageFails env) a
                           (m_alertStorage s)).2 s))))).
Proof.
  intros Hst Hact. unfold executeOnAlertStateChange. rewrite Hst, Hact.
  f_equal. unfold exec. rewrite !bind_exec.
  pose proof notifyObserver_shape as Hn. unfold exec in Hn.
  unfold callStorage at 1. destruct (AlertStorage.modify _ _ _) as [ok db'] eqn:E.
  cbn [fst snd]. unfold insertScheduled. cbn [modify fst snd].
  specialize (Hn n). rewrite Hst in Hn. by rewrite Hn.
Qed.

(** X5: [snoozeAlert] succeeds exactly when the token is that of the active
    alert; otherwise it returns failure and changes nothing.  When it
    succeeds the alert stays in the active slot: the scheduled set, the
    storage, the timer and the pending notifications are as before. *)
Theorem X5_snoozeAlert_only_active (convert : string → option Z)
    (tok time : string) (s : AlertScheduler) :
  let s' := exec (snoozeAlert convert tok time) s in
  result (snoozeAlert convert tok time) s
  = activeHasToken (m_activeAlert s) tok
  ∧ (activeHasToken (m_activeAlert s) tok = false → s' = s)
  ∧ (is_Some (m_activeAlert s') ↔ is_Some (m_activeAlert s))
  ∧ m_scheduledAlerts s' = m_scheduledAlerts s
  ∧ m_alertStorage s' = m_alertStorage s
  ∧ m_scheduledAlertTimer s' = m_scheduledAlertTimer s
  ∧ m_executor s' = m_executor s.
Proof.
  unfold exec, result. rewrite snoozeAlert_shape.
  destruct (m_activeAlert s) as [a|] eqn:Ea; simpl; [|by rewrite Ea].
  destruct (String.eqb _ _); simpl; rewrite ?Ea; by split_and!.
Qed.

(** X6: the round trip of a snooze.  After [snoozeAlert] on the active
    alert, the Snoozed event of the alert (the handler does not look at the
    token of the event) asks the storage to modify the row, puts the alert,
    with its new time, into the scheduled set, empties the active slot,
    forwards the event and then re-arms the timer: the state it leaves is the
    one [setTimerForNextAlertLocked] makes of these changes.  The set then
    holds the token; and when no other scheduled alert has the token, a
    lookup by token finds the snoozed alert. *)
Theorem X6_snooze_round_trip (convert : string → option Z) (env : Env)
    (tok time : string) (unix : Z) (n : Notification) (s : AlertScheduler)
    (a : Alert.t) :
  m_activeAlert s = Some a →
  Alert.getToken a = tok →
  convert time = Some unix →
  alertState n = AlertObserverInterface.SNOOZED →
  let snoozed := Alert.withState Alert.SNOOZING (Alert.withTime time unix a) in
  result (snoozeAlert convert tok time) s = true
  ∧ ∃ s',
      executeOnAlertStateChange env n (exec (snoozeAlert convert tok time) s)
      = Some s'
      ∧ s' = exec (setTimerForNextAlertLocked env)
               (withExecutor (m_executor s ++ [ExecuteNotifyObserver n])
                  (withActive None
                     (withScheduled
                        (AlertSet.insert snoozed (m_scheduledAlerts s))
                        (withStorage
                           (AlertStorage.modify (storageFails env) snoozed
                              (m_alertStorage s)).2
                           (withAlertCalls
                              (alertCalls s ++ [Snooze tok time]) s)))))
      ∧ m_activeAlert s' = None
      ∧ m_scheduledAlerts s' = AlertSet.insert snoozed (m_scheduledAlerts s)
      ∧ tok ∈ AlertSet.tokens (m_scheduledAlerts s')
      ∧ (tok ∉ AlertSet.tokens (m_scheduledAlerts s) →
         getAlertLocked tok s' = (Some snoozed, s'))
      ∧ m_alertStorage s'
        = (AlertStorage.modify (storageFails env) snoozed (m_alertStorage s)).2
      ∧ ∃ ready,
          m_executor s' = m_executor s ++ ExecuteNotifyObserver n :: ready.
Proof.
  intros Hact Htok Hconv Hst snoozed.
  unfold exec at 1, result. rewrite snoozeAlert_shape, Hact.
  rewrite <- Htok, String.eqb_refl. cbn [fst snd]. split; [done|].
  assert (Alert.snooze convert time a = snoozed) as ->
    by (unfold Alert.snooze; by rewrite Hconv).
  erewrite snoozed_shape by (first [exact Hst | reflexivity]).
  eexists. split; [reflexivity|]. split; [by destruct s|].
  match goal with
  | |- context [exec (setTimerForNextAlertLocked env) ?s0] =>
      destruct (setTimer_shape env s0) as (t & q & -> & _ & _)
  end.
  cbn [withExecutor withTimer withActive withScheduled withStorage
    withAlertCalls m_activeAlert m_scheduledAlerts m_alertStorage m_executor].
  split_and!; [done | done | | | done |].
  - apply tokens_insert_elem. by left.
  - intros Hfresh. unfold getAlertLocked. unfold_monad. cbn.
    f_equal. change (Alert.getToken a) with (Alert.getToken snoozed).
    by apply find_insert_fresh.
  - exists q. by rewrite <- app_assoc.
Qed.

Lemma X6_witness :
  m_activeAlert dueActive
  = Some (Alert.activate
            (Alert.setFocusState FOREGROUND
               (Alert.setObserver (Alert.setRenderer (alarm "B" "0" 0)))))
  ∧ secondsOfDigits "200" = Some 200
  ∧ result (snoozeAlert secondsOfDigits "B" "200") dueActive = true.
Proof.
  split_and!; [reflexivity | reflexivity |].
  exact (proj1 (X6_snooze_round_trip secondsOfDigits (calm 0) "B" "200" 200
                  snoozedB dueActive _ eq_refl eq_refl eq_refl eq_refl)).
Defined.

(** X7: the events the scheduler drops.  PastDue, FocusEnteredForeground,
    FocusEnteredBackground and Deleted are states the scheduler itself
    generates: when an alert reports one, the handler changes nothing and
    forwards nothing.  The same happens to a Started event when no alert is
    active or the active alert is not in the Activating state. *)
Theorem X7_dropped_events (env : Env) (n : Notification) (s : AlertScheduler) :
  alertState n = AlertObserverInterface.PAST_DUE
  ∨ alertState n = AlertObserverInterface.FOCUS_ENTERED_FOREGROUND
  ∨ alertState n = AlertObserverInterface.FOCUS_ENTERED_BACKGROUND
  ∨ alertState n = AlertObserverInterface.DELETED
  ∨ (alertState n = AlertObserverInterface.STARTED
     ∧ ∀ a, m_activeAlert s = Some a → Alert.getState a ≠ Alert.ACTIVATING) →
  executeOnAlertStateChange env n s = Some s.
Proof.
  unfold executeOnAlertStateChange.
  intros [->|[->|[->|[->|[-> Hact]]]]]; try done.
  destruct (m_activeAlert s) as [a|]; [|done].
  destruct (decide _) as [E|E]; [|done]. by destruct (Hact a eq_refl).
Qed.

Lemma X7_witness :
  executeOnAlertStateChange (calm 0)
    {| alertToken := "A"; alertType := "ALARM";
       alertState := AlertObserverInterface.STARTED; alertReason := "" |}
    oneScheduled
  = Some oneScheduled.
Proof.
  apply X7_dropped_events. do 4 right. split; [reflexivity|].
  intros a Ha. vm_compute in Ha. discriminate.
Defined.

(** X8: a Started event while the active alert is Activating makes it
    Active, whatever token the event names; the event is forwarded, the
    scheduled set and the timer are untouched, and [isAlertActive] still
    answers yes.  The storage is asked to modify the row; when that fails the
    failure is ignored: the alert is Active in memory and the event is
    forwarded all the same. *)
Theorem X8_started_activates (env : Env) (n : Notification)
    (s : AlertScheduler) (a : Alert.t) :
  alertState n = AlertObserverInterface.STARTED →
  m_activeAlert s = Some a →
  Alert.getState a = Alert.ACTIVATING →
  ∃ s',
    executeOnAlertStateChange env n s = Some s'
    ∧ m_activeAlert s' = Some (Alert.setStateActive a)
    ∧ m_executor s' = m_executor s ++ [ExecuteNotifyObserver n]
    ∧ m_scheduledAlerts s' = m_scheduledAlerts s
    ∧ m_scheduledAlertTimer s' = m_scheduledAlertTimer s
    ∧ result (isAlertActive a) s' = true
    ∧ m_alertStorage s'
      = (if storageFails env (AlertStorage.Modify (Alert.getToken a))
         then m_alertStorage s
         else alter (λ _, Alert.setStateActive a) (Alert.getToken a)
                (m_alertStorage s)).
Proof.
  intros Hst Hact Hactivating. unfold executeOnAlertStateChange.
  rewrite Hst, Hact. destruct (decide _) as [_|E]; [|done].
  eexists. split; [reflexivity|].
  unfold exec. rewrite !bind_exec.
  pose proof (notifyObserver_shape n) as Hn. rewrite Hst in Hn.
  unfold exec in Hn. rewrite Hn.
  unfold isAlertActive, AlertStorage.modify. unfold_monad.
  destruct s as [o db f act sch tm q obs calls down]. simpl in *. subst act.
  simpl. destruct (storageFails env _); simpl;
    rewrite String.eqb_refl; by split_and!.
Qed.

Lemma X8_witness :
  m_activeAlert oneActive
  = Some (Alert.activate (Alert.setFocusState FOREGROUND boundA))
  ∧ ∃ s',
      executeOnAlertStateChange (calm 0)
        {| alertToken := "Z"; alertType := "ALARM";
           alertState := AlertObserverInterface.STARTED; alertReason := "" |}
        oneActive = Some s'
      ∧ m_activeAlert s'
        = Some (Alert.setStateActive
                  (Alert.activate (Alert.setFocusState FOREGROUND boundA))).
Proof.
  split; [reflexivity|].
  destruct (X8_started_activates (calm 0)
              {| alertToken := "Z"; alertType := "ALARM";
                 alertState := AlertObserverInterface.STARTED;
                 alertReason := "" |}
              oneActive _ eq_refl eq_refl eq_refl) as (s' & H1 & H2 & _).
  exists s'. by split.
Defined.

(** X9: an Error event removes the alert it names from memory: the active
    alert when it has the token (the slot is emptied), else the scheduled
    alert with the token; the storage is asked to erase its row, and the
    alert leaves memory whether or not the row was erased.  The event is
    always forwarded, after the Deleted notification of the erased row; for a
    token that names no alert, forwarding it is all that happens. *)
Theorem X9_error_removes (env : Env) (n : Notification) (s : AlertScheduler) :
  alertState n = AlertObserverInterface.ERROR →
  ∃ s',
    executeOnAlertStateChange env n s = Some s'
    ∧ (∃ before, m_executor s' = m_executor s ++ before ++ [ExecuteNotifyObserver n])
    ∧ (activeHasToken (m_activeAlert s) (alertToken n) = true →
       m_activeAlert s' = None ∧ m_scheduledAlerts s' = m_scheduledAlerts s)
    ∧ (activeHasToken (m_activeAlert s) (alertToken n) = false →
       m_activeAlert s' = m_activeAlert s
       ∧ ∀ a, matchedAlert s (alertToken n) = Some a →
              m_scheduledAlerts s' = AlertSet.erase a (m_scheduledAlerts s)
              ∧ a ∉ m_scheduledAlerts s')
    ∧ (∀ a, matchedAlert s (alertToken n) = Some a →
         m_alertStorage s'
         = (AlertStorage.erase (storageFails env) a (m_alertStorage s)).2)
    ∧ (matchedAlert s (alertToken n) = None →
       s' = withExecutor (m_executor s ++ [ExecuteNotifyObserver n]) s).
Proof.
  intros Hst. rewrite error_shape by done. eexists. split; [reflexivity|].
  unfold matchedAlert.
  destruct (activeHasToken (m_activeAlert s) (alertToken n)) eqn:Hact.
  - destruct (m_activeAlert s) as [a|] eqn:Ea; [|done].
    match goal with
    | |- context [exec (setTimerForNextAlertLocked env) ?s0] =>
        destruct (setTimer_shape env s0) as (t & q & -> & _ & _)
    end.
    rewrite eraseAlert_Some. unfold AlertStorage.erase.
    destruct (storageFails env (AlertStorage.Erase (Alert.getToken a)))
      eqn:Hf; simpl; (split_and!; try done).
    + exists q. by rewrite app_assoc.
    + intros b [= <-]. by rewrite Hf.
    + exists (deletedFor a :: q). by rewrite <- !app_assoc.
    + intros b [= <-]. by rewrite Hf.
  - destruct (find _ _) as [a|] eqn:Ef.
    + match goal with
      | |- context [exec (setTimerForNextAlertLocked env) ?s0] =>
          destruct (setTimer_shape env s0) as (t & q & -> & _ & _)
      end.
      rewrite eraseAlert_Some. unfold AlertStorage.erase, eraseScheduled.
      unfold_monad.
      destruct (storageFails env (AlertStorage.Erase (Alert.getToken a)))
        eqn:Hf; simpl; (split_and!; try done).
      * exists q. by rewrite app_assoc.
      * intros _. split; [done|]. intros b [= <-].
        split; [done | apply erase_not_elem].
      * intros b [= <-]. by rewrite Hf.
      * exists (deletedFor a :: q). by rewrite <- !app_assoc.
      * intros _. split; [done|]. intros b [= <-].
        split; [done | apply erase_not_elem].
      * intros b [= <-]. by rewrite Hf.
    + simpl. split_and!; try done. by exists [].
Qed.

Lemma X9_witness :
  ∃ s',
    executeOnAlertStateChange (calm 0)
      {| alertToken := "A"; alertType := "ALARM";
         alertState := AlertObserverInterface.ERROR; alertReason := "" |}
      oneScheduled = Some s'
    ∧ m_activeAlert s' = m_activeAlert oneScheduled.
Proof.
  destruct (X9_error_removes (calm 0)
              {| alertToken := "A"; alertType := "ALARM";
                 alertState := AlertObserverInterface.ERROR;
                 alertReason := "" |}
              oneScheduled eq_refl) as (s' & H1 & _ & _ & H2 & _).
  exists s'. split; [exact H1|]. exact (proj1 (H2 eq_refl)).
Defined.

(** X10: deleting the active alert takes effect in two stages.
    [deleteAlert] only asks the alert to stop (AVS_STOP): the alert stays in
    the active slot, its row stays in the storage and no notification is
    enqueued.  When the Stopped (or Completed) event of the alert is
    dispatched, the slot is emptied and, the storage willing, the row is
    erased and Deleted is enqueued after the forwarded event. *)
Theorem X10_delete_active_in_two_stages (env env' : Env) (tok : string)
    (n : Notification) (s : AlertScheduler) (a : Alert.t) :
  m_activeAlert s = Some a →
  Alert.getToken a = tok →
  alertState n = AlertObserverInterface.STOPPED
  ∨ alertState n = AlertObserverInterface.COMPLETED →
  let s1 := exec (deleteAlert env tok) s in
  m_activeAlert s1 = Some (Alert.deactivate Alert.AVS_STOP a)
  ∧ m_alertStorage s1 = m_alertStorage s
  ∧ m_scheduledAlerts s1 = m_scheduledAlerts s
  ∧ m_scheduledAlertTimer s1 = m_scheduledAlertTimer s
  ∧ m_executor s1 = m_executor s
  ∧ alertCalls s1 = alertCalls s ++ [Deactivate tok Alert.AVS_STOP]
  ∧ ∃ s2,
      executeOnAlertStateChange env' n s1 = Some s2
      ∧ m_activeAlert s2 = None
      ∧ m_scheduledAlerts s2 = m_scheduledAlerts s
      ∧ (storageFails env' (AlertStorage.Erase tok) = false →
         m_alertStorage s2 = delete tok (m_alertStorage s)
         ∧ ∃ ready,
             m_executor s2
             = m_executor s ++ [ExecuteNotifyObserver n; deletedFor a] ++ ready).
Proof.
  intros Hact Htok Hst s1. subst s1. unfold exec at 1 2 3 4 5 6 7.
  rewrite deleteAlert_active
    by (rewrite Hact; simpl; rewrite Htok; apply String.eqb_refl).
  cbn [snd]. rewrite deactivate_shape, Hact, Htok.
  split_and!; [done..|].
  rewrite executeOnAlertStateChange_finish by done.
  eexists. split; [reflexivity|]. rewrite finish_shape.
  match goal with
  | |- context [exec (setTimerForNextAlertLocked env') ?s0] =>
      destruct (setTimer_shape env' s0) as (t & q & -> & _ & _)
  end.
  cbn [withAlertCalls withActive withExecutor m_activeAlert].
  rewrite eraseAlert_Some. change (Alert.getToken (Alert.deactivate _ a))
    with (Alert.getToken a). rewrite Htok.
  destruct (storageFails env' (AlertStorage.Erase tok)); simpl;
    split_and!; try done.
  intros _. split; [done|]. exists q.
  unfold deletedFor. simpl. by rewrite <- !app_assoc.
Qed.

Lemma X10_witness :
  m_activeAlert dueActive
  = Some (Alert.activate
            (Alert.setFocusState FOREGROUND
               (Alert.setObserver (Alert.setRenderer (alarm "B" "0" 0)))))
  ∧ m_alertStorage (exec (deleteAlert (calm 0) "B") dueActive)
    = m_alertStorage dueActive.
Proof.
  split; [reflexivity|].
  exact (proj1 (proj2 (X10_delete_active_in_two_stages (calm 0) (calm 0) "B"
                         stoppedZ dueActive _ eq_refl eq_refl
                         (or_introl eq_refl)))).
Defined.

(** ** Scheduling, deleting and clearing *)

Lemma erase_fresh (a : Alert.t) (l : list Alert.t) :
  Alert.getToken a ∉ AlertSet.tokens l → AlertSet.erase a l = l.
Proof.
  unfold AlertSet.tokens. induction l as [|b l IH]; simpl; [done|].
  intros [Hne Hl]%not_elem_of_cons.
  destruct (AlertSet.equiv a b) eqn:E.
  - by apply equiv_token in E.
  - f_equal. by apply IH.
Qed.

(** Inserting an alert with a token the set does not hold, then erasing it,
    gives the set back. *)
Lemma erase_insert_fresh (a : Alert.t) (l : list Alert.t) :
  Alert.getToken a ∉ AlertSet.tokens l →
  AlertSet.erase a (AlertSet.insert a l) = l.
Proof.
  unfold AlertSet.tokens. induction l as [|b l IH]; simpl.
  - intros _. by rewrite equiv_refl.
  - intros [Hne Hl]%not_elem_of_cons.
    assert (AlertSet.equiv a b = false) as Eab.
    { destruct (AlertSet.equiv a b) eqn:E; [|done].
      by apply equiv_token in E. }
    destruct (Alert.lessThan a b) eqn:E1; simpl.
    + rewrite equiv_refl, Eab. f_equal. by apply erase_fresh.
    + destruct (Alert.lessThan b a) eqn:E2; simpl.
      * rewrite Eab. f_equal. by apply IH.
      * unfold AlertSet.equiv in Eab. by rewrite E1, E2 in Eab.
Qed.

(** The timer that [setTimerForNextAlertLocked] leaves depends on the active
    slot and the scheduled set only. *)
Lemma setTimer_timer (env : Env) (s1 s2 : AlertScheduler) :
  m_activeAlert s1 = m_activeAlert s2 →
  m_scheduledAlerts s1 = m_scheduledAlerts s2 →
  m_scheduledAlertTimer (exec (setTimerForNextAlertLocked env) s1)
  = m_scheduledAlertTimer (exec (setTimerForNextAlertLocked env) s2).
Proof.
  unfold setTimerForNextAlertLocked. unfold_monad.
  destruct s1 as [o1 db1 f1 act1 sch1 tm1 q1 obs1 calls1 down1].
  destruct s2 as [o2 db2 f2 act2 sch2 tm2 q2 obs2 calls2 down2]. simpl.
  intros -> ->.
  destruct tm1, tm2; simpl; destruct act2; simpl; try done;
    destruct sch2; simpl; try done;
    destruct (getCurrentUnixTime env); simpl; try done;
    by match goal with
       | |- context [if ?c =? 0 then _ else _] => destruct (c =? 0)
       end.
Qed.

(** [scheduleAlert] for a token that the scheduled set does not hold. *)
Lemma scheduleAlert_new_shape (convert : string → option Z) (limit : Z)
    (env : Env) (alert : Alert.t) (s : AlertScheduler) :
  Alert.getToken alert ∉ AlertSet.tokens (m_scheduledAlerts s) →
  scheduleAlert convert limit env alert s
  = match getCurrentUnixTime env with
    | None => (false, s)
    | Some now =>
        if Alert.isPastDue alert now limit then (false, s)
        else if storageFails env (AlertStorage.Store (Alert.getToken alert))
        then (false, s)
        else match m_alertStorage s !! Alert.getToken alert with
             | Some _ => (false, s)
             | None =>
                 let s1 :=
                   withScheduled
                     (AlertSet.insert
                        (Alert.setObserver (Alert.setRenderer alert))
                        (m_scheduledAlerts s))
                     (withStorage
                        (<[Alert.getToken alert := alert]> (m_alertStorage s))
                        s) in
                 (true,
                  if m_activeAlert s is Some _ then s1
                  else exec (setTimerForNextAlertLocked env) s1)
             end
    end.
Proof.
  intros Hfresh%find_token_None. unfold scheduleAlert.
  destruct (getCurrentUnixTime env) as [now|]; [|done].
  destruct (Alert.isPastDue alert now limit); [done|].
  unfold getAlertLocked. rewrite !bind_exec. cbn [get ret fst snd].
  rewrite Hfresh. rewrite bind_exec.
  unfold callStorage at 1 2, AlertStorage.store.
  destruct (storageFails env _); cbn [fst snd negb].
  { by rewrite withStorage_same. }
  destruct (m_alertStorage s !! Alert.getToken alert); cbn [fst snd negb].
  { by rewrite withStorage_same. }
  rewrite !bind_exec. cbn [get ret fst snd]. unfold insertScheduled.
  cbn [modify fst snd withScheduled withStorage m_activeAlert
    m_scheduledAlerts]. unfold exec.
  by destruct (m_activeAlert s).
Qed.

Lemma getAlertLocked_shape (tok : string) (s : AlertScheduler) :
  getAlertLocked tok s
  = (find (λ alert, String.eqb tok (Alert.getToken alert)) (m_scheduledAlerts s),
     s).
Proof. done. Qed.

(** X11: [scheduleAlert] for a token that the scheduled set does not hold.
    A call that fails (clock unreadable, alert past due, row not stored)
    leaves no trace.  A call that succeeds has stored the row, inserted the
    alert with renderer and observer bound, where a lookup by token finds
    it, and left the active slot alone; while an alert is active it neither
    touches the timer nor enqueues anything, however early the new alert
    is. *)
Theorem X11_scheduleAlert_new (convert : string → option Z) (limit : Z)
    (env : Env) (alert : Alert.t) (s : AlertScheduler) :
  Alert.getToken alert ∉ AlertSet.tokens (m_scheduledAlerts s) →
  let s' := exec (scheduleAlert convert limit env alert) s in
  let stored := Alert.setObserver (Alert.setRenderer alert) in
  (result (scheduleAlert convert limit env alert) s = false → s' = s)
  ∧ (result (scheduleAlert convert limit env alert) s = true →
     m_scheduledAlerts s' = AlertSet.insert stored (m_scheduledAlerts s)
     ∧ getAlertLocked (Alert.getToken alert) s' = (Some stored, s')
     ∧ m_alertStorage s !! Alert.getToken alert = None
     ∧ m_alertStorage s' = <[Alert.getToken alert := alert]> (m_alertStorage s)
     ∧ m_activeAlert s' = m_activeAlert s
     ∧ (is_Some (m_activeAlert s) →
        m_scheduledAlertTimer s' = m_scheduledAlertTimer s
        ∧ m_executor s' = m_executor s)).
Proof.
  intros Hfresh s' stored. subst s'.
  pose proof (scheduleAlert_new_shape convert limit env alert s Hfresh) as E.
  cbv zeta in E. fold stored in E.
  destruct (getCurrentUnixTime env) as [now|];
    [|unfold exec, result; by rewrite E].
  destruct (Alert.isPastDue alert now limit);
    [unfold exec, result; by rewrite E|].
  destruct (storageFails env _); [unfold exec, result; by rewrite E|].
  destruct (m_alertStorage s !! Alert.getToken alert) eqn:Erow;
    [unfold exec, result; by rewrite E|].
  assert (∃ t q,
    (scheduleAlert convert limit env alert s).2
    = withExecutor (m_executor s ++ q)
        (withTimer t
           (withScheduled (AlertSet.insert stored (m_scheduledAlerts s))
              (withStorage
                 (<[Alert.getToken alert := alert]> (m_alertStorage s)) s)))
    ∧ (is_Some (m_activeAlert s) → t = m_scheduledAlertTimer s ∧ q = []))
    as (t & q & E' & Hidle).
  { rewrite E. cbn [snd]. destruct (m_activeAlert s) as [a|].
    - exists (m_scheduledAlertTimer s), []. split; [|done].
      destruct s; simpl. unfold withExecutor; simpl. by rewrite app_nil_r.
    - match goal with
      | |- context [exec (setTimerForNextAlertLocked env) ?s0] =>
          destruct (setTimer_shape env s0) as (t & q & -> & _ & _)
      end.
      exists t, q. split; [done | by intros [? ?]]. }
  unfold exec, result. rewrite E'. rewrite E. cbn [fst].
  split; [done|]. intros _. rewrite getAlertLocked_shape.
  cbn [withScheduled withStorage withExecutor withTimer m_activeAlert
    m_alertStorage m_scheduledAlertTimer m_executor m_scheduledAlerts].
  change (Alert.getToken alert) with (Alert.getToken stored) at 1.
  rewrite find_insert_fresh by done.
  split_and!; try done.
  intros Hact. destruct (Hidle Hact) as [-> ->]. by rewrite app_nil_r.
Qed.

Lemma X11_witness :
  (Alert.getToken (alarm "A" "100" 100)
   ∉ AlertSet.tokens (m_scheduledAlerts (newScheduler ∅)))
  ∧ getAlertLocked "A"
      (exec (scheduleAlert secondsOfDigits 30 (calm 0) (alarm "A" "100" 100))
         (newScheduler ∅))
    = (Some boundA,
       exec (scheduleAlert secondsOfDigits 30 (calm 0) (alarm "A" "100" 100))
         (newScheduler ∅)).
Proof.
  assert (Alert.getToken (alarm "A" "100" 100)
          ∉ AlertSet.tokens (m_scheduledAlerts (newScheduler ∅))) as Hfresh
    by apply not_elem_of_nil.
  split; [exact Hfresh|].
  destruct (X11_scheduleAlert_new secondsOfDigits 30 (calm 0)
              (alarm "A" "100" 100) (newScheduler ∅) Hfresh) as [_ H].
  exact (proj1 (proj2 (H eq_refl))).
Defined.

(** [scheduleAlert] for a token that the scheduled set holds. *)
Lemma scheduleAlert_old_shape (convert : string → option Z) (limit : Z)
    (env : Env) (alert old : Alert.t) (s : AlertScheduler) :
  find (λ a, String.eqb (Alert.getToken alert) (Alert.getToken a))
    (m_scheduledAlerts s) = Some old →
  scheduleAlert convert limit env alert s
  = match getCurrentUnixTime env with
    | None => (false, s)
    | Some now =>
        if Alert.isPastDue alert now limit then (false, s)
        else updateAlert convert env old
               (Alert.getScheduledTime_ISO_8601 alert) s
    end.
Proof.
  intros Hfind. unfold scheduleAlert.
  destruct (getCurrentUnixTime env) as [now|]; [|done].
  destruct (Alert.isPastDue alert now limit); [done|].
  rewrite bind_exec, getAlertLocked_shape. cbn [fst snd]. by rewrite Hfind.
Qed.

Lemma insert_fresh_NoDup (a : Alert.t) (l : list Alert.t) :
  Alert.getToken a ∉ AlertSet.tokens l →
  NoDup (AlertSet.tokens l) →
  NoDup (AlertSet.tokens (AlertSet.insert a l)).
Proof.
  intros Hfresh Hnd. rewrite tokens_insert_perm by done. by constructor.
Qed.

(** X12: scheduling, then looking up.  On a scheduled set without duplicate
    tokens, after a [scheduleAlert] that returned success a lookup by the
    alert's token finds an alert with that token and with the scheduled time
    (the ISO-8601 string) that was asked for, whether the call inserted a
    new alert or updated the one the set held; and the set is still without
    duplicate tokens. *)
Theorem X12_schedule_then_lookup (convert : string → option Z) (limit : Z)
    (env : Env) (alert : Alert.t) (s : AlertScheduler) :
  NoDup (AlertSet.tokens (m_scheduledAlerts s)) →
  result (scheduleAlert convert limit env alert) s = true →
  let s' := exec (scheduleAlert convert limit env alert) s in
  NoDup (AlertSet.tokens (m_scheduledAlerts s'))
  ∧ ∃ found,
      getAlertLocked (Alert.getToken alert) s' = (Some found, s')
      ∧ Alert.getToken found = Alert.getToken alert
      ∧ Alert.getScheduledTime_ISO_8601 found
        = Alert.getScheduledTime_ISO_8601 alert.
Proof.
  intros Hnd Hok s'. subst s'. unfold result, exec in *.
  rewrite getAlertLocked_shape.
  destruct (find (λ a, String.eqb (Alert.getToken alert) (Alert.getToken a))
              (m_scheduledAlerts s)) as [old|] eqn:Hfind.
  - pose proof (find_token_Some _ _ _ Hfind) as [Hin Htok].
    rewrite (scheduleAlert_old_shape _ _ _ _ old) in * by done.
    destruct (getCurrentUnixTime env) as [now|]; [|done].
    destruct (Alert.isPastDue alert now limit); [done|].
    rewrite updateAlert_shape in *.
    destruct (convert (Alert.getScheduledTime_ISO_8601 alert)) as [unix|];
      [|done].
    cbv zeta in *.
    destruct (storageFails env _); [done|]. cbn [snd].
    rewrite guard_scheduled. unfold exec, eraseScheduled. cbn [modify snd
      withStorage withScheduled m_scheduledAlerts].
    set (alert1 := Alert.withTime (Alert.getScheduledTime_ISO_8601 alert) unix old).
    assert (Alert.getToken alert1
            ∉ AlertSet.tokens (AlertSet.erase old (m_scheduledAlerts s)))
      as Hfresh
      by (change (Alert.getToken alert1) with (Alert.getToken old);
          by apply erase_token_gone).
    split; [apply insert_fresh_NoDup; [done | by apply erase_NoDup]|].
    exists alert1. rewrite <- Htok.
    change (Alert.getToken old) with (Alert.getToken alert1) at 1.
    by rewrite find_insert_fresh.
  - apply find_token_None in Hfind.
    rewrite scheduleAlert_new_shape in * by done.
    destruct (getCurrentUnixTime env) as [now|]; [|done].
    destruct (Alert.isPastDue alert now limit); [done|].
    destruct (storageFails env _); [done|].
    destruct (m_alertStorage s !! Alert.getToken alert); [done|].
    cbv zeta. cbn [snd].
    set (stored := Alert.setObserver (Alert.setRenderer alert)).
    assert (m_scheduledAlerts
              (if m_activeAlert s is Some _
               then withScheduled
                      (AlertSet.insert stored (m_scheduledAlerts s))
                      (withStorage
                         (<[Alert.getToken alert := alert]> (m_alertStorage s))
                         s)
               else exec (setTimerForNextAlertLocked env)
                      (withScheduled
                         (AlertSet.insert stored (m_scheduledAlerts s))
                         (withStorage
                            (<[Alert.getToken alert := alert]>
                               (m_alertStorage s)) s)))
            = AlertSet.insert stored (m_scheduledAlerts s)) as ->.
    { destruct (m_activeAlert s); [done|].
      match goal with
      | |- context [exec (setTimerForNextAlertLocked env) ?s0] =>
          by destruct (setTimer_shape env s0) as (t & q & -> & _ & _)
      end. }
    split; [by apply insert_fresh_NoDup|].
    exists stored.
    change (Alert.getToken alert) with (Alert.getToken stored) at 1.
    by rewrite find_insert_fresh.
Qed.

Lemma X12_witness :
  NoDup (AlertSet.tokens (m_scheduledAlerts oneScheduled))
  ∧ ∃ found,
      getAlertLocked "A"
        (exec (scheduleAlert secondsOfDigits 30 (calm 0) (alarm "A" "300" 0))
           oneScheduled)
      = (Some found,
         exec (scheduleAlert secondsOfDigits 30 (calm 0) (alarm "A" "300" 0))
           oneScheduled)
      ∧ Alert.getScheduledTime_ISO_8601 found = "300"%string.
Proof.
  assert (NoDup (AlertSet.tokens (m_scheduledAlerts oneScheduled))) as Hnd
    by (vm_compute; apply NoDup_singleton).
  split; [exact Hnd|].
  destruct (X12_schedule_then_lookup secondsOfDigits 30 (calm 0)
              (alarm "A" "300" 0) oneScheduled Hnd eq_refl)
    as (_ & found & H1 & _ & H2).
  exists found. split; [exact H1 | exact H2].
Defined.

(** X13: scheduling, then deleting.  For a token that neither the scheduled
    set nor the active alert has, a [scheduleAlert] that returned success
    followed by a [deleteAlert] of the token whose erase the storage carries
    out gives back the scheduled set and the storage rows as they were, and
    leaves the active slot alone; the timer is as a re-arming on the
    original state leaves it. *)
Theorem X13_schedule_then_delete (convert : string → option Z) (limit : Z)
    (env env' : Env) (alert : Alert.t) (s : AlertScheduler) :
  Alert.getToken alert ∉ AlertSet.tokens (m_scheduledAlerts s) →
  activeHasToken (m_activeAlert s) (Alert.getToken alert) = false →
  result (scheduleAlert convert limit env alert) s = true →
  storageFails env' (AlertStorage.Erase (Alert.getToken alert)) = false →
  let s' :=
    exec (deleteAlert env' (Alert.getToken alert))
      (exec (scheduleAlert convert limit env alert) s) in
  m_scheduledAlerts s' = m_scheduledAlerts s
  ∧ m_alertStorage s' = m_alertStorage s
  ∧ m_activeAlert s' = m_activeAlert s
  ∧ m_scheduledAlertTimer s'
    = m_scheduledAlertTimer (exec (setTimerForNextAlertLocked env') s).
Proof.
  intros Hfresh Hact Hok Herase s'. subst s'.
  set (stored := Alert.setObserver (Alert.setRenderer alert)).
  pose proof (scheduleAlert_new_shape convert limit env alert s Hfresh) as E.
  cbv zeta in E. fold stored in E. unfold result in Hok. rewrite E in Hok.
  destruct (getCurrentUnixTime env) as [now|]; [|done].
  destruct (Alert.isPastDue alert now limit); [done|].
  destruct (storageFails env _); [done|].
  destruct (m_alertStorage s !! Alert.getToken alert) eqn:Erow; [done|].
  assert (∃ t q,
    exec (scheduleAlert convert limit env alert) s
    = withExecutor q
        (withTimer t
           (withScheduled (AlertSet.insert stored (m_scheduledAlerts s))
              (withStorage
                 (<[Alert.getToken alert := alert]> (m_alertStorage s)) s))))
    as (t & q & ->).
  { unfold exec at 1. rewrite E. cbn [snd]. destruct (m_activeAlert s) as [a|].
    - exists (m_scheduledAlertTimer s), (m_executor s). by destruct s.
    - match goal with
      | |- context [exec (setTimerForNextAlertLocked env) ?s0] =>
          destruct (setTimer_shape env s0) as (t & q & -> & _ & _)
      end.
      by eexists _, _. }
  unfold exec at 1 2 3 4.
  rewrite (deleteAlert_scheduled _ _ _ stored).
  2:{ done. }
  2:{ cbn [withExecutor withTimer withScheduled m_scheduledAlerts].
      change (Alert.getToken alert) with (Alert.getToken stored) at 1.
      by apply find_insert_fresh. }
  cbn [snd]. rewrite eraseAlert_Some.
  change (Alert.getToken stored) with (Alert.getToken alert). rewrite Herase.
  unfold eraseScheduled. unfold exec at 2 4 6 8. cbn [modify snd withExecutor
    withTimer withScheduled withStorage m_scheduledAlerts m_alertStorage
    m_executor].
  rewrite erase_insert_fresh by done. rewrite delete_insert_id by done.
  split_and!.
  - by match goal with
       | |- context [exec (setTimerForNextAlertLocked env') ?s0] =>
           destruct (setTimer_shape env' s0) as (t' & q' & -> & _ & _)
       end.
  - by match goal with
       | |- context [exec (setTimerForNextAlertLocked env') ?s0] =>
           destruct (setTimer_shape env' s0) as (t' & q' & -> & _ & _)
       end.
  - by match goal with
       | |- context [exec (setTimerForNextAlertLocked env') ?s0] =>
           destruct (setTimer_shape env' s0) as (t' & q' & -> & _ & _)
       end.
  - by apply setTimer_timer.
Qed.

Lemma X13_witness :
  (Alert.getToken (alarm "C" "50" 50)
   ∉ AlertSet.tokens (m_scheduledAlerts oneScheduled))
  ∧ m_scheduledAlerts
      (exec (deleteAlert (calm 0) "C")
         (exec (scheduleAlert secondsOfDigits 30 (calm 0) (alarm "C" "50" 50))
            oneScheduled))
    = m_scheduledAlerts oneScheduled.
Proof.
  assert (Alert.getToken (alarm "C" "50" 50)
          ∉ AlertSet.tokens (m_scheduledAlerts oneScheduled)) as Hfresh.
  { vm_compute. intros [E|E]%elem_of_cons; [discriminate|].
    by apply elem_of_nil in E. }
  split; [exact Hfresh|].
  exact (proj1 (X13_schedule_then_delete secondsOfDigits 30 (calm 0) (calm 0)
                  (alarm "C" "50" 50) oneScheduled Hfresh eq_refl eq_refl
                  eq_refl)).
Defined.

Lemma omap_matched_nil (s : AlertScheduler) (toks : list string) :
  (∀ t, t ∈ toks → matchedAlert s t = None) →
  omap (matchedAlert s) toks = []
  ∧ existsb (activeHasToken (m_activeAlert s)) toks = false.
Proof.
  induction toks as [|t toks IH]; [done|]. intros H.
  destruct IH as [IH1 IH2]; [intros t' Ht'; apply H; by right|].
  pose proof (H t ltac:(left)) as Ht. csimpl. rewrite Ht, IH1, IH2.
  apply matchedAlert_None in Ht as [-> _]. done.
Qed.

(** X14: the edges of [deleteAlerts].  With an empty list, or a list of
    tokens none of which names an alert, it returns success, erases nothing
    and notifies nobody, and still re-arms the timer (where [deleteAlert] of
    such a token leaves the state as it is).  With one token that names a
    scheduled alert whose row the storage erases, it does what [deleteAlert]
    does. *)
Theorem X14_deleteAlerts_edges (env : Env) (toks : list string) (tok : string)
    (s : AlertScheduler) :
  ((∀ t, t ∈ toks → matchedAlert s t = None) →
   deleteAlerts env toks s = (true, exec (setTimerForNextAlertLocked env) s)
   ∧ ∀ t, t ∈ toks → deleteAlert env t s = (true, s))
  ∧ (∀ a, activeHasToken (m_activeAlert s) tok = false →
          matchedAlert s tok = Some a →
          storageFails env (AlertStorage.Erase (Alert.getToken a)) = false →
          deleteAlerts env [tok] s = deleteAlert env tok s).
Proof.
  split.
  - intros Hnone. split.
    + rewrite deleteAlerts_shape.
      destruct (omap_matched_nil s toks Hnone) as [E1 E2].
      rewrite E1. cbn [AlertStorage.bulkErase]. do 2 f_equal.
      unfold afterBulkErase. rewrite E1, E2. destruct s; simpl.
      by rewrite !app_nil_r.
    + intros t Ht. apply Hnone, matchedAlert_None in Ht as [H1 H2].
      apply deleteAlert_missing; [done | by apply find_token_None].
  - intros a Hact Hmatch Herase. rewrite deleteAlerts_shape.
    unfold afterBulkErase. csimpl. rewrite Hmatch, Hact.
    unfold matchedAlert in Hmatch. rewrite Hact in Hmatch.
    rewrite (deleteAlert_scheduled _ _ _ a) by done.
    cbn [AlertStorage.bulkErase]. unfold AlertStorage.erase. rewrite Herase.
    cbn [fst snd andb orb]. do 2 f_equal.
    rewrite eraseAlert_Some, Herase. destruct s; simpl.
    unfold exec, eraseScheduled, modify, withExecutor, withStorage,
      withScheduled; simpl.
    by rewrite app_nil_r.
Qed.

Lemma forEach_notify_deleted (l : list Alert.t) (s : AlertScheduler) :
  exec (forEach l (λ alert,
          notifyObserver (Alert.getToken alert) (Alert.getTypeName alert)
            AlertObserverInterface.DELETED "")) s
  = withExecutor (m_executor s ++ (deletedFor <$> l)) s.
Proof.
  revert s. induction l as [|a l IH]; intros s.
  - simpl. unfold exec, ret. destruct s; simpl. unfold withExecutor; simpl.
    by rewrite app_nil_r.
  - cbn [forEach]. unfold exec in *. rewrite bind_exec, IH.
    unfold notifyObserver. unfold_monad. simpl. unfold withExecutor; simpl.
    by rewrite <- app_assoc.
Qed.

Lemma clearData_shape (env : Env) (reason : Alert.StopReason)
    (s : AlertScheduler) :
  exec (clearData env reason) s
  = withStorage
      (if storageFails env AlertStorage.ClearDatabase then m_alertStorage s
       else ∅)
      (withScheduled []
         (withExecutor (m_executor s ++ (deletedFor <$> m_scheduledAlerts s))
            (withTimer None
               (exec (deactivateActiveAlertHelperLocked reason) s)))).
Proof.
  unfold clearData, exec. rewrite !bind_exec. cbn [get fst snd].
  pose proof (deactivate_shape reason s) as Hd. unfold exec in Hd.
  pose proof forEach_notify_deleted as Hf. unfold exec in Hf.
  set (s0 := (deactivateActiveAlertHelperLocked reason s).2) in *.
  assert ((if m_scheduledAlertTimer s0 is Some _ then modify (withTimer None)
           else ret ()) s0 = (tt, withTimer None s0)) as ->.
  { destruct s0 as [? ? ? ? ? [job|] ? ? ? ?]; done. }
  cbn [fst snd]. rewrite Hf.
  unfold callStorage, AlertStorage.clearDatabase.
  assert (m_scheduledAlerts s0 = m_scheduledAlerts s
          ∧ m_executor s0 = m_executor s ∧ m_alertStorage s0 = m_alertStorage s)
    as (E1 & E2 & E3) by (subst s0; rewrite Hd; by destruct (m_activeAlert s)).
  cbn [withTimer withExecutor withScheduled m_scheduledAlerts m_executor
    m_alertStorage modify fst snd]. rewrite E1, E2, E3.
  by destruct (storageFails env _).
Qed.

(** X15: [clearData] empties the scheduled set and stops the timer, and
    enqueues one Deleted notification per scheduled alert, in the order of
    the set.  The active alert is only asked to stop: it stays in the active
    slot (so [getAllAlerts] still returns it) and no Deleted is enqueued for
    it.  The result of [clearDatabase] is not looked at: when it fails the
    rows stay while the set is empty. *)
Theorem X15_clearData (env : Env) (reason : Alert.StopReason)
    (s : AlertScheduler) :
  let s' := exec (clearData env reason) s in
  m_scheduledAlerts s' = []
  ∧ m_scheduledAlertTimer s' = None
  ∧ m_executor s' = m_executor s ++ (deletedFor <$> m_scheduledAlerts s)
  ∧ m_activeAlert s' = Alert.deactivate reason <$> m_activeAlert s
  ∧ alertCalls s'
    = alertCalls s ++
      ((λ a, Deactivate (Alert.getToken a) reason)
         <$> option_list (m_activeAlert s))
  ∧ m_alertStorage s'
    = (if storageFails env AlertStorage.ClearDatabase then m_alertStorage s
       else ∅)
  ∧ result getAllAlerts s' = option_list (m_activeAlert s').
Proof.
  intros s'. subst s'. unfold result. rewrite getAllAlerts_shape.
  rewrite clearData_shape, deactivate_shape.
  destruct s as [o db f [a|] sch tm q obs calls down]; simpl;
    rewrite ?app_nil_r; by split_and!.
Qed.

(** X16: when [initialize] succeeds and what a failure leaves.  It returns
    success exactly when the observer is not null, the database opens or
    can be created, and the clock can be read.  With a null observer it
    changes nothing.  A call that fails later loads nothing: the scheduled
    set, the active slot, the timer and the pending notifications are as
    before; but it has already taken the observer. *)
Theorem X16_initialize_result (limit : Z) (env : Env) (observer : bool)
    (s : AlertScheduler) :
  let s' := exec (initialize limit env observer) s in
  result (initialize limit env observer) s
  = observer
    && (AlertStorage.open (storageFails env)
        || negb (storageFails env AlertStorage.CreateDatabase))
    && bool_decide (is_Some (getCurrentUnixTime env))
  ∧ (observer = false → s' = s)
  ∧ (observer = true → m_observer s' = true)
  ∧ (result (initialize limit env observer) s = false →
     m_scheduledAlerts s' = m_scheduledAlerts s
     ∧ m_activeAlert s' = m_activeAlert s
     ∧ m_scheduledAlertTimer s' = m_scheduledAlertTimer s
     ∧ m_executor s' = m_executor s).
Proof.
  intros s'. subst s'. destruct observer; [|by split_and!].
  destruct (getCurrentUnixTime env) as [now|] eqn:Hnow.
  - assert (AlertStorage.open (storageFails env) = true
            ∨ storageFails env AlertStorage.CreateDatabase = false →
            result (initialize limit env true) s = true
            ∧ m_observer (exec (initialize limit env true) s) = true) as Hok.
    { intros Hready. unfold result, exec.
      rewrite (initialize_shape _ _ now) by done. split; [done|]. cbn [snd].
      match goal with
      | |- context [exec (setTimerForNextAlertLocked env) ?s0] =>
          destruct (setTimer_shape env s0) as (t & q & -> & _ & _)
      end.
      by rewrite forEach_initializeLoaded. }
    rewrite bool_decide_true by eauto.
    destruct (AlertStorage.open (storageFails env)) eqn:Hopen.
    { destruct Hok as [-> ->]; [by left|]. by split_and!. }
    destruct (storageFails env AlertStorage.CreateDatabase) eqn:Hcreate.
    + unfold result, exec. rewrite initialize_no_database by done.
      by split_and!.
    + destruct Hok as [-> ->]; [by right|]. by split_and!.
  - rewrite bool_decide_false by (by intros [? ?]). rewrite andb_false_r.
    destruct (initialize_no_clock limit env s Hnow) as [db E].
    unfold result, exec. rewrite E. by split_and!.
Qed.

(** ** The executor's queue is first in, first out *)

Section QueueKept.

Variable q : list Task.
Variable o : list Notification.

Lemma queue_modify (f : AlertScheduler → AlertScheduler) :
  (∀ s, m_executor s `prefix_of` m_executor (f s) ∧ observed (f s) = observed s) →
  preserves (queueKept q o) (modify f).
Proof.
  intros Hf. apply preserves_modify. intros s [Hq Ho].
  destruct (Hf s) as [Hq' Ho']. split; [by etrans | congruence].
Qed.

Lemma queue_same (f : AlertScheduler → AlertScheduler) :
  (∀ s, m_executor (f s) = m_executor s ∧ observed (f s) = observed s) →
  preserves (queueKept q o) (modify f).
Proof.
  intros Hf. apply queue_modify. intros s. destruct (Hf s) as [-> ->]. done.
Qed.

Lemma queue_submit (t : Task) : preserves (queueKept q o) (submit t).
Proof.
  apply queue_modify. intros s. split; [by apply prefix_app_r | done].
Qed.

Lemma queue_notify (tok ty : string) (st : AlertObserverInterface.State)
    (reason : string) :
  preserves (queueKept q o) (notifyObserver tok ty st reason).
Proof. apply queue_submit. Qed.

Lemma queue_alertCall (c : AlertCall) : preserves (queueKept q o) (alertCall c).
Proof. by apply queue_same. Qed.

Lemma queue_onActive (f : Alert.t → Alert.t) :
  preserves (queueKept q o) (onActiveAlert f).
Proof. by apply queue_same. Qed.

Lemma queue_insert (a : Alert.t) : preserves (queueKept q o) (insertScheduled a).
Proof. by apply queue_same. Qed.

Lemma queue_erase (a : Alert.t) : preserves (queueKept q o) (eraseScheduled a).
Proof. by apply queue_same. Qed.

Lemma queue_withActive (a : option Alert.t) :
  preserves (queueKept q o) (modify (withActive a)).
Proof. by apply queue_same. Qed.

Lemma queue_withTimer (t : option TimerJob) :
  preserves (queueKept q o) (modify (withTimer t)).
Proof. by apply queue_same. Qed.

Lemma queue_withFocus (f : FocusState) :
  preserves (queueKept q o) (modify (withFocus f)).
Proof. by apply queue_same. Qed.

Lemma queue_withObserver (b : bool) :
  preserves (queueKept q o) (modify (withObserver b)).
Proof. by apply queue_same. Qed.

Lemma queue_withScheduled (l : list Alert.t) :
  preserves (queueKept q o) (modify (withScheduled l)).
Proof. by apply queue_same. Qed.

Lemma queue_storage
    (call : gmap string Alert.t → bool * gmap string Alert.t) :
  preserves (queueKept q o) (callStorage call).
Proof. intros s Hs. unfold callStorage. by destruct (call _). Qed.

Lemma queue_setTimer (env : Env) :
  preserves (queueKept q o) (setTimerForNextAlertLocked env).
Proof.
  intros s [Hq Ho]. destruct (setTimer_shape env s) as (t & k & E & _).
  unfold exec in E. rewrite E. split; [|done].
  etrans; [exact Hq|]. by apply prefix_app_r.
Qed.

Lemma queue_activateNext : preserves (queueKept q o) activateNextAlertLocked.
Proof.
  intros s Hs. pose proof (activateNext_shape s) as E. unfold exec in E.
  rewrite E. by destruct (m_activeAlert s), (m_scheduledAlerts s).
Qed.

End QueueKept.

Create HintDb queue.

#[local] Hint Resolve preserves_ret preserves_get queue_submit queue_notify
  queue_alertCall queue_onActive queue_insert queue_erase queue_withActive
  queue_withTimer queue_withFocus queue_withObserver queue_withScheduled
  queue_storage queue_setTimer queue_activateNext : queue.

Ltac queue :=
  repeat first
    [ progress eauto with queue
    | apply preserves_bind; [|intros ?]
    | apply preserves_forEach; intros ?
    | match goal with
      | |- preserves _ (match ?x with _ => _ end) => destruct x
      | |- preserves _ (let '(_, _) := ?x in _) => destruct x
      end ].

Lemma queue_executeOnAlertStateChange (q : list Task) (o : list Notification)
    (env : Env) (n : Notification) (s s' : AlertScheduler) :
  queueKept q o s →
  executeOnAlertStateChange env n s = Some s' →
  queueKept q o s'.
Proof.
  intros Hs. unfold executeOnAlertStateChange.
  destruct (alertState n); try (by intros [= <-]);
    try (intros [= <-]; apply preserves_exec; [|done];
         unfold eraseAlert, getAlertLocked; by queue).
  - destruct (m_activeAlert s); [|by intros [= <-]].
    destruct (decide _); intros [= <-]; [|done].
    apply preserves_exec; [|done]. queue.
  - destruct (m_activeAlert s); [|done].
    intros [= <-]. apply preserves_exec; [|done]. queue.
Qed.

Lemma queue_exec {A} (c : M A) (s : AlertScheduler) :
  preserves (queueKept (m_executor s) (observed s)) c →
  m_executor s `prefix_of` m_executor (exec c s)
  ∧ observed (exec c s) = observed s.
Proof. intros Hc. by apply (Hc s). Qed.

(** X17: the executor's queue is first in, first out, and only the executor
    delivers to the observer.  A public operation other than [shutdown], the
    alerts' callback and a firing of the timer leave the pending tasks in
    place and in order (they can only append) and deliver nothing.  A run of
    the executor takes the oldest task, leaves the others in place and in
    order, and delivers to the observer exactly the notification of that
    task, if it is one.  [shutdown] leaves the queue empty and delivers
    nothing. *)
Theorem X17_executor_fifo (convert : string → option Z) (limit : Z)
    (env : Env) (e : Event) (s s' : AlertScheduler) :
  step convert limit env e s = Some s' →
  match e with
  | ExecutorRun =>
      ∃ task rest,
        m_executor s = task :: rest
        ∧ rest `prefix_of` m_executor s'
        ∧ observed s' = observed s ++ delivered task
  | Shutdown => m_executor s' = [] ∧ observed s' = observed s
  | _ => m_executor s `prefix_of` m_executor s' ∧ observed s' = observed s
  end.
Proof.
  unfold step. destruct (isShutdown s); [done|].
  destruct e; simpl; try (intros [= <-]; apply queue_exec).
  - unfold initialize, initializeLoaded, eraseAlert, setTimerForNextAlert.
    queue.
  - unfold scheduleAlert, updateAlert, updateAlertGuard, getAlertLocked.
    queue.
  - unfold snoozeAlert. queue.
  - unfold deleteAlert, deactivateActiveAlertHelperLocked, eraseAlert,
      getAlertLocked. queue.
  - unfold deleteAlerts, deactivateActiveAlertHelperLocked. queue.
  - unfold updateFocus, deactivateActiveAlertHelperLocked. queue.
  - unfold onLocalStop, deactivateActiveAlertHelperLocked. queue.
  - unfold clearData, deactivateActiveAlertHelperLocked. queue.
  - unfold onAlertStateChange. queue.
  - unfold executorRun. destruct (m_executor s) as [|[n|n] rest] eqn:Eq;
      [done| |].
    + unfold executeNotifyObserver. simpl.
      destruct (m_observer s); [|done]. intros [= <-].
      exists (ExecuteNotifyObserver n), rest. by split_and!.
    + intros Hrun. exists (ExecuteOnAlertStateChange n), rest.
      split; [done|]. simpl. rewrite app_nil_r.
      change (queueKept rest (observed s) s').
      by apply (queue_executeOnAlertStateChange _ _ env n (withExecutor rest s)).
  - unfold timerFire. destruct (m_scheduledAlertTimer s); [|done].
    intros [= <-]. split; [by apply prefix_app_r | done].
  - by intros [= <-].
Qed.

Lemma X17_witness :
  ∃ s',
    step secondsOfDigits 30 (calm 0) ExecutorRun dueNow = Some s'
    ∧ ∃ task rest,
        m_executor dueNow = task :: rest
        ∧ rest `prefix_of` m_executor s'
        ∧ observed s' = observed dueNow ++ delivered task.
Proof.
  destruct (step secondsOfDigits 30 (calm 0) ExecutorRun dueNow) as [s'|]
    eqn:Hstep; [|vm_compute in Hstep; discriminate].
  exists s'. split; [reflexivity|].
  exact (X17_executor_fifo secondsOfDigits 30 (calm 0) ExecutorRun dueNow s'
           Hstep).
Defined.

(** ** What the armed timer waits for *)

Lemma targets_disarmed (s : AlertScheduler) :
  m_scheduledAlertTimer s = None → timerTargetsFirst s.
Proof. intros E job. by rewrite E. Qed.

(** A change that leaves the timer alone and, unless it fills the active
    slot, the active slot and the scheduled set too. *)
Lemma targets_frame (s s' : AlertScheduler) :
  timerTargetsFirst s →
  m_scheduledAlertTimer s' = m_scheduledAlertTimer s →
  (m_activeAlert s' = None →
   m_activeAlert s = None ∧ m_scheduledAlerts s' = m_scheduledAlerts s) →
  timerTargetsFirst s'.
Proof.
  intros Hs Ht Hact job Hjob. rewrite Ht in Hjob.
  destruct (Hs job Hjob) as [Hpos Hfirst]. split; [done|].
  intros Hnone. destruct (Hact Hnone) as [Hnone' ->]. auto.
Qed.

(** [setTimerForNextAlertLocked] establishes the invariant, whatever the
    state it starts from. *)
Lemma setTimer_targets (env : Env) (s : AlertScheduler) :
  timerTargetsFirst (exec (setTimerForNextAlertLocked env) s).
Proof.
  unfold setTimerForNextAlertLocked. unfold_monad.
  destruct s as [o db f act sch tm q obs calls down]; simpl.
  assert (∀ s0, m_scheduledAlertTimer s0 = None → timerTargetsFirst s0)
    as Hnone by apply targets_disarmed.
  destruct tm as [job0|]; simpl;
    (destruct act as [a|]; [by apply Hnone|];
     destruct sch as [|alert rest]; [by apply Hnone|];
     destruct (getCurrentUnixTime env) as [now|]; [|by apply Hnone]; simpl;
     match goal with
     | |- context [if ?c =? 0 then _ else _] => destruct (Z.eqb_spec c 0) as [E|E]
     end; [by apply Hnone|]).
  all: intros job [= <-]; simpl; split; [|by eauto].
  all: destruct (Z.ltb_spec
                   (wrap64 (Alert.getScheduledTime_Unix alert - now)) 0);
    [done | lia].
Qed.

Lemma guard_targets (env : Env) (a : Alert.t) (s s1 : AlertScheduler) :
  timerTargetsFirst s →
  m_scheduledAlertTimer s1 = m_scheduledAlertTimer s →
  m_activeAlert s1 = m_activeAlert s →
  timerTargetsFirst (exec (updateAlertGuard env a) s1).
Proof.
  intros Hs Ht Hact. rewrite guard_shape.
  destruct (m_activeAlert s1) as [b|] eqn:Eb; [|apply setTimer_targets].
  apply (targets_frame s); [done | done |].
  cbn [withScheduled m_activeAlert]. by rewrite Eb.
Qed.

Lemma targets_executeOnAlertStateChange (env : Env) (n : Notification)
    (s s' : AlertScheduler) :
  timerTargetsFirst s →
  executeOnAlertStateChange env n s = Some s' →
  timerTargetsFirst s'.
Proof.
  intros Hs.
  destruct (alertState n) eqn:Hst.
  - unfold executeOnAlertStateChange. rewrite Hst. intros [= <-].
    by apply (targets_frame s).
  - unfold executeOnAlertStateChange. rewrite Hst.
    destruct (m_activeAlert s) as [a|] eqn:Ea; [|by intros [= <-]].
    destruct (decide _); intros [= <-]; [|done].
    apply (targets_frame s); [done | |].
    + unfold AlertStorage.modify. unfold_monad.
      by destruct (storageFails env _).
    + unfold AlertStorage.modify. unfold_monad.
      destruct (storageFails env _); simpl; by rewrite Ea.
  - rewrite executeOnAlertStateChange_finish by auto. intros [= <-].
    rewrite finish_shape. apply setTimer_targets.
  - destruct (m_activeAlert s) as [a|] eqn:Ea.
    + rewrite (snoozed_shape _ _ _ a) by done. intros [= <-].
      apply setTimer_targets.
    + unfold executeOnAlertStateChange. by rewrite Hst, Ea.
  - rewrite executeOnAlertStateChange_finish by auto. intros [= <-].
    rewrite finish_shape. apply setTimer_targets.
  - unfold executeOnAlertStateChange. rewrite Hst. by intros [= <-].
  - unfold executeOnAlertStateChange. rewrite Hst. by intros [= <-].
  - unfold executeOnAlertStateChange. rewrite Hst. by intros [= <-].
  - rewrite error_shape by done. intros [= <-]. cbv zeta.
    match goal with
    | |- timerTargetsFirst (withExecutor _ ?s1) =>
        assert (timerTargetsFirst s1) as Hs1
    end.
    { destruct (activeHasToken _ _); [apply setTimer_targets|].
      destruct (find _ _); [apply setTimer_targets | done]. }
    eapply targets_frame; [exact Hs1 | done | done].
  - unfold executeOnAlertStateChange. rewrite Hst. by intros [= <-].
Qed.

Lemma targets_step (convert : string → option Z) (limit : Z) (env : Env)
    (e : Event) (s s' : AlertScheduler) :
  timerTargetsFirst s → step convert limit env e s = Some s' →
  timerTargetsFirst s'.
Proof.
  intros Hs. unfold step. destruct (isShutdown s); [done|].
  destruct e; simpl; try (intros [= <-]).
  - (* initialize *)
    destruct observer; [|done].
    destruct (getCurrentUnixTime env) as [now|] eqn:Hnow.
    + destruct (AlertStorage.open (storageFails env)) eqn:Hopen.
      { unfold exec. rewrite (initialize_shape _ _ now) by auto.
        apply setTimer_targets. }
      destruct (storageFails env AlertStorage.CreateDatabase) eqn:Hcreate.
      * unfold exec. rewrite initialize_no_database by done.
        by apply (targets_frame s).
      * unfold exec. rewrite (initialize_shape _ _ now) by auto.
        apply setTimer_targets.
    + destruct (initialize_no_clock limit env s Hnow) as [db E].
      unfold exec. rewrite E. by apply (targets_frame s).
  - (* scheduleAlert *)
    destruct (find (λ a, String.eqb (Alert.getToken alert) (Alert.getToken a))
                (m_scheduledAlerts s)) as [old|] eqn:Hfind.
    + unfold exec. rewrite (scheduleAlert_old_shape _ _ _ _ old) by done.
      destruct (getCurrentUnixTime env) as [now|]; [|done].
      destruct (Alert.isPastDue alert now limit); [done|].
      rewrite updateAlert_shape.
      destruct (convert _) as [unix|]; cbv zeta;
        [destruct (storageFails env _)|]; cbn [snd];
        by apply (guard_targets _ _ s).
    + apply find_token_None in Hfind.
      unfold exec. rewrite scheduleAlert_new_shape by done.
      destruct (getCurrentUnixTime env) as [now|]; [|done].
      destruct (Alert.isPastDue alert now limit); [done|].
      destruct (storageFails env _); [done|].
      destruct (m_alertStorage s !! Alert.getToken alert); [done|].
      cbv zeta. cbn [snd].
      destruct (m_activeAlert s) as [a|] eqn:Ea; [|apply setTimer_targets].
      apply (targets_frame s); [done | done |].
      cbn [withScheduled withStorage m_activeAlert]. by rewrite Ea.
  - (* snoozeAlert *)
    unfold exec. rewrite snoozeAlert_shape.
    destruct (m_activeAlert s) as [a|] eqn:Ea; [|done].
    destruct (String.eqb _ _); [|done].
    by apply (targets_frame s).
  - (* deleteAlert *)
    unfold exec.
    destruct (activeHasToken (m_activeAlert s) alertToken0) eqn:Hact.
    { rewrite deleteAlert_active by done. cbn [snd]. rewrite deactivate_shape.
      destruct (m_activeAlert s) as [a|] eqn:Ea; [|done].
      by apply (targets_frame s). }
    destruct (find (λ a, String.eqb alertToken0 (Alert.getToken a))
                (m_scheduledAlerts s)) as [a|] eqn:Hfind.
    + rewrite (deleteAlert_scheduled _ _ _ a) by done. apply setTimer_targets.
    + by rewrite deleteAlert_missing.
  - (* deleteAlerts *)
    unfold exec. rewrite deleteAlerts_shape.
    destruct (AlertStorage.bulkErase _ _ _) as [[|] db'];
      [apply setTimer_targets | by apply (targets_frame s)].
  - (* updateFocus *)
    destruct (decide (m_focusState s = focusState)) as [E|E].
    { unfold exec. by rewrite updateFocus_same. }
    rewrite updateFocus_changed by done.
    assert (timerTargetsFirst
              (exec (deactivateActiveAlertHelperLocked Alert.LOCAL_STOP)
                 (withFocus focusState s))) as Hstop.
    { rewrite deactivate_shape. cbn [withFocus m_activeAlert].
      destruct (m_activeAlert s) as [a|] eqn:Ea; by apply (targets_frame s). }
    assert (∀ a, m_activeAlert s = Some a →
              timerTargetsFirst
                (withExecutor (m_executor s ++ focusEnteredFor focusState a)
                   (withActive (Some (Alert.setFocusState focusState a))
                      (withFocus focusState s)))) as Hfwd
      by (intros a Ea; by apply (targets_frame s)).
    assert (m_activeAlert s = None →
            timerTargetsFirst
              (exec activateNextAlertLocked (withFocus focusState s)))
      as Hnext.
    { intros Ea. rewrite activateNext_shape. cbn [withFocus m_activeAlert
        m_scheduledAlerts]. rewrite Ea.
      destruct (m_scheduledAlerts s); by apply (targets_frame s). }
    destruct focusState; [| |done];
      (destruct (m_activeAlert s) as [a|] eqn:Ea; [by apply Hfwd | by apply Hnext]).
  - (* onLocalStop *)
    unfold onLocalStop. rewrite deactivate_shape.
    destruct (m_activeAlert s) as [a|] eqn:Ea; [|done].
    by apply (targets_frame s).
  - (* clearData *)
    rewrite clearData_shape. by apply targets_disarmed.
  - (* onAlertStateChange *)
    by apply (targets_frame s).
  - (* the executor *)
    unfold executorRun. destruct (m_executor s) as [|[n|n] rest]; [done| |].
    + unfold executeNotifyObserver. simpl.
      destruct (m_observer s); [|done]. intros [= <-].
      by apply (targets_frame s).
    + apply targets_executeOnAlertStateChange. by apply (targets_frame s).
  - (* the timer *)
    unfold timerFire. destruct (m_scheduledAlertTimer s); [|done].
    intros [= <-]. by apply targets_disarmed.
  - (* shutdown *)
    by apply targets_disarmed.
Qed.

Lemma reachable_targets (convert : string → option Z) (limit : Z)
    (db : gmap string Alert.t) (s : AlertScheduler) :
  reachable convert limit db s → timerTargetsFirst s.
Proof.
  induction 1 as [|env e s s' _ IH Hstep]; [by apply targets_disarmed|].
  by eapply targets_step.
Qed.

(** X18: what an armed timer waits for.  In every state a scheduler can
    reach, an armed timer waits a positive number of seconds (an alert that
    is due gets its Ready notification at once, and no timer); and while no
    alert is active the scheduled set is not empty and the timer is bound to
    the token and type of its first alert. *)
Theorem X18_timer_targets_first (convert : string → option Z) (limit : Z)
    (db : gmap string Alert.t) (s : AlertScheduler) (job : TimerJob) :
  reachable convert limit db s →
  m_scheduledAlertTimer s = Some job →
  0 < secondsToWait job
  ∧ (m_activeAlert s = None →
     ∃ first rest,
       m_scheduledAlerts s = first :: rest
       ∧ readyToken job = Alert.getToken first
       ∧ readyType job = Alert.getTypeName first).
Proof.
  intros Hreach Hjob. by apply (reachable_targets _ _ _ _ Hreach job).
Qed.

Lemma reachable_oneScheduled : reachable secondsOfDigits 30 ∅ oneScheduled.
Proof.
  apply (runEvents_reachable _ _ (calm 0) _
           [Initialize true; ScheduleAlert (alarm "A" "100" 100)]
           (newScheduler ∅)); [apply reachable_new | reflexivity].
Qed.

Lemma X18_witness :
  reachable secondsOfDigits 30 ∅ oneScheduled
  ∧ m_scheduledAlertTimer oneScheduled
    = Some {| secondsToWait := 100; readyToken := "A"; readyType := "ALARM" |}
  ∧ 0 < 100.
Proof.
  split_and!; [apply reachable_oneScheduled | reflexivity |].
  exact (proj1 (X18_timer_targets_first secondsOfDigits 30 ∅ oneScheduled
                  {| secondsToWait := 100; readyToken := "A";
                     readyType := "ALARM" |}
                  reachable_oneScheduled eq_refl)).
Defined.

(** ** Every alert in memory is bound to the renderer and the observer *)

Lemma bound_bind (a : Alert.t) : bound (Alert.setObserver (Alert.setRenderer a)).
Proof. done. Qed.

Lemma bound_withTime (iso : string) (unix : Z) (a : Alert.t) :
  bound a → bound (Alert.withTime iso unix a).
Proof. done. Qed.

Lemma bound_updateScheduledTime (convert : string → option Z) (t : string)
    (a : Alert.t) :
  bound a → bound (Alert.updateScheduledTime convert t a).2.
Proof. unfold Alert.updateScheduledTime. by destruct (convert t). Qed.

Lemma bound_snooze (convert : string → option Z) (t : string) (a : Alert.t) :
  bound a → bound (Alert.snooze convert t a).
Proof. unfold Alert.snooze. by destruct (convert t). Qed.

Lemma allBound_same (f : AlertScheduler → AlertScheduler) :
  (∀ s, m_scheduledAlerts (f s) = m_scheduledAlerts s
        ∧ m_activeAlert (f s) = m_activeAlert s) →
  preserves allBound (modify f).
Proof.
  intros Hf. apply preserves_modify. intros s [H1 H2].
  destruct (Hf s) as [E1 E2]. split; intros a; rewrite ?E1, ?E2; auto.
Qed.

Lemma allBound_submit (t : Task) : preserves allBound (submit t).
Proof. by apply allBound_same. Qed.

Lemma allBound_notify (tok ty : string) (st : AlertObserverInterface.State)
    (reason : string) :
  preserves allBound (notifyObserver tok ty st reason).
Proof. apply allBound_submit. Qed.

Lemma allBound_alertCall (c : AlertCall) : preserves allBound (alertCall c).
Proof. by apply allBound_same. Qed.

Lemma allBound_withTimer (t : option TimerJob) :
  preserves allBound (modify (withTimer t)).
Proof. by apply allBound_same. Qed.

Lemma allBound_withFocus (f : FocusState) :
  preserves allBound (modify (withFocus f)).
Proof. by apply allBound_same. Qed.

Lemma allBound_withObserver (b : bool) :
  preserves allBound (modify (withObserver b)).
Proof. by apply allBound_same. Qed.

Lemma allBound_clear_active : preserves allBound (modify (withActive None)).
Proof. apply preserves_modify. intros s [H1 H2]. by split. Qed.

Lemma allBound_clear_scheduled : preserves allBound (modify (withScheduled [])).
Proof.
  apply preserves_modify. intros s [H1 H2]. split; [|done].
  by intros a ?%elem_of_nil.
Qed.

Lemma allBound_storage
    (call : gmap string Alert.t → bool * gmap string Alert.t) :
  preserves allBound (callStorage call).
Proof. intros s Hs. unfold callStorage. by destruct (call _). Qed.

Lemma allBound_onActive (f : Alert.t → Alert.t) :
  (∀ a, bound a → bound (f a)) → preserves allBound (onActiveAlert f).
Proof.
  intros Hf. apply preserves_modify. intros s [H1 H2]. split; [done|].
  simpl. intros a Ha. destruct (m_activeAlert s) as [b|]; [|done].
  injection Ha as <-. auto.
Qed.

Lemma allBound_insert (a : Alert.t) :
  bound a → preserves allBound (insertScheduled a).
Proof.
  intros Ha. apply preserves_modify. intros s [H1 H2]. split; [|done].
  simpl. intros b [->|Hb]%insert_elem_inv; auto.
Qed.

Lemma allBound_insert_bound (a : Alert.t) :
  preserves allBound
    (insertScheduled (Alert.setObserver (Alert.setRenderer a))).
Proof. apply allBound_insert, bound_bind. Qed.

Lemma allBound_erase (a : Alert.t) : preserves allBound (eraseScheduled a).
Proof.
  apply preserves_modify. intros s [H1 H2]. split; [|done].
  simpl. intros b Hb%erase_subseteq. auto.
Qed.

Lemma allBound_setTimer (env : Env) :
  preserves allBound (setTimerForNextAlertLocked env).
Proof.
  intros s Hs. destruct (setTimer_shape env s) as (t & q & E & _).
  unfold exec in E. by rewrite E.
Qed.

Lemma allBound_activateNext : preserves allBound activateNextAlertLocked.
Proof.
  intros s Hs. pose proof (activateNext_shape s) as E. unfold exec in E.
  rewrite E. destruct (m_activeAlert s) as [a|] eqn:Ea; [done|].
  destruct (m_scheduledAlerts s) as [|first rest] eqn:Es; [done|].
  destruct Hs as [H1 H2]. split; simpl.
  - intros b Hb. apply H1. rewrite Es. by right.
  - intros b [= <-]. assert (bound first) as [? ?]; [|done].
    apply H1. rewrite Es. left.
Qed.

Lemma allBound_deactivate (reason : Alert.StopReason) :
  preserves allBound (deactivateActiveAlertHelperLocked reason).
Proof.
  intros s Hs. pose proof (deactivate_shape reason s) as E.
  unfold exec in E. rewrite E.
  destruct (m_activeAlert s) as [a|] eqn:Ea; [|done].
  destruct Hs as [H1 H2]. split; [done|]. simpl. intros b [= <-].
  assert (bound a) as [? ?]; [by apply H2 | done].
Qed.

Create HintDb allBound.

#[local] Hint Resolve preserves_ret preserves_get allBound_submit
  allBound_notify allBound_alertCall allBound_withTimer allBound_withFocus
  allBound_withObserver allBound_clear_active allBound_clear_scheduled
  allBound_storage allBound_insert_bound allBound_erase allBound_setTimer
  allBound_activateNext allBound_deactivate : allBound.

Ltac allBound :=
  repeat first
    [ progress eauto with allBound
    | apply preserves_bind; [|intros ?]
    | apply preserves_forEach; intros ?
    | match goal with
      | |- preserves _ (match ?x with _ => _ end) => destruct x
      | |- preserves _ (let '(_, _) := ?x in _) => destruct x
      end ].

Lemma allBound_eraseAlert (env : Env) (alert : option Alert.t) :
  preserves allBound (eraseAlert env alert).
Proof. unfold eraseAlert. allBound. Qed.

#[local] Hint Resolve allBound_eraseAlert : allBound.

Lemma allBound_guard (env : Env) (a : Alert.t) :
  bound a → preserves allBound (updateAlertGuard env a).
Proof.
  intros Ha. unfold updateAlertGuard.
  apply preserves_bind; [by apply allBound_insert|]. intros _. allBound.
Qed.

Lemma allBound_updateAlert (convert : string → option Z) (env : Env)
    (a : Alert.t) (newTime : string) :
  bound a → preserves allBound (updateAlert convert env a newTime).
Proof.
  intros Ha s Hs. pose proof (updateAlert_shape convert env a newTime s) as E.
  rewrite E. assert (allBound (exec (eraseScheduled a) s)) as Hs1
    by (by apply allBound_erase).
  destruct (convert newTime) as [unix|]; cbv zeta;
    [destruct (storageFails env _)|]; cbn [snd].
  - apply allBound_guard; [|done].
    by apply bound_updateScheduledTime, bound_withTime.
  - apply allBound_guard; [by apply bound_withTime | done].
  - by apply allBound_guard.
Qed.

Lemma allBound_scheduleAlert (convert : string → option Z) (limit : Z)
    (env : Env) (alert : Alert.t) :
  preserves allBound (scheduleAlert convert limit env alert).
Proof.
  intros s Hs.
  destruct (find (λ a, String.eqb (Alert.getToken alert) (Alert.getToken a))
              (m_scheduledAlerts s)) as [old|] eqn:Hfind.
  - rewrite (scheduleAlert_old_shape _ _ _ _ old) by done.
    destruct (getCurrentUnixTime env) as [now|]; [|done].
    destruct (Alert.isPastDue alert now limit); [done|].
    apply allBound_updateAlert; [|done].
    apply (proj1 Hs). by apply find_token_Some in Hfind as [? _].
  - apply find_token_None in Hfind.
    rewrite scheduleAlert_new_shape by done.
    destruct (getCurrentUnixTime env) as [now|]; [|done].
    destruct (Alert.isPastDue alert now limit); [done|].
    destruct (storageFails env _); [done|].
    destruct (m_alertStorage s !! Alert.getToken alert); [done|].
    cbv zeta. cbn [snd].
    match goal with
    | |- context [withScheduled ?l (withStorage ?d s)] =>
        assert (allBound (withScheduled l (withStorage d s))) as Hs1
    end.
    { apply (allBound_insert_bound alert (withStorage _ s)).
      by destruct Hs. }
    destruct (m_activeAlert s); [done|]. by apply allBound_setTimer.
Qed.

#[local] Hint Resolve allBound_scheduleAlert : allBound.

Lemma allBound_executeOnAlertStateChange (env : Env) (n : Notification)
    (s s' : AlertScheduler) :
  allBound s → executeOnAlertStateChange env n s = Some s' → allBound s'.
Proof.
  intros Hs. unfold executeOnAlertStateChange.
  destruct (alertState n); try (by intros [= <-]);
    try (intros [= <-]; apply preserves_exec; [|done];
         unfold getAlertLocked; by allBound).
  - destruct (m_activeAlert s); [|by intros [= <-]].
    destruct (decide _); intros [= <-]; [|done].
    apply preserves_exec; [|done].
    apply preserves_bind; [by apply allBound_onActive|]. intros _. allBound.
  - destruct (m_activeAlert s) as [a|] eqn:Ea; [|done].
    intros [= <-]. apply preserves_exec; [|done].
    apply preserves_bind; [allBound|]. intros _.
    apply preserves_bind; [|intros _; allBound].
    apply allBound_insert. by apply (proj2 Hs).
Qed.

Lemma allBound_step (convert : string → option Z) (limit : Z) (env : Env)
    (e : Event) (s s' : AlertScheduler) :
  allBound s → step convert limit env e s = Some s' → allBound s'.
Proof.
  intros Hs. unfold step. destruct (isShutdown s); [done|].
  destruct e; simpl;
    try (intros [= <-]; apply preserves_exec; [|done]).
  - unfold initialize, initializeLoaded, setTimerForNextAlert. allBound.
  - allBound.
  - unfold snoozeAlert.
    apply preserves_bind; [allBound|]. intros [a|]; [|allBound].
    destruct (negb _); [allBound|].
    apply preserves_bind; [|intros _; allBound].
    apply allBound_onActive. intros b. apply bound_snooze.
  - unfold deleteAlert, getAlertLocked. allBound.
  - unfold deleteAlerts. allBound.
  - unfold updateFocus.
    assert (∀ f, preserves allBound (onActiveAlert (Alert.setFocusState f)))
      as Hfocus by (intros f; by apply allBound_onActive).
    allBound.
  - unfold onLocalStop. allBound.
  - unfold clearData. allBound.
  - unfold onAlertStateChange. allBound.
  - unfold executorRun. destruct (m_executor s) as [|[n|n] rest]; [done| |].
    + unfold executeNotifyObserver. simpl.
      destruct (m_observer s); [|done]. by intros [= <-].
    + by apply allBound_executeOnAlertStateChange.
  - unfold timerFire. destruct (m_scheduledAlertTimer s); [|done].
    by intros [= <-].
  - intros s0 _. split; [by intros b ?%elem_of_nil | done].
Qed.

(** X19: every alert the scheduler holds is bound.  In every state a
    scheduler can reach, whatever rows its storage held, each alert that
    [getAllAlerts] returns (the scheduled alerts and the active one) has its
    renderer and its observer set: [initialize] and [scheduleAlert] bind an
    alert before they insert it, and nothing else brings an alert in. *)
Theorem X19_alerts_are_bound (convert : string → option Z) (limit : Z)
    (db : gmap string Alert.t) (s : AlertScheduler) (a : Alert.t) :
  reachable convert limit db s →
  a ∈ result getAllAlerts s →
  Alert.hasRenderer a = true ∧ Alert.hasObserver a = true.
Proof.
  intros Hreach. assert (allBound s) as [H1 H2].
  { induction Hreach as [|env e s s' _ IH Hstep].
    - split; [by intros b ?%elem_of_nil | done].
    - by eapply allBound_step. }
  unfold result. rewrite getAllAlerts_shape. cbn [fst].
  intros [Ha|Ha]%elem_of_app; [by apply H1|].
  destruct (m_activeAlert s) as [b|]; [|by apply elem_of_nil in Ha].
  apply list_elem_of_singleton in Ha as ->. by apply H2.
Qed.

Lemma X19_witness :
  reachable secondsOfDigits 30 ∅ oneScheduled
  ∧ boundA ∈ result getAllAlerts oneScheduled
  ∧ Alert.hasRenderer boundA = true.
Proof.
  assert (boundA ∈ result getAllAlerts oneScheduled) as Hin
    by (vm_compute; left).
  split_and!; [apply reachable_oneScheduled | exact Hin |].
  exact (proj1 (X19_alerts_are_bound secondsOfDigits 30 ∅ oneScheduled boundA
                  reachable_oneScheduled Hin)).
Defined.

(** ** The observer, once set, stays set *)

Lemma observer_storage
    (call : gmap string Alert.t → bool * gmap string Alert.t) :
  preserves observerSet (callStorage call).
Proof. intros s Hs. unfold callStorage. by destruct (call _). Qed.

Ltac observer :=
  unfold notifyObserver, submit, alertCall, onActiveAlert, insertScheduled,
    eraseScheduled;
  repeat first
    [ apply preserves_ret
    | apply preserves_get
    | apply observer_storage
    | apply preserves_modify; by intros ? ?
    | apply preserves_bind; [|intros ?]
    | apply preserves_forEach; intros ?
    | match goal with
      | |- preserves _ (match ?x with _ => _ end) => destruct x
      | |- preserves _ (let '(_, _) := ?x in _) => destruct x
      end ].

Lemma observer_step (convert : string → option Z) (limit : Z) (env : Env)
    (e : Event) (s s' : AlertScheduler) :
  observerSet s → e ≠ Shutdown → step convert limit env e s = Some s' →
  observerSet s'.
Proof.
  intros Hs Hlive. unfold step. destruct (isShutdown s); [done|].
  destruct e; simpl; [..|done];
    try (intros [= <-]; apply preserves_exec; [|done]).
  - unfold initialize, initializeLoaded, eraseAlert, setTimerForNextAlert,
      setTimerForNextAlertLocked. observer.
  - unfold scheduleAlert, updateAlert, updateAlertGuard, getAlertLocked,
      setTimerForNextAlertLocked. observer.
  - unfold snoozeAlert. observer.
  - unfold deleteAlert, deactivateActiveAlertHelperLocked, eraseAlert,
      getAlertLocked, setTimerForNextAlertLocked. observer.
  - unfold deleteAlerts, deactivateActiveAlertHelperLocked,
      setTimerForNextAlertLocked. observer.
  - unfold updateFocus, deactivateActiveAlertHelperLocked,
      activateNextAlertLocked. observer.
  - unfold onLocalStop, deactivateActiveAlertHelperLocked. observer.
  - unfold clearData, deactivateActiveAlertHelperLocked. observer.
  - unfold onAlertStateChange. observer.
  - unfold executorRun. destruct (m_executor s) as [|[n|n] rest]; [done| |].
    + unfold executeNotifyObserver. simpl.
      destruct (m_observer s); [|done]. by intros [= <-].
    + unfold executeOnAlertStateChange.
      assert (observerSet (withExecutor rest s)) as Hs' by done.
      destruct (alertState n); try (by intros [= <-]);
        try (intros [= <-]; apply preserves_exec; [|done];
             unfold eraseAlert, getAlertLocked, setTimerForNextAlertLocked;
             by observer).
      * destruct (m_activeAlert (withExecutor rest s)); [|by intros [= <-]].
        destruct (decide _); intros [= <-]; [|done].
        apply preserves_exec; [|done]. observer.
      * destruct (m_activeAlert (withExecutor rest s)); [|done].
        intros [= <-]. apply preserves_exec; [|done].
        unfold setTimerForNextAlertLocked. observer.
  - unfold timerFire. destruct (m_scheduledAlertTimer s); [|done].
    by intros [= <-].
Qed.

(** X20: the observer, once set, stays set until [shutdown].  Every public
    operation other than [shutdown], every event that the executor
    dispatches, every delivery and every firing of the timer leaves a set
    observer set, so that [executeNotifyObserver], which calls the observer
    without a null test, finds it.  [shutdown] unsets the observer and at the
    same time leaves no task pending: no notification is left to be handed
    to a null observer. *)
Theorem X20_observer_set_until_shutdown (convert : string → option Z)
    (limit : Z) (env : Env) (e : Event) (s s' : AlertScheduler) :
  m_observer s = true →
  step convert limit env e s = Some s' →
  match e with
  | Shutdown => m_observer s' = false ∧ m_executor s' = []
  | _ => m_observer s' = true
  end.
Proof.
  intros Hs Hstep.
  assert (e ≠ Shutdown → m_observer s' = true) as Hlive
    by (intros He; by apply (observer_step convert limit env e s s')).
  destruct e; try (apply Hlive; discriminate).
  unfold step in Hstep. destruct (isShutdown s); [done|].
  injection Hstep as <-. split; reflexivity.
Qed.

Lemma X20_witness :
  m_observer (exec (initialize 30 (calm 0) true) (newScheduler ∅)) = true
  ∧ m_observer oneScheduled = true.
Proof.
  split; [reflexivity|].
  exact (X20_observer_set_until_shutdown secondsOfDigits 30 (calm 0)
           (ScheduleAlert (alarm "A" "100" 100))
           (exec (initialize 30 (calm 0) true) (newScheduler ∅))
           oneScheduled eq_refl eq_refl).
Defined.

(** ** The order of the scheduled set, and the local stop *)

Lemma sorted_NoDup (l : list Alert.t) : AlertSet.sorted l → NoDup l.
Proof.
  unfold AlertSet.sorted. induction 1 as [|a l Hs IH Ha]; constructor; [|done].
  intros Hin. rewrite Forall_forall in Ha. specialize (Ha a Hin).
  by rewrite lessThan_irrefl in Ha.
Qed.

(** X21: the scheduled set is ordered.  In every state a scheduler can
    reach the scheduled set is strictly increasing in the order of the
    comparator (scheduled time, then token): no alert is in it twice, and no
    alert of the set is due before the first one, the one that
    [setTimerForNextAlertLocked] arms the timer for and that
    [activateNextAlertLocked] promotes. *)
Theorem X21_scheduled_set_ordered (convert : string → option Z) (limit : Z)
    (db : gmap string Alert.t) (s : AlertScheduler) :
  reachable convert limit db s →
  AlertSet.sorted (m_scheduledAlerts s)
  ∧ NoDup (m_scheduledAlerts s)
  ∧ ∀ first rest b,
      m_scheduledAlerts s = first :: rest → b ∈ rest →
      Alert.lessThan first b = true
      ∧ Alert.getScheduledTime_Unix first ≤ Alert.getScheduledTime_Unix b.
Proof.
  intros Hreach. pose proof (reachable_sorted _ _ _ _ Hreach) as Hs.
  unfold scheduledSorted in Hs. split_and!; [done | by apply sorted_NoDup |].
  intros first rest b E Hb. unfold AlertSet.sorted in Hs. rewrite E in Hs.
  apply StronglySorted_inv in Hs as [_ Hall].
  rewrite Forall_forall in Hall. specialize (Hall b Hb).
  split; [done|]. apply lessThan_spec in Hall. lia.
Qed.

Lemma X21_witness :
  reachable secondsOfDigits 30 ∅ oneScheduled
  ∧ NoDup (m_scheduledAlerts oneScheduled).
Proof.
  split; [apply reachable_oneScheduled|].
  exact (proj1 (proj2 (X21_scheduled_set_ordered secondsOfDigits 30 ∅
                         oneScheduled reachable_oneScheduled))).
Defined.

(** X22: a local stop only asks the active alert to stop (LOCAL_STOP).  The
    alert stays in the active slot; the scheduled set, the storage, the
    timer, the focus and the pending notifications are untouched, and with
    no active alert nothing happens at all.  Losing the focus
    ([updateFocus] with no focus) is a local stop that also records the
    focus. *)
Theorem X22_onLocalStop (s : AlertScheduler) :
  let s' := exec onLocalStop s in
  (m_activeAlert s = None → s' = s)
  ∧ m_activeAlert s' = Alert.deactivate Alert.LOCAL_STOP <$> m_activeAlert s
  ∧ m_scheduledAlerts s' = m_scheduledAlerts s
  ∧ m_alertStorage s' = m_alertStorage s
  ∧ m_scheduledAlertTimer s' = m_scheduledAlertTimer s
  ∧ m_focusState s' = m_focusState s
  ∧ m_executor s' = m_executor s
  ∧ (m_focusState s ≠ NONE → exec (updateFocus NONE) s = withFocus NONE s').
Proof.
  intros s'. subst s'. unfold onLocalStop. rewrite deactivate_shape.
  split_and!; try (by destruct (m_activeAlert s)).
  { by destruct (m_activeAlert s) eqn:E. }
  intros Hf. rewrite updateFocus_changed by done. rewrite deactivate_shape.
  by destruct s as [o db f [a|] sch tm q obs calls down].
Qed.

(** ** Lookup by token, and the firing of the timer *)

Lemma find_token_first (tok : string) (l : list Alert.t) (a b : Alert.t) :
  AlertSet.sorted l →
  find (λ alert, String.eqb tok (Alert.getToken alert)) l = Some a →
  b ∈ l → Alert.getToken b = tok →
  b = a ∨ Alert.lessThan a b = true.
Proof.
  unfold AlertSet.sorted. induction 1 as [|c l Hs IH Hc]; simpl; [done|].
  destruct (String.eqb_spec tok (Alert.getToken c)) as [->|Hne].
  - intros [= ->] [->|Hb]%elem_of_cons _; [by left|].
    right. rewrite Forall_forall in Hc. by apply Hc.
  - intros Hfind [->|Hb]%elem_of_cons Htok; [done | by apply IH].
Qed.

(** X23: [getAlertLocked] looks a token up in the scheduled set only, and
    changes nothing.  It returns null exactly when no scheduled alert has
    the token (the active alert is not looked at); otherwise it returns a
    scheduled alert with the token and, in a set in comparator order that
    holds the token more than once, the earliest of them. *)
Theorem X23_getAlertLocked_finds_first (tok : string) (s : AlertScheduler) :
  AlertSet.sorted (m_scheduledAlerts s) →
  exec (getAlertLocked tok) s = s
  ∧ (result (getAlertLocked tok) s = None
     ↔ tok ∉ AlertSet.tokens (m_scheduledAlerts s))
  ∧ ∀ a, result (getAlertLocked tok) s = Some a →
         a ∈ m_scheduledAlerts s
         ∧ Alert.getToken a = tok
         ∧ ∀ b, b ∈ m_scheduledAlerts s → Alert.getToken b = tok →
                b = a ∨ Alert.lessThan a b = true.
Proof.
  intros Hsorted. unfold exec, result. rewrite getAlertLocked_shape.
  cbn [fst snd]. split_and!; [done | apply find_token_None |].
  intros a Hfind. destruct (find_token_Some _ _ _ Hfind) as [Hin Htok].
  split_and!; [done | done |]. intros b Hb Hbt.
  by apply (find_token_first tok (m_scheduledAlerts s)).
Qed.

Lemma sorted_twiceB : AlertSet.sorted (m_scheduledAlerts twiceB).
Proof. vm_compute. repeat constructor. Qed.

Lemma X23_witness :
  AlertSet.sorted (m_scheduledAlerts twiceB)
  ∧ (∀ a, result (getAlertLocked "B") twiceB = Some a →
          Alert.getToken a = "B"%string).
Proof.
  split; [exact sorted_twiceB|].
  intros a Ha.
  exact (proj1 (proj2 (proj2 (proj2 (X23_getAlertLocked_finds_first "B" twiceB
                                       sorted_twiceB)) a Ha))).
Defined.

(** ** The end of the life of a scheduler *)

Lemma live_storage
    (call : gmap string Alert.t → bool * gmap string Alert.t) :
  preserves notShutdown (callStorage call).
Proof. intros s Hs. unfold callStorage. by destruct (call _). Qed.

Ltac live :=
  unfold notifyObserver, submit, alertCall, onActiveAlert, insertScheduled,
    eraseScheduled;
  repeat first
    [ apply preserves_ret
    | apply preserves_get
    | apply live_storage
    | apply preserves_modify; by intros ? ?
    | apply preserves_bind; [|intros ?]
    | apply preserves_forEach; intros ?
    | match goal with
      | |- preserves _ (match ?x with _ => _ end) => destruct x
      | |- preserves _ (let '(_, _) := ?x in _) => destruct x
      end ].

(** Only [shutdown] ends the life of a scheduler. *)
Lemma live_step (convert : string → option Z) (limit : Z) (env : Env)
    (e : Event) (s s' : AlertScheduler) :
  e ≠ Shutdown → step convert limit env e s = Some s' → notShutdown s'.
Proof.
  intros Hlive. unfold step. destruct (isShutdown s) eqn:Hs; [done|].
  destruct e; simpl; [..|done];
    try (intros [= <-]; apply preserves_exec; [|done]).
  - unfold initialize, initializeLoaded, eraseAlert, setTimerForNextAlert,
      setTimerForNextAlertLocked. live.
  - unfold scheduleAlert, updateAlert, updateAlertGuard, getAlertLocked,
      setTimerForNextAlertLocked. live.
  - unfold snoozeAlert. live.
  - unfold deleteAlert, deactivateActiveAlertHelperLocked, eraseAlert,
      getAlertLocked, setTimerForNextAlertLocked. live.
  - unfold deleteAlerts, deactivateActiveAlertHelperLocked,
      setTimerForNextAlertLocked. live.
  - unfold updateFocus, deactivateActiveAlertHelperLocked,
      activateNextAlertLocked. live.
  - unfold onLocalStop, deactivateActiveAlertHelperLocked. live.
  - unfold clearData, deactivateActiveAlertHelperLocked. live.
  - unfold onAlertStateChange. live.
  - unfold executorRun. destruct (m_executor s) as [|[n|n] rest]; [done| |].
    + unfold executeNotifyObserver. simpl.
      destruct (m_observer s); [|done]. by intros [= <-].
    + unfold executeOnAlertStateChange.
      assert (notShutdown (withExecutor rest s)) as Hs' by done.
      destruct (alertState n); try (by intros [= <-]);
        try (intros [= <-]; apply preserves_exec; [|done];
             unfold eraseAlert, getAlertLocked, setTimerForNextAlertLocked;
             by live).
      * destruct (m_activeAlert (withExecutor rest s)); [|by intros [= <-]].
        destruct (decide _); intros [= <-]; [|done].
        apply preserves_exec; [|done]. live.
      * destruct (m_activeAlert (withExecutor rest s)); [|done].
        intros [= <-]. apply preserves_exec; [|done].
        unfold setTimerForNextAlertLocked. live.
  - unfold timerFire. destruct (m_scheduledAlertTimer s); [|done].
    by intros [= <-].
Qed.

(** A scheduler that has been shut down holds no alert, no armed timer and
    no pending task. *)
Lemma reachable_down (convert : string → option Z) (limit : Z)
    (db : gmap string Alert.t) (s : AlertScheduler) :
  reachable convert limit db s →
  isShutdown s = true →
  m_scheduledAlertTimer s = None
  ∧ m_executor s = []
  ∧ m_activeAlert s = None
  ∧ m_scheduledAlerts s = [].
Proof.
  induction 1 as [|env e s s' _ _ Hstep]; [done|]. intros Hdown.
  assert (e ≠ Shutdown → notShutdown s') as Hlive
    by (intros He; by apply (live_step convert limit env e s s')).
  unfold notShutdown in Hlive.
  destruct e; try (rewrite Hlive in Hdown; [done | discriminate]).
  unfold step in Hstep. destruct (isShutdown s); [done|].
  by injection Hstep as <-.
Qed.

(** X24: when the timer fires.  In every state a scheduler can reach, a
    firing of the armed timer disarms it and enqueues one notification, Ready,
    and changes nothing else; while no alert is active it is the Ready of the
    first alert of the scheduled set, the earliest one. *)
Theorem X24_timer_fires_for_first (convert : string → option Z) (limit : Z)
    (db : gmap string Alert.t) (env : Env) (s : AlertScheduler)
    (job : TimerJob) :
  reachable convert limit db s →
  m_scheduledAlertTimer s = Some job →
  ∃ ready,
    step convert limit env TimerFire s
    = Some (withExecutor (m_executor s ++ [ExecuteNotifyObserver ready])
              (withTimer None s))
    ∧ alertState ready = AlertObserverInterface.READY
    ∧ alertToken ready = readyToken job
    ∧ (m_activeAlert s = None →
       ∃ first rest,
         m_scheduledAlerts s = first :: rest
         ∧ ExecuteNotifyObserver ready = readyFor first).
Proof.
  intros Hreach Hjob.
  destruct (reachable_targets _ _ _ _ Hreach job Hjob) as [_ Hfirst].
  assert (isShutdown s = false) as Hlive.
  { destruct (isShutdown s) eqn:Hdown; [|done].
    destruct (reachable_down _ _ _ _ Hreach Hdown) as [Hnone _].
    by rewrite Hnone in Hjob. }
  eexists. unfold step, timerFire. rewrite Hlive, Hjob.
  split; [reflexivity|]. split_and!; [done | done |].
  intros Hnone. destruct (Hfirst Hnone) as (first & rest & E & Htok & Hty).
  exists first, rest. split; [done|]. unfold readyFor. by rewrite Htok, Hty.
Qed.

Lemma X24_witness :
  reachable secondsOfDigits 30 ∅ oneScheduled
  ∧ ∃ ready,
      step secondsOfDigits 30 (calm 100) TimerFire oneScheduled
      = Some (withExecutor (m_executor oneScheduled ++ [ExecuteNotifyObserver ready])
                (withTimer None oneScheduled))
      ∧ alertToken ready = "A"%string.
Proof.
  split; [apply reachable_oneScheduled|].
  destruct (X24_timer_fires_for_first secondsOfDigits 30 ∅ (calm 100)
              oneScheduled
              {| secondsToWait := 100; readyToken := "A"; readyType := "ALARM" |}
              reachable_oneScheduled eq_refl) as (ready & H1 & _ & H2 & _).
  exists ready. split; [exact H1 | exact H2].
Defined.

(** ** An unreadable clock *)

(** X25: what happens while the clock cannot be read.  [scheduleAlert]
    refuses every alert and [initialize] fails, both before they touch the
    scheduled set; and a re-arming of the timer stops the running timer and
    starts none, so that after a [deleteAlert] of a scheduled alert no timer
    is armed, however many alerts are scheduled. *)
Theorem X25_unreadable_clock (convert : string → option Z) (limit : Z)
    (env : Env) (s : AlertScheduler) :
  getCurrentUnixTime env = None →
  exec (setTimerForNextAlertLocked env) s = withTimer None s
  ∧ (∀ alert, scheduleAlert convert limit env alert s = (false, s))
  ∧ (∀ observer,
       result (initialize limit env observer) s = false
       ∧ m_scheduledAlerts (exec (initialize limit env observer) s)
         = m_scheduledAlerts s)
  ∧ (∀ tok, tok ∈ AlertSet.tokens (m_scheduledAlerts s) →
            activeHasToken (m_activeAlert s) tok = false →
            m_scheduledAlertTimer (exec (deleteAlert env tok) s) = None).
Proof.
  intros Hnow.
  assert (∀ s0, exec (setTimerForNextAlertLocked env) s0 = withTimer None s0)
    as Hset.
  { intros s0. unfold setTimerForNextAlertLocked. unfold_monad. rewrite Hnow.
    by destruct s0 as [o db f [a|] [|first rest] [job|] q obs calls down]. }
  split_and!; [done | | |].
  - intros alert. unfold scheduleAlert. by rewrite Hnow.
  - intros [|]; [|done].
    destruct (initialize_no_clock limit env s Hnow) as [db E].
    unfold result, exec. by rewrite E.
  - intros tok Htok Hact.
    destruct (find (λ a, String.eqb tok (Alert.getToken a))
                (m_scheduledAlerts s)) as [a|] eqn:Hfind.
    + unfold exec at 1. rewrite (deleteAlert_scheduled _ _ _ a) by done.
      cbn [snd]. by rewrite Hset.
    + by apply find_token_None in Hfind.
Qed.

Lemma X25_witness :
  getCurrentUnixTime noClock = None
  ∧ m_scheduledAlertTimer (exec (setTimerForNextAlertLocked noClock) oneScheduled)
    = None.
Proof.
  split; [reflexivity|].
  exact (f_equal m_scheduledAlertTimer
           (proj1 (X25_unreadable_clock secondsOfDigits 30 noClock oneScheduled
                     eq_refl))).
Defined.
